(** * The MCP protocol core (src/core/protocol.ts, errors.ts, types.ts,
      server.ts) as a shallow embedding.

    The dispatcher is embedded as functions on an explicit state: the
    fields of the [McpProtocol] class, the promise store of the futures
    handed out by [sendRequest], the messages the transport accepted and
    the lines written to [console.error].  Asynchronous methods become
    state-passing functions that either complete or throw; each inbound
    message is processed in one step and handlers are pure functions of
    their arguments.

    Messages cross from one dispatcher to another in their wire form
    ([wire]): the transports write [JSON.stringify(message)] and deliver
    [JSON.parse(text)].  The resource slice (resources/registry.ts,
    cache.ts, provider.ts) is embedded in the same style; the contents
    objects, which the provider writes into and shares with its cache,
    live in an explicit store and are passed by reference. *)

From Stdlib Require Import ZArith String List Bool Lia.
From stdpp Require Import gmap strings list fin_maps pretty.

Local Open Scope Z_scope.
Local Open Scope string_scope.
Local Open Scope list_scope.
Set Warnings "-register-all".

(** ** Untyped structured values (TypeScript [unknown]) *)

(** Numbers are restricted to integers: the ids allocated by the
    dispatcher and the error codes are integers, and no arithmetic
    other than the increment of the id counter is performed.  An
    object is the list of its own properties in insertion order. *)
Inductive value : Type :=
| VUndefined
| VNull
| VBool (b : bool)
| VNum (n : Z)
| VStr (s : string)
| VArr (items : list value)
| VObj (props : list (string * value)).

Definition obj : Type := list (string * value).

Module Obj.

(** [o[k]] on own properties: the first binding of [k]. *)
Fixpoint get (k : string) (o : obj) : option value :=
  match o with
  | [] => None
  | (k', v) :: rest => if String.eqb k k' then Some v else get k rest
  end.

(** ['k' in o] *)
Definition has (k : string) (o : obj) : bool :=
  match get k o with Some _ => true | None => false end.

(** [o.k]: [undefined] when the property is absent. *)
Definition prop (k : string) (o : obj) : value :=
  match get k o with Some v => v | None => VUndefined end.

(** [o[k] = v]: an existing property keeps its place. *)
Fixpoint set (k : string) (v : value) (o : obj) : obj :=
  match o with
  | [] => [(k, v)]
  | (k', v') :: rest =>
      if String.eqb k k' then (k, v) :: rest else (k', v') :: set k v rest
  end.

(** [{...target, ...src}] *)
Definition spread (target src : obj) : obj :=
  fold_left (fun acc kv => set (fst kv) (snd kv) acc) src target.

Definition keys (o : obj) : list string := map fst o.

End Obj.

(** JavaScript truthiness, [if (v)]. *)
Definition truthy (v : value) : bool :=
  match v with
  | VUndefined | VNull | VBool false | VNum 0 | VStr "" => false
  | _ => true
  end.

(** [v ?? null] *)
Definition nullish_to_null (v : value) : value :=
  match v with
  | VUndefined | VNull => VNull
  | _ => v
  end.

(** ** errors.ts *)

Definition ErrorCode : Type := Z.

Record McpError : Type := mkMcpError {
  code : ErrorCode;
  message : string;
  data : value          (* [undefined] when the argument is omitted *)
}.

(** [McpError.toJsonRpcError] *)
Definition toJsonRpcError (e : McpError) : obj :=
  let error := [("code", VNum (code e)); ("message", VStr (message e))] in
  if truthy (data e) then Obj.set "data" (data e) error else error.

Definition ParseError (message : string) (data : value) : McpError :=
  mkMcpError (-32700) message data.
Definition InvalidRequestError (message : string) (data : value) : McpError :=
  mkMcpError (-32600) message data.
Definition MethodNotFoundError (method : string) (data : value) : McpError :=
  mkMcpError (-32601) ("Method not found: " +:+ method) data.
Definition InvalidParamsError (message : string) (data : value) : McpError :=
  mkMcpError (-32602) message data.
Definition InternalError (message : string) (data : value) : McpError :=
  mkMcpError (-32603) message data.
Definition ResourceNotFoundError (uri : string) (data : value) : McpError :=
  mkMcpError (-32001) ("Resource not found: " +:+ uri) data.
Definition ToolExecutionError (toolName message : string) (data : value) : McpError :=
  mkMcpError (-32002)
    ("Tool execution error in " +:+ toolName +:+ ": " +:+ message) data.
Definition PromptNotFoundError (promptName : string) (data : value) : McpError :=
  mkMcpError (-32003) ("Prompt not found: " +:+ promptName) data.
Definition CapabilityNotSupportedError (capability : string) (data : value) : McpError :=
  mkMcpError (-32004) ("Capability not supported: " +:+ capability) data.

(** ** The schema library (zod), as far as the dispatcher uses it *)

(** A validation error lists the paths of the properties that failed. *)
Record ZodError : Type := mkZodError { issues : list (list string) }.

Definition zod_issue_value (path : list string) : value :=
  VObj [("path", VArr (map VStr path))].

(** The error object as a value, for use as [data] of an [McpError]. *)
Definition zod_value (z : ZodError) : value :=
  VObj [("name", VStr "ZodError");
        ("issues", VArr (map zod_issue_value (issues z)))].

Module Zod.

(** Result of parsing one property: the parsed value or its issues. *)
Definition res (A : Type) : Type := A + list (list string).

Definition ap {A B} (f : res (A -> B)) (x : res A) : res B :=
  match f, x with
  | inl g, inl a => inl (g a)
  | inl _, inr es => inr es
  | inr es, inl _ => inr es
  | inr es, inr es' => inr (es ++ es')
  end.

(** A property absent from the input is parsed as [undefined]. *)
Definition field {A} (k : string) (p : list string -> value -> res A)
    (o : obj) : res A :=
  p [k] (Obj.prop k o).

(** [z.string()] *)
Definition string_ (path : list string) (v : value) : res string :=
  match v with VStr s => inl s | _ => inr [path] end.

(** [z.number()] *)
Definition number_ (path : list string) (v : value) : res Z :=
  match v with VNum n => inl n | _ => inr [path] end.

(** [z.literal(l)] for a string literal *)
Definition literal (l : string) (path : list string) (v : value) : res unit :=
  match v with
  | VStr s => if String.eqb s l then inl tt else inr [path]
  | _ => inr [path]
  end.

(** [z.unknown().optional()] *)
Definition unknown_optional (path : list string) (v : value) : res value :=
  inl v.

(** [.optional()] *)
Definition optional {A} (p : list string -> value -> res A)
    (path : list string) (v : value) : res (option A) :=
  match v with
  | VUndefined => inl None
  | _ => match p path v with inl a => inl (Some a) | inr es => inr es end
  end.

(** [z.object({...})]: the input must be a non-null, non-array object. *)
Definition object {A} (p : obj -> res A) (path : list string) (v : value)
    : res A :=
  match v with
  | VObj o =>
      match p o with
      | inl a => inl a
      | inr es => inr (map (fun i => path ++ i) es)
      end
  | _ => inr [path]
  end.

Definition finish {A} (r : res A) : A + ZodError :=
  match r with inl a => inl a | inr es => inr (mkZodError es) end.

End Zod.

Notation "f <*> x" := (Zod.ap f x) (at level 61, left associativity).

(** ** types.ts: the three envelopes *)

(** Request ids: [string | number]. *)
Inductive Id : Type :=
| IdNum (n : Z)
| IdStr (s : string).

#[global] Instance Id_eq_dec : EqDecision Id.
Proof. solve_decision. Defined.

#[global] Instance Id_countable : Countable Id :=
  inj_countable'
    (fun i => match i with IdNum n => inl n | IdStr s => inr s end)
    (fun x => match x with inl n => IdNum n | inr s => IdStr s end)
    (fun i => match i with IdNum _ => eq_refl | IdStr _ => eq_refl end).

Definition id_value (i : Id) : value :=
  match i with IdNum n => VNum n | IdStr s => VStr s end.

(** [id: string | number | null] of a response. *)
Definition opt_id_value (i : option Id) : value :=
  match i with Some i => id_value i | None => VNull end.

Record JsonRpcRequest : Type := mkRequest {
  req_id : Id;
  req_method : string;
  req_params : value
}.

Record JsonRpcErrorObject : Type := mkErrorObject {
  err_code : Z;
  err_message : string;
  err_data : value
}.

Record JsonRpcResponse : Type := mkResponse {
  resp_id : option Id;
  resp_result : value;
  resp_error : option JsonRpcErrorObject
}.

Record JsonRpcNotification : Type := mkNotification {
  notif_method : string;
  notif_params : value
}.

(** [z.union([z.string(), z.number()])] *)
Definition zId (path : list string) (v : value) : Zod.res Id :=
  match v with
  | VNum n => inl (IdNum n)
  | VStr s => inl (IdStr s)
  | _ => inr [path]
  end.

(** [z.union([z.string(), z.number(), z.null()])] *)
Definition zIdOrNull (path : list string) (v : value) : Zod.res (option Id) :=
  match v with
  | VNum n => inl (Some (IdNum n))
  | VStr s => inl (Some (IdStr s))
  | VNull => inl None
  | _ => inr [path]
  end.

Definition JsonRpcRequestSchema (m : obj) : JsonRpcRequest + ZodError :=
  Zod.finish
    (inl (fun _ : unit => mkRequest)
       <*> Zod.field "jsonrpc" (Zod.literal "2.0") m
       <*> Zod.field "id" zId m
       <*> Zod.field "method" Zod.string_ m
       <*> Zod.field "params" Zod.unknown_optional m).

Definition zErrorObject (o : obj) : Zod.res JsonRpcErrorObject :=
  inl mkErrorObject
    <*> Zod.field "code" Zod.number_ o
    <*> Zod.field "message" Zod.string_ o
    <*> Zod.field "data" Zod.unknown_optional o.

Definition JsonRpcResponseSchema (m : obj) : JsonRpcResponse + ZodError :=
  Zod.finish
    (inl (fun _ : unit => mkResponse)
       <*> Zod.field "jsonrpc" (Zod.literal "2.0") m
       <*> Zod.field "id" zIdOrNull m
       <*> Zod.field "result" Zod.unknown_optional m
       <*> Zod.field "error" (Zod.optional (Zod.object zErrorObject)) m).

Definition JsonRpcNotificationSchema (m : obj) : JsonRpcNotification + ZodError :=
  Zod.finish
    (inl (fun _ : unit => mkNotification)
       <*> Zod.field "jsonrpc" (Zod.literal "2.0") m
       <*> Zod.field "method" Zod.string_ m
       <*> Zod.field "params" Zod.unknown_optional m).

(** ** protocol.ts: the dispatcher state *)

(** What a JavaScript [catch] can receive.  [EError] stands for any other
    [Error] instance with its [message]; [EThrown] for a thrown value
    that is not an [Error], with the text [String(value)]. *)
Inductive exn : Type :=
| EMcp (e : McpError)
| EZod (z : ZodError)
| EError (msg : string)
| EThrown (text : string).

(** Stands for [ZodError.message].  The library gives the JSON text of
    the issues; the model keeps of an issue only its path, and this text
    lists the paths.  It is read only by [describe], for a [ZodError]
    thrown by a handler or a provider. *)
Definition zod_message (z : ZodError) : string :=
  String.concat "; " (map (String.concat ".") (issues z)).

(** [error instanceof Error ? error.message : String(error)] *)
Definition describe (e : exn) : string :=
  match e with
  | EMcp err => message err
  | EZod z => zod_message z
  | EError msg => msg
  | EThrown text => text
  end.

(** A handler either returns a value or throws. *)
Definition outcome : Type := value + exn.

Definition MessageHandler : Type := value -> Id -> outcome.
Definition NotificationHandler : Type := value -> option exn.

(** [transport.send(message)]: [None] when the write is accepted,
    [Some e] when the returned promise rejects with [e]. *)
Definition Transport : Type := obj -> option exn.

Record McpServerOptions : Type := mkOptions {
  name : string;
  version : string;
  capabilities : option obj;
  instructions : option string
}.

(** The state of a promise returned by [sendRequest]. *)
Inductive PromiseState : Type :=
| Pending
| Fulfilled (v : value)
| Rejected (e : exn).

(** The first six fields are those of the class; a pending entry holds
    the index, in [promises], of the promise whose [resolve]/[reject]
    pair it stores.  [sentMessages] collects what the transport accepted
    and [console] the calls of [console.error]. *)
Record McpProtocol : Type := mkProtocol {
  messageId : Z;
  pendingRequests : gmap Id nat;
  requestHandlers : gmap string MessageHandler;
  notificationHandlers : gmap string NotificationHandler;
  transport : Transport;
  options : McpServerOptions;
  promises : list PromiseState;
  sentMessages : list obj;
  console : list (string * exn)
}.

Definition with_messageId (n : Z) (st : McpProtocol) : McpProtocol :=
  mkProtocol n (pendingRequests st) (requestHandlers st)
    (notificationHandlers st) (transport st) (options st) (promises st)
    (sentMessages st) (console st).

Definition with_pendingRequests (p : gmap Id nat) (st : McpProtocol) : McpProtocol :=
  mkProtocol (messageId st) p (requestHandlers st)
    (notificationHandlers st) (transport st) (options st) (promises st)
    (sentMessages st) (console st).

Definition with_requestHandlers (h : gmap string MessageHandler)
    (st : McpProtocol) : McpProtocol :=
  mkProtocol (messageId st) (pendingRequests st) h
    (notificationHandlers st) (transport st) (options st) (promises st)
    (sentMessages st) (console st).

Definition with_notificationHandlers (h : gmap string NotificationHandler)
    (st : McpProtocol) : McpProtocol :=
  mkProtocol (messageId st) (pendingRequests st) (requestHandlers st)
    h (transport st) (options st) (promises st)
    (sentMessages st) (console st).

Definition with_promises (ps : list PromiseState) (st : McpProtocol) : McpProtocol :=
  mkProtocol (messageId st) (pendingRequests st) (requestHandlers st)
    (notificationHandlers st) (transport st) (options st) ps
    (sentMessages st) (console st).

Definition with_sentMessages (ms : list obj) (st : McpProtocol) : McpProtocol :=
  mkProtocol (messageId st) (pendingRequests st) (requestHandlers st)
    (notificationHandlers st) (transport st) (options st) (promises st)
    ms (console st).

Definition with_console (c : list (string * exn)) (st : McpProtocol) : McpProtocol :=
  mkProtocol (messageId st) (pendingRequests st) (requestHandlers st)
    (notificationHandlers st) (transport st) (options st) (promises st)
    (sentMessages st) c.

(** An asynchronous method: it completes with a value or throws, and
    leaves a new state either way. *)
Definition Async (A : Type) : Type := McpProtocol -> (A + exn) * McpProtocol.

Definition ret {A} (a : A) : Async A := fun st => (inl a, st).
Definition throw {A} (e : exn) : Async A := fun st => (inr e, st).

Definition bind {A B} (m : Async A) (k : A -> Async B) : Async B :=
  fun st =>
    match m st with
    | (inl a, st') => k a st'
    | (inr e, st') => (inr e, st')
    end.

(** [try { m } catch (error) { h error }] *)
Definition try_catch {A} (m : Async A) (h : exn -> Async A) : Async A :=
  fun st =>
    match m st with
    | (inl a, st') => (inl a, st')
    | (inr e, st') => h e st'
    end.

Notation "x <- m ;; k" := (bind m (fun x => k))
  (at level 100, m at next level, right associativity).
Notation "m ;;; k" := (bind m (fun _ => k))
  (at level 100, right associativity).

(** [await this.transport.send(message)] *)
Definition transport_send (m : obj) : Async unit :=
  fun st =>
    match transport st m with
    | None => (inl tt, with_sentMessages (sentMessages st ++ [m]) st)
    | Some e => (inr e, st)
    end.

(** Calling the [resolve] or [reject] of promise [p]: a settled promise
    stays as it is. *)
Definition settle (p : nat) (s : PromiseState) (st : McpProtocol) : McpProtocol :=
  match promises st !! p with
  | Some Pending => with_promises (<[p := s]> (promises st)) st
  | _ => st
  end.

(** ** protocol.ts: the methods of [McpProtocol] *)

Record InitializeParams : Type := mkInitializeParams {
  ip_protocolVersion : string;
  ip_capabilities : obj;
  ip_clientInfo : string * string
}.

Definition zClientInfo (o : obj) : Zod.res (string * string) :=
  inl pair
    <*> Zod.field "name" Zod.string_ o
    <*> Zod.field "version" Zod.string_ o.

(** The schema built inside [handleInitialize];
    [z.object({}).passthrough()] keeps every property of its input. *)
Definition zInitializeParams (params : value) : InitializeParams + ZodError :=
  Zod.finish
    (Zod.object
       (fun o =>
          inl mkInitializeParams
            <*> Zod.field "protocolVersion" Zod.string_ o
            <*> Zod.field "capabilities" (Zod.object (fun c => inl c)) o
            <*> Zod.field "clientInfo" (Zod.object zClientInfo) o)
       [] params).

Definition default_capabilities : obj :=
  [("logging", VObj []);
   ("prompts", VObj [("listChanged", VBool true)]);
   ("resources", VObj [("subscribe", VBool true); ("listChanged", VBool true)]);
   ("tools", VObj [("listChanged", VBool true)]);
   ("roots", VObj [("listChanged", VBool true)])].

(** [...this.options.capabilities]: spreading [undefined] adds nothing. *)
Definition capability_overrides (opts : McpServerOptions) : obj :=
  match capabilities opts with Some c => c | None => [] end.

Definition merged_capabilities (opts : McpServerOptions) : obj :=
  Obj.spread default_capabilities (capability_overrides opts).

(** [...(this.options.instructions && { instructions })] *)
Definition instructions_props (opts : McpServerOptions) : obj :=
  match instructions opts with
  | Some s => if truthy (VStr s) then [("instructions", VStr s)] else []
  | None => []
  end.

Definition handleInitialize (opts : McpServerOptions) (params : value) : outcome :=
  match zInitializeParams params with
  | inr z =>
      inr (EMcp (InvalidRequestError "Invalid initialize params" (zod_value z)))
  | inl _ =>
      inl (VObj
             (Obj.spread
                [("protocolVersion", VStr "2024-11-05");
                 ("capabilities", VObj (merged_capabilities opts));
                 ("serverInfo",
                  VObj [("name", VStr (name opts));
                        ("version", VStr (version opts))])]
                (instructions_props opts)))
  end.

Definition sendResponse (id : Id) (result : value) : Async unit :=
  transport_send
    [("jsonrpc", VStr "2.0"); ("id", id_value id); ("result", result)].

(** The [id] argument is whatever the caller read from the message. *)
Definition sendErrorResponse (id : value) (error : McpError) : Async unit :=
  transport_send
    [("jsonrpc", VStr "2.0");
     ("id", nullish_to_null id);
     ("error", VObj (toJsonRpcError error))].

Definition isRequest (m : obj) : bool :=
  Obj.has "id" m && Obj.has "method" m.

Definition isResponse (m : obj) : bool :=
  Obj.has "id" m && (Obj.has "result" m || Obj.has "error" m).

Definition isNotification (m : obj) : bool :=
  Obj.has "method" m && negb (Obj.has "id" m).

(** The coercion of a failure that is not an [McpError]. *)
Definition internal_error (error : exn) : McpError :=
  mkMcpError (-32603) "Internal error" (VStr (describe error)).

Definition handleRequest (request : JsonRpcRequest) : Async unit :=
  fun st =>
    match requestHandlers st !! req_method request with
    | None =>
        sendErrorResponse (id_value (req_id request))
          (mkMcpError (-32601)
             ("Method not found: " +:+ req_method request) VUndefined) st
    | Some handler =>
        try_catch
          (match handler (req_params request) (req_id request) with
           | inl result => sendResponse (req_id request) result
           | inr error => throw error
           end)
          (fun error =>
             match error with
             | EMcp e => sendErrorResponse (id_value (req_id request)) e
             | _ =>
                 sendErrorResponse (id_value (req_id request))
                   (internal_error error)
             end) st
    end.

Definition handleResponse (response : JsonRpcResponse) (st : McpProtocol)
    : McpProtocol :=
  match resp_id response with
  | None => st
  | Some id =>
      match pendingRequests st !! id with
      | None => st
      | Some pending =>
          let st' := with_pendingRequests (delete id (pendingRequests st)) st in
          match resp_error response with
          | Some error =>
              settle pending
                (Rejected
                   (EMcp (mkMcpError (err_code error) (err_message error)
                            (err_data error)))) st'
          | None => settle pending (Fulfilled (resp_result response)) st'
          end
      end
  end.

Definition handleNotification (notification : JsonRpcNotification) : Async unit :=
  fun st =>
    match notificationHandlers st !! notif_method notification with
    | None => (inl tt, st)
    | Some handler =>
        match handler (notif_params notification) with
        | None => (inl tt, st)
        | Some error =>
            (inl tt,
             with_console
               (console st ++
                  [("Error handling notification "
                      +:+ notif_method notification +:+ ":", error)]) st)
        end
    end.

Definition processMessage (m : obj) : Async unit :=
  if isRequest m then
    match JsonRpcRequestSchema m with
    | inl request => handleRequest request
    | inr z => throw (EZod z)
    end
  else if isResponse m then
    match JsonRpcResponseSchema m with
    | inl response => fun st => (inl tt, handleResponse response st)
    | inr z => throw (EZod z)
    end
  else if isNotification m then
    match JsonRpcNotificationSchema m with
    | inl notification => handleNotification notification
    | inr z => throw (EZod z)
    end
  else throw (EMcp (InvalidRequestError "Invalid message format" VUndefined)).

(** ['id' in message ? message.id : null] *)
Definition message_id_or_null (m : obj) : value :=
  if Obj.has "id" m then Obj.prop "id" m else VNull.

Definition handleMessageError (m : obj) (error : exn) : Async unit :=
  match error with
  | EZod z =>
      sendErrorResponse VNull
        (ParseError "Invalid JSON-RPC message" (zod_value z))
  | EMcp e => sendErrorResponse (message_id_or_null m) e
  | _ => sendErrorResponse (message_id_or_null m) (internal_error error)
  end.

Definition handleMessage (m : obj) : Async unit :=
  try_catch (processMessage m) (handleMessageError m).

Definition onRequest (method : string) (handler : MessageHandler)
    (st : McpProtocol) : McpProtocol :=
  with_requestHandlers (<[method := handler]> (requestHandlers st)) st.

Definition onNotification (method : string) (handler : NotificationHandler)
    (st : McpProtocol) : McpProtocol :=
  with_notificationHandlers (<[method := handler]> (notificationHandlers st)) st.

(** [...(params !== undefined && { params })] *)
Definition params_props (params : value) : obj :=
  match params with
  | VUndefined => []
  | _ => [("params", params)]
  end.

Definition request_envelope (id : Z) (method : string) (params : value) : obj :=
  Obj.spread [("jsonrpc", VStr "2.0"); ("id", VNum id); ("method", VStr method)]
    (params_props params).

(** [sendRequest] returns the promise it created, here its index. *)
Definition sendRequest (method : string) (params : value) (st : McpProtocol)
    : nat * McpProtocol :=
  let id := messageId st + 1 in
  let request := request_envelope id method params in
  let p := length (promises st) in
  let st1 :=
    with_pendingRequests (<[IdNum id := p]> (pendingRequests st))
      (with_promises (promises st ++ [Pending]) (with_messageId id st)) in
  match transport_send request st1 with
  | (inl _, st2) => (p, st2)
  | (inr e, st2) => (p, settle p (Rejected e) st2)
  end.

Definition sendNotification (method : string) (params : value) : Async unit :=
  transport_send
    (Obj.spread [("jsonrpc", VStr "2.0"); ("method", VStr method)]
       (params_props params)).

(** The constructor, with [setupCoreHandlers]. *)
Definition new_McpProtocol (t : Transport) (opts : McpServerOptions) : McpProtocol :=
  onNotification "initialized" (fun _ => None)
    (onRequest "initialize" (fun params _ => handleInitialize opts params)
       (mkProtocol 0 ∅ ∅ ∅ t opts [] [] [])).

(** ** server.ts: the method router *)

(** Built-ins of the JavaScript runtime used by [handleCallTool]:
    [JSON.stringify(v, null, 2)] and the conversion of a value in a
    template string. *)
Record Runtime : Type := mkRuntime {
  JSON_stringify : value -> value;
  template_text : value -> string
}.

Record ResourceProvider : Type := mkResourceProvider {
  listResources : outcome;
  readResource : value -> outcome;
  subscribeToResource : option (value -> option exn);
  unsubscribeFromResource : option (value -> option exn)
}.

Record ToolProvider : Type := mkToolProvider {
  listTools : outcome;
  callTool : value -> value -> outcome
}.

Record PromptProvider : Type := mkPromptProvider {
  listPrompts : outcome;
  getPrompt : value -> value -> outcome
}.

Record RootProvider : Type := mkRootProvider { listRoots : outcome }.

Record LoggingProvider : Type := mkLoggingProvider {
  setLogLevel : value -> option exn
}.

Record SamplingProvider : Type := mkSamplingProvider {
  createMessage :
    value -> value -> value -> value -> value -> value -> value -> value -> outcome
}.

(** The six optional provider fields of [McpServer]. *)
Record Providers : Type := mkProviders {
  resourceProvider : option ResourceProvider;
  toolProvider : option ToolProvider;
  promptProvider : option PromptProvider;
  rootProvider : option RootProvider;
  loggingProvider : option LoggingProvider;
  samplingProvider : option SamplingProvider
}.

Definition no_providers : Providers :=
  mkProviders None None None None None None.

(** [!params || typeof params !== 'object' || !(k in params)] is false
    exactly for an object that has the property; an array is an object
    without named properties. *)
Definition params_with (k : string) (params : value) : option obj :=
  match params with
  | VObj o => if Obj.has k o then Some o else None
  | _ => None
  end.

(** [await provider.method(...)] of a [Promise<void>]. *)
Definition void_outcome (r : option exn) : outcome :=
  match r with None => inl VUndefined | Some e => inr e end.

(** [const x = await m; return { k: x }] *)
Definition wrap_result (k : string) (r : outcome) : outcome :=
  match r with inl v => inl (VObj [(k, v)]) | inr e => inr e end.

Definition throw_mcp (e : McpError) : outcome := inr (EMcp e).

Definition handleListResources (ps : Providers) : outcome :=
  match resourceProvider ps with
  | None => inl (VObj [("resources", VArr [])])
  | Some p => wrap_result "resources" (listResources p)
  end.

Definition handleReadResource (ps : Providers) (params : value) : outcome :=
  match resourceProvider ps with
  | None => throw_mcp (ResourceNotFoundError "No resource provider configured" VUndefined)
  | Some p =>
      match params_with "uri" params with
      | None => throw_mcp (InvalidParamsError "Missing required parameter: uri" VUndefined)
      | Some o =>
          match readResource p (Obj.prop "uri" o) with
          | inl contents => inl (VObj [("contents", VArr [contents])])
          | inr e => inr e
          end
      end
  end.

Definition handleSubscribeResource (ps : Providers) (params : value) : outcome :=
  match resourceProvider ps ≫= subscribeToResource with
  | None => throw_mcp (InvalidParamsError "Resource subscription not supported" VUndefined)
  | Some subscribe =>
      match params_with "uri" params with
      | None => throw_mcp (InvalidParamsError "Missing required parameter: uri" VUndefined)
      | Some o => void_outcome (subscribe (Obj.prop "uri" o))
      end
  end.

Definition handleUnsubscribeResource (ps : Providers) (params : value) : outcome :=
  match resourceProvider ps ≫= unsubscribeFromResource with
  | None => throw_mcp (InvalidParamsError "Resource unsubscription not supported" VUndefined)
  | Some unsubscribe =>
      match params_with "uri" params with
      | None => throw_mcp (InvalidParamsError "Missing required parameter: uri" VUndefined)
      | Some o => void_outcome (unsubscribe (Obj.prop "uri" o))
      end
  end.

Definition handleListTools (ps : Providers) : outcome :=
  match toolProvider ps with
  | None => inl (VObj [("tools", VArr [])])
  | Some p => wrap_result "tools" (listTools p)
  end.

Definition handleCallTool (rt : Runtime) (ps : Providers) (params : value) : outcome :=
  match toolProvider ps with
  | None => throw_mcp (ToolExecutionError "unknown" "No tool provider configured" VUndefined)
  | Some p =>
      match params_with "name" params with
      | None => throw_mcp (InvalidParamsError "Missing required parameter: name" VUndefined)
      | Some o =>
          let name := Obj.prop "name" o in
          let args :=
            match Obj.prop "arguments" o with
            | VUndefined => VObj []
            | a => a
            end in
          match callTool p name args with
          | inl result =>
              let resultText :=
                match result with
                | VStr _ => result
                | _ => JSON_stringify rt result
                end in
              inl (VObj [("content",
                          VArr [VObj [("type", VStr "text"); ("text", resultText)]])])
          | inr error =>
              throw_mcp
                (ToolExecutionError (template_text rt name) (describe error) VUndefined)
          end
      end
  end.

Definition handleListPrompts (ps : Providers) : outcome :=
  match promptProvider ps with
  | None => inl (VObj [("prompts", VArr [])])
  | Some p => wrap_result "prompts" (listPrompts p)
  end.

Definition handleGetPrompt (ps : Providers) (params : value) : outcome :=
  match promptProvider ps with
  | None => throw_mcp (PromptNotFoundError "No prompt provider configured" VUndefined)
  | Some p =>
      match params_with "name" params with
      | None => throw_mcp (InvalidParamsError "Missing required parameter: name" VUndefined)
      | Some o =>
          wrap_result "messages"
            (getPrompt p (Obj.prop "name" o) (Obj.prop "arguments" o))
      end
  end.

Definition handleListRoots (ps : Providers) : outcome :=
  match rootProvider ps with
  | None => inl (VObj [("roots", VArr [])])
  | Some p => wrap_result "roots" (listRoots p)
  end.

Definition handleSetLogLevel (ps : Providers) (params : value) : outcome :=
  match loggingProvider ps with
  | None => throw_mcp (InvalidParamsError "Logging not supported" VUndefined)
  | Some p =>
      match params_with "level" params with
      | None => throw_mcp (InvalidParamsError "Missing required parameter: level" VUndefined)
      | Some o => void_outcome (setLogLevel p (Obj.prop "level" o))
      end
  end.

Definition handleCreateMessage (ps : Providers) (params : value) : outcome :=
  match samplingProvider ps with
  | None => throw_mcp (InvalidParamsError "Sampling not supported" VUndefined)
  | Some p =>
      match params_with "messages" params with
      | None => throw_mcp (InvalidParamsError "Missing required parameter: messages" VUndefined)
      | Some o =>
          createMessage p
            (Obj.prop "messages" o) (Obj.prop "modelPreferences" o)
            (Obj.prop "systemPrompt" o) (Obj.prop "includeContext" o)
            (Obj.prop "temperature" o) (Obj.prop "maxTokens" o)
            (Obj.prop "stopSequences" o) (Obj.prop "metadata" o)
      end
  end.

(** The handlers are bound to the server object and read its provider
    fields when they are called; here they close over the providers, and
    a provider setter installs them again. *)
Definition setupHandlers (rt : Runtime) (ps : Providers) (st : McpProtocol)
    : McpProtocol :=
  onRequest "sampling/createMessage" (fun params _ => handleCreateMessage ps params)
    (onRequest "logging/setLevel" (fun params _ => handleSetLogLevel ps params)
    (onRequest "roots/list" (fun _ _ => handleListRoots ps)
    (onRequest "prompts/get" (fun params _ => handleGetPrompt ps params)
    (onRequest "prompts/list" (fun _ _ => handleListPrompts ps)
    (onRequest "tools/call" (fun params _ => handleCallTool rt ps params)
    (onRequest "tools/list" (fun _ _ => handleListTools ps)
    (onRequest "resources/unsubscribe" (fun params _ => handleUnsubscribeResource ps params)
    (onRequest "resources/subscribe" (fun params _ => handleSubscribeResource ps params)
    (onRequest "resources/read" (fun params _ => handleReadResource ps params)
    (onRequest "resources/list" (fun _ _ => handleListResources ps) st)))))))))).

Record McpServer : Type := mkServer {
  protocol : McpProtocol;
  providers : Providers;
  runtime : Runtime
}.

Definition new_McpServer (rt : Runtime) (t : Transport) (opts : McpServerOptions)
    : McpServer :=
  mkServer (setupHandlers rt no_providers (new_McpProtocol t opts)) no_providers rt.

Definition set_providers (ps : Providers) (srv : McpServer) : McpServer :=
  mkServer (setupHandlers (runtime srv) ps (protocol srv)) ps (runtime srv).

Definition setLoggingProvider (p : LoggingProvider) (srv : McpServer) : McpServer :=
  let ps := providers srv in
  set_providers
    (mkProviders (resourceProvider ps) (toolProvider ps) (promptProvider ps)
       (rootProvider ps) (Some p) (samplingProvider ps)) srv.

Definition setSamplingProvider (p : SamplingProvider) (srv : McpServer) : McpServer :=
  let ps := providers srv in
  set_providers
    (mkProviders (resourceProvider ps) (toolProvider ps) (promptProvider ps)
       (rootProvider ps) (loggingProvider ps) (Some p)) srv.

Definition setToolProvider (p : ToolProvider) (srv : McpServer) : McpServer :=
  let ps := providers srv in
  set_providers
    (mkProviders (resourceProvider ps) (Some p) (promptProvider ps)
       (rootProvider ps) (loggingProvider ps) (samplingProvider ps)) srv.

Definition setResourceProvider (p : ResourceProvider) (srv : McpServer) : McpServer :=
  let ps := providers srv in
  set_providers
    (mkProviders (Some p) (toolProvider ps) (promptProvider ps)
       (rootProvider ps) (loggingProvider ps) (samplingProvider ps)) srv.

Definition setPromptProvider (p : PromptProvider) (srv : McpServer) : McpServer :=
  let ps := providers srv in
  set_providers
    (mkProviders (resourceProvider ps) (toolProvider ps) (Some p)
       (rootProvider ps) (loggingProvider ps) (samplingProvider ps)) srv.

Definition setRootProvider (p : RootProvider) (srv : McpServer) : McpServer :=
  let ps := providers srv in
  set_providers
    (mkProviders (resourceProvider ps) (toolProvider ps) (promptProvider ps)
       (Some p) (loggingProvider ps) (samplingProvider ps)) srv.

(** An inbound message reaching the server's dispatcher. *)
Definition server_receive (m : obj) (srv : McpServer) : (unit + exn) * McpServer :=
  match handleMessage m (protocol srv) with
  | (r, st) => (r, mkServer st (providers srv) (runtime srv))
  end.

(** ** Event traces *)

(** What can happen to a dispatcher: the transport delivers a decoded
    message, or the embedding code calls a public method.  A decoded
    array is delivered as the object of its own properties; a decoded
    value that is not an object makes [handleMessage] throw before it
    changes anything ([handleMessage_decoded]), so it is no event. *)
Inductive event : Type :=
| EvReceive (m : obj)
| EvSendRequest (method : string) (params : value)
| EvSendNotification (method : string) (params : value)
| EvOnRequest (method : string) (handler : MessageHandler)
| EvOnNotification (method : string) (handler : NotificationHandler).

Definition step (ev : event) (st : McpProtocol) : McpProtocol :=
  match ev with
  | EvReceive m => snd (handleMessage m st)
  | EvSendRequest method params => snd (sendRequest method params st)
  | EvSendNotification method params => snd (sendNotification method params st)
  | EvOnRequest method handler => onRequest method handler st
  | EvOnNotification method handler => onNotification method handler st
  end.

Definition run (evs : list event) (st : McpProtocol) : McpProtocol :=
  fold_left (fun s ev => step ev s) evs st.

(** The event is the arrival of a message that [processMessage] hands to
    [handleResponse] as a response with id [i]. *)
Definition responds_to (i : Id) (ev : event) : bool :=
  match ev with
  | EvReceive m =>
      negb (isRequest m) && isResponse m &&
      match JsonRpcResponseSchema m with
      | inl r => bool_decide (resp_id r = Some i)
      | inr _ => false
      end
  | _ => false
  end.

(** The outcome of the checks [processMessage] performs before it
    dispatches. *)
Inductive verdict : Type :=
| Valid
| SchemaFailure (z : ZodError)
| Unclassified.

Definition validate (m : obj) : verdict :=
  if isRequest m then
    match JsonRpcRequestSchema m with inl _ => Valid | inr z => SchemaFailure z end
  else if isResponse m then
    match JsonRpcResponseSchema m with inl _ => Valid | inr z => SchemaFailure z end
  else if isNotification m then
    match JsonRpcNotificationSchema m with inl _ => Valid | inr z => SchemaFailure z end
  else Unclassified.

(** The envelope built by [sendErrorResponse]. *)
Definition error_envelope (id : value) (error : McpError) : obj :=
  [("jsonrpc", VStr "2.0");
   ("id", nullish_to_null id);
   ("error", VObj (toJsonRpcError error))].

(** The transport accepts every write. *)
Definition reliable (st : McpProtocol) : Prop :=
  forall m, transport st m = None.

(** ** Invariants of the correlation state *)

(** Two states agree on the id counter, the pending table and the
    promises. *)
Definition same_requests (st st' : McpProtocol) : Prop :=
  messageId st' = messageId st /\
  pendingRequests st' = pendingRequests st /\
  promises st' = promises st.

(** The method only writes to the transport and the console. *)
Definition frames {A} (f : Async A) : Prop :=
  forall st, same_requests st (f st).2.

(** Every pending entry is keyed by an id the counter has already passed
    and stores a promise that exists, and no two entries store the same
    promise. *)
Definition consistent (st : McpProtocol) : Prop :=
  (forall k p, pendingRequests st !! k = Some p ->
     (p < length (promises st))%nat /\
     exists n, k = IdNum n /\ n <= messageId st) /\
  (forall k1 k2 p,
     pendingRequests st !! k1 = Some p ->
     pendingRequests st !! k2 = Some p -> k1 = k2).

(** The request with id [i] awaits its response on promise [p]. *)
Definition outstanding (i : Id) (p : nat) (st : McpProtocol) : Prop :=
  pendingRequests st !! i = Some p /\ promises st !! p = Some Pending.

(** ** Concrete instances used to exercise the statements *)

Module Sample.

Definition accepting : Transport := fun _ => None.

Definition broken : Transport := fun _ => Some (EError "write EPIPE").

Definition opts : McpServerOptions :=
  mkOptions "test-server" "1.0.0" None None.

(** A fresh dispatcher, as in the test suite's [beforeEach]. *)
Definition fresh : McpProtocol := new_McpProtocol accepting opts.

Definition fresh_broken : McpProtocol := new_McpProtocol broken opts.

Definition rt : Runtime := mkRuntime (fun v => v) (fun _ => "").

End Sample.

(** ** Further vocabulary for statements about the dispatcher *)

(** The number of [sendRequest] calls in a trace. *)
Fixpoint count_requests (evs : list event) : nat :=
  match evs with
  | [] => 0
  | EvSendRequest _ _ :: rest => S (count_requests rest)
  | _ :: rest => count_requests rest
  end.

(** [processMessage] answers requests, and [handleMessageError] answers
    whatever fails the checks; responses and notifications that pass
    them are not answered. *)
Definition needs_answer (m : obj) : bool :=
  match validate m with
  | Valid => isRequest m
  | _ => true
  end.

(** The transport rejects every write. *)
Definition unreachable (st : McpProtocol) : Prop :=
  forall m, transport st m <> None.

(** The error [handleRequest] reports for a failure of the handler. *)
Definition handler_failure (error : exn) : McpError :=
  match error with
  | EMcp e => e
  | _ => internal_error error
  end.

(** The envelope [handleRequest] sends for the outcome of a handler. *)
Definition response_envelope (id : Id) (r : outcome) : obj :=
  match r with
  | inl result =>
      [("jsonrpc", VStr "2.0"); ("id", id_value id); ("result", result)]
  | inr error => error_envelope (id_value id) (handler_failure error)
  end.

(** ** server.ts: notifications sent by the server, and server traces *)

Definition on_protocol {A} (f : Async A) (srv : McpServer) : (A + exn) * McpServer :=
  match f (protocol srv) with
  | (r, st) => (r, mkServer st (providers srv) (runtime srv))
  end.

Definition notifyResourceChanged (uri : string) : McpServer -> (unit + exn) * McpServer :=
  on_protocol
    (sendNotification "notifications/resources/updated" (VObj [("uri", VStr uri)])).

Definition notifyResourceListChanged : McpServer -> (unit + exn) * McpServer :=
  on_protocol (sendNotification "notifications/resources/list_changed" VUndefined).

Definition notifyToolListChanged : McpServer -> (unit + exn) * McpServer :=
  on_protocol (sendNotification "notifications/tools/list_changed" VUndefined).

Definition notifyPromptListChanged : McpServer -> (unit + exn) * McpServer :=
  on_protocol (sendNotification "notifications/prompts/list_changed" VUndefined).

Definition notifyRootListChanged : McpServer -> (unit + exn) * McpServer :=
  on_protocol (sendNotification "notifications/roots/list_changed" VUndefined).

(** [sendLog(level, data, logger?)]: [...(logger && { logger })]. *)
Definition sendLog (level : string) (data : value) (logger : option string)
    : McpServer -> (unit + exn) * McpServer :=
  on_protocol
    (sendNotification "notifications/message"
       (VObj
          (Obj.spread [("level", VStr level); ("data", data)]
             match logger with
             | Some l => if truthy (VStr l) then [("logger", VStr l)] else []
             | None => []
             end))).

(** What can happen to a server: a message arrives, a provider is set, or
    the embedding code asks for a notification to be sent. *)
Inductive server_event : Type :=
| SrvReceive (m : obj)
| SrvSetResourceProvider (p : ResourceProvider)
| SrvSetToolProvider (p : ToolProvider)
| SrvSetPromptProvider (p : PromptProvider)
| SrvSetRootProvider (p : RootProvider)
| SrvSetLoggingProvider (p : LoggingProvider)
| SrvSetSamplingProvider (p : SamplingProvider)
| SrvNotifyResourceChanged (uri : string)
| SrvNotifyResourceListChanged
| SrvNotifyToolListChanged
| SrvNotifyPromptListChanged
| SrvNotifyRootListChanged
| SrvSendLog (level : string) (data : value) (logger : option string).

Definition server_step (ev : server_event) (srv : McpServer) : McpServer :=
  match ev with
  | SrvReceive m => (server_receive m srv).2
  | SrvSetResourceProvider p => setResourceProvider p srv
  | SrvSetToolProvider p => setToolProvider p srv
  | SrvSetPromptProvider p => setPromptProvider p srv
  | SrvSetRootProvider p => setRootProvider p srv
  | SrvSetLoggingProvider p => setLoggingProvider p srv
  | SrvSetSamplingProvider p => setSamplingProvider p srv
  | SrvNotifyResourceChanged uri => (notifyResourceChanged uri srv).2
  | SrvNotifyResourceListChanged => (notifyResourceListChanged srv).2
  | SrvNotifyToolListChanged => (notifyToolListChanged srv).2
  | SrvNotifyPromptListChanged => (notifyPromptListChanged srv).2
  | SrvNotifyRootListChanged => (notifyRootListChanged srv).2
  | SrvSendLog level data logger => (sendLog level data logger srv).2
  end.

Definition server_run (evs : list server_event) (srv : McpServer) : McpServer :=
  fold_left (fun s ev => server_step ev s) evs srv.

(** The handler table of the dispatcher is the one [setupHandlers]
    builds from the server's current providers. *)
Definition routed (srv : McpServer) : Prop :=
  exists base,
    requestHandlers (protocol srv) =
      requestHandlers (setupHandlers (runtime srv) (providers srv) base).

(** Two states have the same handler tables, transport and options. *)
Definition same_wiring (st st' : McpProtocol) : Prop :=
  requestHandlers st' = requestHandlers st /\
  notificationHandlers st' = notificationHandlers st /\
  transport st' = transport st /\
  options st' = options st.

Definition keeps_wiring {A} (f : Async A) : Prop :=
  forall st, same_wiring st (f st).2.

(** ** JavaScript [Map<string, V>] and [Set] *)

(** A [Map] keeps its entries in insertion order, one per key. *)
Module JsMap.
Section ops.
Context {V : Type}.

Fixpoint get (k : string) (m : list (string * V)) : option V :=
  match m with
  | [] => None
  | (k', v) :: rest => if String.eqb k k' then Some v else get k rest
  end.

Definition has (k : string) (m : list (string * V)) : bool :=
  match get k m with Some _ => true | None => false end.

(** [m.set(k, v)]: an existing key keeps its position. *)
Fixpoint set (k : string) (v : V) (m : list (string * V)) : list (string * V) :=
  match m with
  | [] => [(k, v)]
  | (k', v') :: rest =>
      if String.eqb k k' then (k, v) :: rest else (k', v') :: set k v rest
  end.

Definition delete (k : string) (m : list (string * V)) : list (string * V) :=
  List.filter (fun kv => negb (String.eqb k (fst kv))) m.

Definition keys (m : list (string * V)) : list string := map fst m.

Definition values (m : list (string * V)) : list V := map snd m.

Definition size (m : list (string * V)) : nat := length m.

End ops.
End JsMap.

(** A [Set] of function objects; a function object is identified by a
    number, and the members are kept in insertion order. *)
Module JsSet.

Definition has (x : nat) (s : list nat) : bool :=
  existsb (Nat.eqb x) s.

Definition add (x : nat) (s : list nat) : list nat :=
  if has x s then s else s ++ [x].

Definition delete (x : nat) (s : list nat) : list nat :=
  List.filter (fun y => negb (Nat.eqb x y)) s.

End JsSet.

(** ** resources/types.ts *)

Record McpResourceContents : Type := mkContents {
  c_uri : string;
  c_mimeType : option string;
  c_text : option string;
  c_blob : option string
}.

(** Contents objects are passed by reference: the provider writes into
    the object a handler returned and keeps that same object in its
    cache.  [Objects] is the store of the contents objects that exist; a
    reference is the index of its object, and a reference past the end
    of the store names no object. *)
Definition Objects : Type := list McpResourceContents.

(** The handler of a resource may read the clock; it gets the time of
    the call.  It returns a reference to a contents object, one it has
    just created or one that existed already, or throws; either way it
    leaves the store in some state. *)
Record ResourceDefinition : Type := mkResourceDefinition {
  rd_uri : string;
  rd_name : string;
  rd_description : option string;
  rd_mimeType : option string;
  rd_handler : Z -> Objects -> (nat + exn) * Objects;
  rd_metadata : option obj
}.

Record McpResource : Type := mkMcpResource {
  res_uri : string;
  res_name : string;
  res_description : option string;
  res_mimeType : option string
}.

Record ResourceOptions : Type := mkResourceOptions {
  opt_cache : option bool;
  opt_cacheTtl : option Z
}.

(** ** resources/registry.ts *)

Module DefaultResourceRegistry.

Record state : Type := mkState {
  resources : list (string * ResourceDefinition);
  subscriptions : list (string * list nat)
}.

Definition empty : state := mkState [] [].

Definition register (resource : ResourceDefinition) (reg : state) : state :=
  mkState (JsMap.set (rd_uri resource) resource (resources reg))
    (subscriptions reg).

Definition unregister (uri : string) (reg : state) : state :=
  mkState (JsMap.delete uri (resources reg))
    (JsMap.delete uri (subscriptions reg)).

Definition list_ (reg : state) : list McpResource :=
  map (fun resource =>
         mkMcpResource (rd_uri resource) (rd_name resource)
           (rd_description resource) (rd_mimeType resource))
    (JsMap.values (resources reg)).

Definition get (uri : string) (reg : state) : option ResourceDefinition :=
  JsMap.get uri (resources reg).

Definition has (uri : string) (reg : state) : bool :=
  JsMap.has uri (resources reg).

Definition clear (reg : state) : state := mkState [] [].

Definition subscribe (uri : string) (callback : nat) (reg : state) : state :=
  let subs :=
    if JsMap.has uri (subscriptions reg) then subscriptions reg
    else JsMap.set uri [] (subscriptions reg) in
  match JsMap.get uri subs with
  | Some callbacks =>
      mkState (resources reg) (JsMap.set uri (JsSet.add callback callbacks) subs)
  | None => mkState (resources reg) subs
  end.

Definition unsubscribe (uri : string) (callback : nat) (reg : state) : state :=
  match JsMap.get uri (subscriptions reg) with
  | Some callbacks =>
      let callbacks' := JsSet.delete callback callbacks in
      mkState (resources reg)
        (if Nat.eqb (length callbacks') 0
         then JsMap.delete uri (subscriptions reg)
         else JsMap.set uri callbacks' (subscriptions reg))
  | None => reg
  end.

(** [notifySubscribers]: the calls made, in order, and the lines written
    to [console.error]; [call] gives what calling a function object with
    the resource does. *)
Definition notifySubscribers (call : nat -> value -> option exn) (uri : string)
    (resource : value) (reg : state) : list nat * list (string * exn) :=
  match JsMap.get uri (subscriptions reg) with
  | Some callbacks =>
      (callbacks,
       flat_map
         (fun callback =>
            match call callback resource with
            | Some error =>
                [("Error in resource subscription callback for " +:+ uri +:+ ":",
                  error)]
            | None => []
            end) callbacks)
  | None => ([], [])
  end.

Definition size (reg : state) : nat := JsMap.size (resources reg).

Definition uris (reg : state) : list string := JsMap.keys (resources reg).

Definition getSubscriptionCount (uri : string) (reg : state) : nat :=
  match JsMap.get uri (subscriptions reg) with
  | Some callbacks => length callbacks
  | None => 0
  end.

(** The calls that change a registry. *)
Inductive op : Type :=
| Register (resource : ResourceDefinition)
| Unregister (uri : string)
| Clear
| Subscribe (uri : string) (callback : nat)
| Unsubscribe (uri : string) (callback : nat).

Definition apply (o : op) (reg : state) : state :=
  match o with
  | Register resource => register resource reg
  | Unregister uri => unregister uri reg
  | Clear => clear reg
  | Subscribe uri callback => subscribe uri callback reg
  | Unsubscribe uri callback => unsubscribe uri callback reg
  end.

Definition run (ops : list op) (reg : state) : state :=
  fold_left (fun r o => apply o r) ops reg.

End DefaultResourceRegistry.

(** ** resources/cache.ts *)

Module MemoryResourceCache.

(** The cache never looks into the contents it stores.  [C] is what a
    stored contents is for the caller: the fields of the object where its
    identity does not matter, a reference to the object where it does. *)
Section entries.
Context {C : Type}.

Record CacheEntry : Type := mkEntry {
  contents : C;
  expires : option Z
}.

Record state : Type := mkState {
  cache : list (string * CacheEntry);
  defaultTtl : Z
}.

(** [new MemoryResourceCache(defaultTtl = 300000)] *)
Definition new (ttl : option Z) : state :=
  mkState [] (match ttl with Some d => d | None => 300000 end).

(** [entry.expires && Date.now() > entry.expires] *)
Definition expired (now : Z) (entry : CacheEntry) : bool :=
  match expires entry with
  | Some e => negb (e =? 0)%Z && (e <? now)%Z
  | None => false
  end.

Definition get (now : Z) (uri : string) (c : state)
    : option C * state :=
  match JsMap.get uri (cache c) with
  | None => (None, c)
  | Some entry =>
      if expired now entry
      then (None, mkState (JsMap.delete uri (cache c)) (defaultTtl c))
      else (Some (contents entry), c)
  end.

Definition set (now : Z) (uri : string) (cts : C)
    (ttl : option Z) (c : state) : state :=
  let fallback :=
    if (0 <? defaultTtl c)%Z then Some (now + defaultTtl c) else None in
  let exp :=
    match ttl with
    | Some d => if (0 <? d)%Z then Some (now + d) else fallback
    | None => fallback
    end in
  mkState (JsMap.set uri (mkEntry cts exp) (cache c)) (defaultTtl c).

Definition delete (uri : string) (c : state) : state :=
  mkState (JsMap.delete uri (cache c)) (defaultTtl c).

Definition clear (c : state) : state := mkState [] (defaultTtl c).

Definition has (now : Z) (uri : string) (c : state) : bool * state :=
  match JsMap.get uri (cache c) with
  | None => (false, c)
  | Some entry =>
      if expired now entry
      then (false, mkState (JsMap.delete uri (cache c)) (defaultTtl c))
      else (true, c)
  end.

Definition size (c : state) : nat := JsMap.size (cache c).

Definition cleanup (now : Z) (c : state) : state :=
  mkState (List.filter (fun kv => negb (expired now (snd kv))) (cache c))
    (defaultTtl c).

Definition setDefaultTtl (ttl : Z) (c : state) : state :=
  mkState (cache c) ttl.

End entries.

End MemoryResourceCache.

(** ** resources/provider.ts *)

Module McpResourceProvider.

(** [objects] holds the contents objects that exist: the part of the
    heap that the handlers, the cache and the callers of [readResource]
    share. *)
Record state : Type := mkState {
  registry : DefaultResourceRegistry.state;
  cache : option (@MemoryResourceCache.state nat);
  subscriptions : list (string * list nat);
  objects : Objects
}.

(** [new McpResourceProvider(undefined, cache)] *)
Definition new (c : option (@MemoryResourceCache.state nat)) : state :=
  mkState DefaultResourceRegistry.empty c [] [].

Definition listResources (p : state) : list McpResource :=
  DefaultResourceRegistry.list_ (registry p).

(** [if (contents.uri !== uri) contents.uri = uri]: a write into the
    object itself, seen through every reference to it. *)
Definition assign_uri (uri : string) (contents : nat) (s : Objects) : Objects :=
  match s !! contents with
  | Some cts =>
      if String.eqb (c_uri cts) uri then s
      else <[contents := mkContents uri (c_mimeType cts) (c_text cts) (c_blob cts)]> s
  | None => s
  end.

(** [now] is the clock when the cache is consulted and the handler is
    called, [later] the clock when the result is stored.  The result is
    a reference: the object the handler returned, which is also the
    object put into the cache.  A reference that names no object stands
    for a handler that returned [undefined]: reading [contents.uri]
    throws inside the [try]. *)
Definition readResource (now later : Z) (uri : string) (p : state)
    : (nat + exn) * state :=
  let lookup :=
    match cache p with
    | Some c =>
        match MemoryResourceCache.get now uri c with
        | (cached, c') => (cached, Some c')
        end
    | None => (None, None)
    end in
  match lookup with
  | (Some cached, c') =>
      (inl cached, mkState (registry p) c' (subscriptions p) (objects p))
  | (None, c') =>
      match DefaultResourceRegistry.get uri (registry p) with
      | None =>
          (inr (EMcp (ResourceNotFoundError uri VUndefined)),
           mkState (registry p) c' (subscriptions p) (objects p))
      | Some resource =>
          match rd_handler resource now (objects p) with
          | (inl contents, s) =>
              match s !! contents with
              | Some _ =>
                  (inl contents,
                   mkState (registry p)
                     (option_map
                        (MemoryResourceCache.set later uri contents None) c')
                     (subscriptions p) (assign_uri uri contents s))
              | None =>
                  (inr (EMcp (InvalidParamsError
                                ("Error reading resource " +:+ uri +:+ ": "
                                   +:+ "Cannot read properties of undefined (reading 'uri')")
                                VUndefined)),
                   mkState (registry p) c' (subscriptions p) s)
              end
          | (inr error, s) =>
              (inr (EMcp (InvalidParamsError
                            ("Error reading resource " +:+ uri +:+ ": "
                               +:+ describe error) VUndefined)),
               mkState (registry p) c' (subscriptions p) s)
          end
      end
  end.

Definition subscribeToResource (uri : string) (p : state) : option exn * state :=
  if DefaultResourceRegistry.has uri (registry p) then
    (None,
     mkState (registry p) (cache p)
       (if JsMap.has uri (subscriptions p) then subscriptions p
        else JsMap.set uri [] (subscriptions p))
       (objects p))
  else (Some (EMcp (ResourceNotFoundError uri VUndefined)), p).

Definition unsubscribeFromResource (uri : string) (p : state) : state :=
  mkState (registry p) (cache p) (JsMap.delete uri (subscriptions p)) (objects p).

(** [valid_url uri] tells whether [new URL(uri)] succeeds. *)
Definition validateResourceUri (valid_url : string -> bool) (uri : string)
    : option exn :=
  if String.eqb uri "" then
    Some (EMcp (InvalidParamsError "Resource URI must be a non-empty string" VUndefined))
  else if valid_url uri then None
  else Some (EMcp (InvalidParamsError ("Invalid resource URI format: " +:+ uri)
                     VUndefined)).

Definition registerResource (valid_url : string -> bool)
    (resource : ResourceDefinition) (options : ResourceOptions) (p : state)
    : option exn * state :=
  match validateResourceUri valid_url (rd_uri resource) with
  | Some error => (Some error, p)
  | None =>
      (None,
       mkState (DefaultResourceRegistry.register resource (registry p))
         match opt_cache options, cache p with
         | Some true, None => Some (MemoryResourceCache.new (opt_cacheTtl options))
         | _, c => c
         end
         (subscriptions p) (objects p))
  end.

Definition unregisterResource (uri : string) (p : state) : state :=
  mkState (DefaultResourceRegistry.unregister uri (registry p))
    (option_map (MemoryResourceCache.delete uri) (cache p))
    (JsMap.delete uri (subscriptions p)) (objects p).

Definition hasResource (uri : string) (p : state) : bool :=
  DefaultResourceRegistry.has uri (registry p).

Definition clear (p : state) : state :=
  mkState (DefaultResourceRegistry.clear (registry p))
    (option_map MemoryResourceCache.clear (cache p)) [] (objects p).

(** The cached contents are dropped only when the uri is subscribed. *)
Definition notifyResourceChanged (call : nat -> option exn) (uri : string)
    (p : state) : list (string * exn) * state :=
  match JsMap.get uri (subscriptions p) with
  | Some callbacks =>
      (flat_map
         (fun callback =>
            match call callback with
            | Some error =>
                [("Error in resource change callback for " +:+ uri +:+ ":", error)]
            | None => []
            end) callbacks,
       mkState (registry p)
         (option_map (MemoryResourceCache.delete uri) (cache p))
         (subscriptions p) (objects p))
  | None => ([], p)
  end.

(** The handlers of the [create...Resource] helpers build a new object
    on every call. *)
Definition createStaticResource (uri name content : string)
    (mimeType : option string) (description : option string) : ResourceDefinition :=
  let mime := match mimeType with Some mt => mt | None => "text/plain" end in
  mkResourceDefinition uri name description (Some mime)
    (fun _ s =>
       (inl (length s), s ++ [mkContents uri (Some mime) (Some content) None]))
    None.

Definition createBinaryResource (uri name data mimeType : string)
    (description : option string) : ResourceDefinition :=
  mkResourceDefinition uri name description (Some mimeType)
    (fun _ s =>
       (inl (length s), s ++ [mkContents uri (Some mimeType) None (Some data)]))
    None.

End McpResourceProvider.

(** ** Vocabulary for statements about the resource slice *)

(** The callback is a member of the set stored for the uri. *)
Definition subscribed (uri : string) (callback : nat)
    (reg : DefaultResourceRegistry.state) : bool :=
  match JsMap.get uri (DefaultResourceRegistry.subscriptions reg) with
  | Some callbacks => JsSet.has callback callbacks
  | None => false
  end.

(** The time to live that [MemoryResourceCache.set] applies: the given
    one when it is positive, else the default when that is positive, else
    none. *)
Definition ttl_used {C : Type} (ttl : option Z) (c : @MemoryResourceCache.state C)
    : option Z :=
  let fallback :=
    if (0 <? MemoryResourceCache.defaultTtl c)%Z
    then Some (MemoryResourceCache.defaultTtl c) else None in
  match ttl with
  | Some d => if (0 <? d)%Z then Some d else fallback
  | None => fallback
  end.

(** The calls that change a cache. *)
Inductive cache_op : Type :=
| CacheGet (now : Z) (uri : string)
| CacheSet (now : Z) (uri : string) (cts : McpResourceContents) (ttl : option Z)
| CacheDelete (uri : string)
| CacheClear
| CacheHas (now : Z) (uri : string)
| CacheCleanup (now : Z)
| CacheSetDefaultTtl (ttl : Z).

Definition cache_apply (o : cache_op) (c : MemoryResourceCache.state)
    : MemoryResourceCache.state :=
  match o with
  | CacheGet now uri => (MemoryResourceCache.get now uri c).2
  | CacheSet now uri cts ttl => MemoryResourceCache.set now uri cts ttl c
  | CacheDelete uri => MemoryResourceCache.delete uri c
  | CacheClear => MemoryResourceCache.clear c
  | CacheHas now uri => (MemoryResourceCache.has now uri c).2
  | CacheCleanup now => MemoryResourceCache.cleanup now c
  | CacheSetDefaultTtl ttl => MemoryResourceCache.setDefaultTtl ttl c
  end.

Definition cache_run (ops : list cache_op) (c : MemoryResourceCache.state)
    : MemoryResourceCache.state :=
  fold_left (fun s o => cache_apply o s) ops c.

(** What can happen to a provider and to the contents objects it
    shares: a call of one of its methods, or a write into a contents
    object by whoever holds a reference to it (a caller of
    [readResource], a handler's closure). *)
Inductive provider_op : Type :=
| ProviderRead (now later : Z) (uri : string)
| ProviderSubscribe (uri : string)
| ProviderUnsubscribe (uri : string)
| ProviderRegister (valid_url : string -> bool) (resource : ResourceDefinition)
    (options : ResourceOptions)
| ProviderUnregister (uri : string)
| ProviderClear
| ProviderNotify (call : nat -> option exn) (uri : string)
| ProviderWrite (contents : nat) (cts : McpResourceContents).

Definition provider_apply (o : provider_op) (p : McpResourceProvider.state)
    : McpResourceProvider.state :=
  match o with
  | ProviderRead now later uri => (McpResourceProvider.readResource now later uri p).2
  | ProviderSubscribe uri => (McpResourceProvider.subscribeToResource uri p).2
  | ProviderUnsubscribe uri => McpResourceProvider.unsubscribeFromResource uri p
  | ProviderRegister valid_url resource options =>
      (McpResourceProvider.registerResource valid_url resource options p).2
  | ProviderUnregister uri => McpResourceProvider.unregisterResource uri p
  | ProviderClear => McpResourceProvider.clear p
  | ProviderNotify call uri => (McpResourceProvider.notifyResourceChanged call uri p).2
  | ProviderWrite contents cts =>
      McpResourceProvider.mkState (McpResourceProvider.registry p)
        (McpResourceProvider.cache p) (McpResourceProvider.subscriptions p)
        (<[contents := cts]> (McpResourceProvider.objects p))
  end.

Definition provider_run (ops : list provider_op) (p : McpResourceProvider.state)
    : McpResourceProvider.state :=
  fold_left (fun q o => provider_apply o q) ops p.




(** Every resource is stored under its own uri, no uri and no
    subscription key occurs twice, and every stored set of callbacks is
    non-empty and without repetition. *)
Definition registry_wf (reg : DefaultResourceRegistry.state) : Prop :=
  List.NoDup (JsMap.keys (DefaultResourceRegistry.resources reg)) /\
  List.Forall (fun kv => rd_uri (snd kv) = fst kv)
    (DefaultResourceRegistry.resources reg) /\
  List.NoDup (JsMap.keys (DefaultResourceRegistry.subscriptions reg)) /\
  List.Forall (fun kv => List.NoDup (snd kv) /\ snd kv <> [])
    (DefaultResourceRegistry.subscriptions reg).

(** ** Messages as the transports carry them *)

(** Every transport writes [JSON.stringify(message)] and gives
    [JSON.parse(text)] to the dispatcher, unchecked (stdio.ts [send] and
    [handleIncomingMessage], http.ts, lambda/transport.ts).
    [json_roundtrip v] is [JSON.parse(JSON.stringify(v))]:
    [JSON.stringify] leaves a property whose value is [undefined] out of
    its object and writes [null] for an [undefined] element of an array.
    An absent value stays absent. *)
Fixpoint json_roundtrip (v : value) : value :=
  match v with
  | VArr items =>
      VArr (map (fun x =>
                   match x with
                   | VUndefined => VNull
                   | _ => json_roundtrip x
                   end) items)
  | VObj props =>
      VObj ((fix fields (ps : list (string * value)) : list (string * value) :=
               match ps with
               | [] => []
               | (k, x) :: rest =>
                   match x with
                   | VUndefined => fields rest
                   | _ => (k, json_roundtrip x) :: fields rest
                   end
               end) props)
  | _ => v
  end.

(** What the peer's transport decodes from a message this side sent. *)
Definition wire (m : obj) : obj :=
  match json_roundtrip (VObj m) with
  | VObj props => props
  | _ => m
  end.

(** The own properties of an array: its indices and [length]. *)
Definition array_props (items : list value) : obj :=
  imap (fun i x => (pretty i, x)) items
    ++ [("length", VNum (Z.of_nat (length items)))].

(** The properties [k in message] ranges over; [None] for a value that is
    not an object, on which [in] throws a [TypeError]. *)
Definition own_properties (message : value) : option obj :=
  match message with
  | VObj m => Some m
  | VArr items => Some (array_props items)
  | _ => None
  end.

(** The [TypeError] of [k in message] for a [message] that is not an
    object, with the message Node.js gives it; [text message] is the
    rendering of the operand in that message. *)
Definition in_TypeError (text : value -> string) (k : string) (message : value)
    : exn :=
  EError ("Cannot use 'in' operator to search for '" +:+ k +:+ "' in "
            +:+ text message).

(** [handleMessage] on whatever the transport decoded.  On a value that
    is not an object, ['id' in message] throws in [isRequest]; the
    [catch] calls [handleMessageError], where the [TypeError] is neither a
    [ZodError] nor an [McpError], and the last branch evaluates
    ['id' in message] again before anything is sent: that second
    [TypeError] is what [handleMessage] throws. *)
Definition handleMessage_decoded (text : value -> string) (message : value)
    : Async unit :=
  match own_properties message with
  | Some m => handleMessage m
  | None => throw (in_TypeError text "id" message)
  end.

(** The event is a call of [setToolProvider]. *)
Definition sets_tool_provider (ev : server_event) : bool :=
  match ev with
  | SrvSetToolProvider _ => true
  | _ => false
  end.

(** * Properties *)

(** ** Objects *)

Lemma has_true_get k o : Obj.has k o = true <-> exists v, Obj.get k o = Some v.
Proof.
  unfold Obj.has. destruct (Obj.get k o); split; intros H;
    try discriminate; eauto. destruct H as [? H]. discriminate.
Qed.

Lemma has_false_get k o : Obj.has k o = false <-> Obj.get k o = None.
Proof. unfold Obj.has. destruct (Obj.get k o); split; congruence. Qed.

Lemma get_set_eq k v o : Obj.get k (Obj.set k v o) = Some v.
Proof.
  induction o as [|[k' v'] o IH]; simpl.
  - by rewrite String.eqb_refl.
  - destruct (String.eqb k k') eqn:E; simpl.
    + by rewrite String.eqb_refl.
    + by rewrite E.
Qed.

Lemma get_set_ne k k' v o : k <> k' -> Obj.get k' (Obj.set k v o) = Obj.get k' o.
Proof.
  intros Hne. induction o as [|[k0 v0] o IH]; simpl.
  - destruct (String.eqb k' k) eqn:E; [|done].
    apply String.eqb_eq in E. congruence.
  - destruct (String.eqb k k0) eqn:E; simpl.
    + apply String.eqb_eq in E. subst k0.
      destruct (String.eqb k' k) eqn:E'; [|done].
      apply String.eqb_eq in E'. congruence.
    + by rewrite IH.
Qed.

(** A property of [{...target, ...src}] is the one of [src] when [src]
    has it, and the one of [target] otherwise. *)
Lemma get_spread k target src :
  NoDup (Obj.keys src) ->
  Obj.get k (Obj.spread target src) =
    match Obj.get k src with
    | Some v => Some v
    | None => Obj.get k target
    end.
Proof.
  unfold Obj.spread, Obj.keys.
  revert target. induction src as [|[k0 v0] src IH]; intros target Hnd; simpl.
  - done.
  - inversion Hnd as [|? ? Hnotin Hnd']; subst.
    rewrite IH by done.
    destruct (String.eqb k k0) eqn:E.
    + apply String.eqb_eq in E. subst k0.
      destruct (Obj.get k src) eqn:G.
      * exfalso. apply Hnotin. clear -G.
        induction src as [|[k1 v1] src IH]; simpl in *; [done|].
        destruct (String.eqb k k1) eqn:E.
        -- apply String.eqb_eq in E. subst. left.
        -- right. auto.
      * apply get_set_eq.
    + destruct (Obj.get k src); [done|].
      apply get_set_ne. intros ->. by rewrite String.eqb_refl in E.
Qed.

(** ** Schemas *)

Lemma ap_inl {A B} (f : Zod.res (A -> B)) (x : Zod.res A) (b : B) :
  f <*> x = inl b -> exists g a, f = inl g /\ x = inl a /\ b = g a.
Proof.
  destruct f as [g|], x as [a|]; simpl; intros H; try discriminate.
  injection H as <-. eauto.
Qed.

Lemma literal_inl l path v u : Zod.literal l path v = inl u -> v = VStr l.
Proof.
  destruct v as [| | | |s| |]; simpl; try discriminate.
  destruct (String.eqb s l) eqn:E; [|discriminate].
  apply String.eqb_eq in E. by subst.
Qed.

Lemma string_inl path v s : Zod.string_ path v = inl s -> v = VStr s.
Proof. destruct v; simpl; try discriminate. by intros [= ->]. Qed.

Lemma number_inl path v n : Zod.number_ path v = inl n -> v = VNum n.
Proof. destruct v; simpl; try discriminate. by intros [= ->]. Qed.

Lemma zId_inl path v i : zId path v = inl i -> v = id_value i.
Proof. destruct v; simpl; try discriminate; by intros [= <-]. Qed.

Lemma zIdOrNull_inl path v i : zIdOrNull path v = inl i -> v = opt_id_value i.
Proof. destruct v; simpl; try discriminate; by intros [= <-]. Qed.

Lemma finish_inl {A} (r : Zod.res A) (a : A) : Zod.finish r = inl a -> r = inl a.
Proof. destruct r; simpl; [by intros [= ->]|discriminate]. Qed.

Lemma zErrorObject_inl o e :
  zErrorObject o = inl e ->
  Obj.prop "code" o = VNum (err_code e) /\
  Obj.prop "message" o = VStr (err_message e) /\
  Obj.prop "data" o = err_data e.
Proof.
  unfold zErrorObject. intros H.
  apply ap_inl in H as (g2 & d & H & Hd & ->).
  apply ap_inl in H as (g1 & msg & H & Hm & ->).
  apply ap_inl in H as (g0 & c & H & Hc & ->).
  injection H as <-. simpl.
  apply number_inl in Hc. apply string_inl in Hm.
  unfold Zod.field, Zod.unknown_optional in Hd. injection Hd as <-. auto.
Qed.

Lemma request_schema_fields m r :
  JsonRpcRequestSchema m = inl r ->
  Obj.prop "jsonrpc" m = VStr "2.0" /\
  Obj.prop "id" m = id_value (req_id r) /\
  Obj.prop "method" m = VStr (req_method r) /\
  Obj.prop "params" m = req_params r.
Proof.
  unfold JsonRpcRequestSchema. intros H. apply finish_inl in H.
  apply ap_inl in H as (g3 & ps & H & Hp & ->).
  apply ap_inl in H as (g2 & meth & H & Hm & ->).
  apply ap_inl in H as (g1 & i & H & Hi & ->).
  apply ap_inl in H as (g0 & u & H & Hj & ->).
  injection H as <-. simpl.
  apply literal_inl in Hj. apply zId_inl in Hi. apply string_inl in Hm.
  unfold Zod.field, Zod.unknown_optional in Hp. injection Hp as <-. auto.
Qed.

Lemma notification_schema_fields m n :
  JsonRpcNotificationSchema m = inl n ->
  Obj.prop "jsonrpc" m = VStr "2.0" /\
  Obj.prop "method" m = VStr (notif_method n) /\
  Obj.prop "params" m = notif_params n.
Proof.
  unfold JsonRpcNotificationSchema. intros H. apply finish_inl in H.
  apply ap_inl in H as (g2 & ps & H & Hp & ->).
  apply ap_inl in H as (g1 & meth & H & Hm & ->).
  apply ap_inl in H as (g0 & u & H & Hj & ->).
  injection H as <-. simpl.
  apply literal_inl in Hj. apply string_inl in Hm.
  unfold Zod.field, Zod.unknown_optional in Hp. injection Hp as <-. auto.
Qed.

Lemma response_schema_fields m r :
  JsonRpcResponseSchema m = inl r ->
  Obj.prop "jsonrpc" m = VStr "2.0" /\
  Obj.prop "id" m = opt_id_value (resp_id r) /\
  Obj.prop "result" m = resp_result r /\
  match resp_error r with
  | None => Obj.prop "error" m = VUndefined
  | Some e =>
      exists eo,
        Obj.prop "error" m = VObj eo /\
        Obj.prop "code" eo = VNum (err_code e) /\
        Obj.prop "message" eo = VStr (err_message e) /\
        Obj.prop "data" eo = err_data e
  end.
Proof.
  unfold JsonRpcResponseSchema. intros H. apply finish_inl in H.
  apply ap_inl in H as (g3 & err & H & He & ->).
  apply ap_inl in H as (g2 & res & H & Hr & ->).
  apply ap_inl in H as (g1 & i & H & Hi & ->).
  apply ap_inl in H as (g0 & u & H & Hj & ->).
  injection H as <-. simpl.
  apply literal_inl in Hj. apply zIdOrNull_inl in Hi.
  unfold Zod.field, Zod.unknown_optional in Hr. injection Hr as <-.
  repeat split; try done.
  unfold Zod.field, Zod.optional, Zod.object in He.
  destruct (Obj.prop "error" m) as [| | | | | |eo]; simplify_eq; try done.
  destruct (zErrorObject eo) as [e|] eqn:E; simplify_eq.
  exists eo. split; [done|]. by apply zErrorObject_inl.
Qed.

(** ** The send primitives *)

Lemma transport_send_reliable m st :
  reliable st ->
  transport_send m st = (inl tt, with_sentMessages (sentMessages st ++ [m]) st).
Proof. intros H. unfold transport_send. by rewrite H. Qed.

Lemma sendErrorResponse_reliable id e st :
  reliable st ->
  sendErrorResponse id e st =
    (inl tt, with_sentMessages (sentMessages st ++ [error_envelope id e]) st).
Proof. intros H. unfold sendErrorResponse. by rewrite transport_send_reliable. Qed.

Lemma sendResponse_reliable id v st :
  reliable st ->
  sendResponse id v st =
    (inl tt,
     with_sentMessages
       (sentMessages st ++
          [[("jsonrpc", VStr "2.0"); ("id", id_value id); ("result", v)]]) st).
Proof. intros H. unfold sendResponse. by rewrite transport_send_reliable. Qed.

Lemma nullish_id_value i : nullish_to_null (id_value i) = id_value i.
Proof. by destruct i. Qed.

Lemma toJsonRpcError_no_result e : Obj.has "result" (toJsonRpcError e) = false.
Proof. unfold toJsonRpcError. by destruct (truthy (data e)). Qed.

(** [processMessage] on a message that passes its checks. *)
Lemma processMessage_request m r :
  isRequest m = true -> JsonRpcRequestSchema m = inl r ->
  processMessage m = handleRequest r.
Proof. intros Hc Hs. unfold processMessage. by rewrite Hc, Hs. Qed.

Lemma processMessage_response m r st :
  isRequest m = false -> isResponse m = true ->
  JsonRpcResponseSchema m = inl r ->
  processMessage m st = (inl tt, handleResponse r st).
Proof. intros Hq Hc Hs. unfold processMessage. by rewrite Hq, Hc, Hs. Qed.

Lemma isNotification_exclusive m :
  isNotification m = true -> isRequest m = false /\ isResponse m = false.
Proof.
  unfold isNotification, isRequest, isResponse.
  destruct (Obj.has "id" m), (Obj.has "method" m); simpl; auto; discriminate.
Qed.

Lemma processMessage_notification m n :
  isNotification m = true -> JsonRpcNotificationSchema m = inl n ->
  processMessage m = handleNotification n.
Proof.
  intros Hc Hs. destruct (isNotification_exclusive m Hc) as [Hq Hr].
  unfold processMessage. by rewrite Hq, Hr, Hc, Hs.
Qed.

(** [processMessage] on a message that fails them: nothing has been done
    when the failure is thrown. *)
Lemma processMessage_schema_failure m z st :
  validate m = SchemaFailure z -> processMessage m st = (inr (EZod z), st).
Proof.
  unfold validate, processMessage.
  destruct (isRequest m).
  { destruct (JsonRpcRequestSchema m); intros; by simplify_eq. }
  destruct (isResponse m).
  { destruct (JsonRpcResponseSchema m); intros; by simplify_eq. }
  destruct (isNotification m); [|done].
  destruct (JsonRpcNotificationSchema m); intros; by simplify_eq.
Qed.

Lemma processMessage_unclassified m st :
  validate m = Unclassified ->
  processMessage m st =
    (inr (EMcp (InvalidRequestError "Invalid message format" VUndefined)), st).
Proof.
  unfold validate, processMessage.
  destruct (isRequest m).
  { destruct (JsonRpcRequestSchema m); intros; by simplify_eq. }
  destruct (isResponse m).
  { destruct (JsonRpcResponseSchema m); intros; by simplify_eq. }
  destruct (isNotification m); [|done].
  destruct (JsonRpcNotificationSchema m); intros; by simplify_eq.
Qed.

Lemma handleMessage_schema_failure m z st :
  reliable st ->
  validate m = SchemaFailure z ->
  handleMessage m st =
    (inl tt,
     with_sentMessages
       (sentMessages st ++
          [error_envelope VNull
             (ParseError "Invalid JSON-RPC message" (zod_value z))]) st).
Proof.
  intros Hok Hv. unfold handleMessage, try_catch.
  rewrite (processMessage_schema_failure _ _ _ Hv). simpl.
  by apply sendErrorResponse_reliable.
Qed.

Lemma handleMessage_unclassified m st :
  reliable st ->
  validate m = Unclassified ->
  handleMessage m st =
    (inl tt,
     with_sentMessages
       (sentMessages st ++
          [error_envelope (message_id_or_null m)
             (InvalidRequestError "Invalid message format" VUndefined)]) st).
Proof.
  intros Hok Hv. unfold handleMessage, try_catch.
  rewrite (processMessage_unclassified _ _ Hv). simpl.
  by apply sendErrorResponse_reliable.
Qed.

Lemma has_get_prop k o : Obj.has k o = true -> Obj.get k o = Some (Obj.prop k o).
Proof. unfold Obj.has, Obj.prop. by destruct (Obj.get k o). Qed.

Lemma handleRequest_reliable r h st :
  reliable st ->
  requestHandlers st !! req_method r = Some h ->
  handleRequest r st =
    (inl tt,
     with_sentMessages
       (sentMessages st ++
          [match h (req_params r) (req_id r) with
           | inl result =>
               [("jsonrpc", VStr "2.0"); ("id", id_value (req_id r));
                ("result", result)]
           | inr (EMcp e) => error_envelope (id_value (req_id r)) e
           | inr error => error_envelope (id_value (req_id r)) (internal_error error)
           end]) st).
Proof.
  intros Hok Hh. unfold handleRequest, try_catch. rewrite Hh.
  destruct (h (req_params r) (req_id r)) as [result|error].
  - by rewrite sendResponse_reliable.
  - unfold throw. destruct error; by rewrite sendErrorResponse_reliable.
Qed.

(** ** The claims about inbound messages *)

(** What [handleRequest] hands to [transport.send] for a schema-valid
    Request whose method has a registered handler: exactly one object,
    with the id of the Request, and with a [result] property (holding
    [undefined] when the handler returned nothing) or an [error]
    property, not both.  What the peer receives is the wire form of that
    object; see [response_on_the_wire]. *)
Lemma handled_request_writes_one_envelope (st : McpProtocol) (m : obj)
    (r : JsonRpcRequest) (h : MessageHandler) :
  reliable st ->
  isRequest m = true ->
  JsonRpcRequestSchema m = inl r ->
  requestHandlers st !! req_method r = Some h ->
  exists resp,
    handleMessage m st =
      (inl tt, with_sentMessages (sentMessages st ++ [resp]) st) /\
    Obj.get "id" resp = Obj.get "id" m /\
    xorb (Obj.has "result" resp) (Obj.has "error" resp) = true.
Proof.
  intros Hok Hc Hs Hh.
  assert (Hid : Obj.get "id" m = Some (id_value (req_id r))).
  { apply andb_prop in Hc as [Hc _]. rewrite (has_get_prop _ _ Hc).
    by destruct (request_schema_fields _ _ Hs) as (_ & -> & _). }
  unfold handleMessage, try_catch.
  rewrite (processMessage_request _ _ Hc Hs).
  rewrite (handleRequest_reliable _ _ _ Hok Hh).
  eexists. split; [reflexivity|]. rewrite Hid.
  destruct (h (req_params r) (req_id r)) as [result|error].
  - by split.
  - assert (Henv : forall e : McpError,
       Obj.get "id" (error_envelope (id_value (req_id r)) e)
         = Some (id_value (req_id r)) /\
       xorb (Obj.has "result" (error_envelope (id_value (req_id r)) e))
            (Obj.has "error" (error_envelope (id_value (req_id r)) e)) = true).
    { intros e. unfold error_envelope. rewrite nullish_id_value. by split. }
    destruct error; apply Henv.
Qed.

(** ** The wire form of what the dispatcher sends *)

Lemma wire_request_envelope i method params :
  wire (request_envelope i method params)
    = request_envelope i method (json_roundtrip params).
Proof. by destruct params. Qed.

Lemma wire_toJsonRpcError e :
  wire (toJsonRpcError e) =
    [("code", VNum (code e)); ("message", VStr (message e))]
      ++ (if truthy (data e) then [("data", json_roundtrip (data e))] else []).
Proof.
  unfold toJsonRpcError. destruct (truthy (data e)) eqn:E; [|done].
  by destruct (data e).
Qed.

Lemma wire_response_envelope id r :
  wire (response_envelope id r) =
    [("jsonrpc", VStr "2.0"); ("id", id_value id)]
      ++ match r with
         | inl VUndefined => []
         | inl result => [("result", json_roundtrip result)]
         | inr error =>
             [("error", VObj (wire (toJsonRpcError (handler_failure error))))]
         end.
Proof.
  destruct r as [result|error].
  - by destruct result, id.
  - unfold response_envelope, error_envelope.
    by destruct id.
Qed.

(** The Response as the peer decodes it: it carries the id of the
    Request; it has an [error] and no [result] when the handler failed,
    a [result] and no [error] when the handler returned a value, and
    neither when the handler returned [undefined]. *)
Lemma response_on_the_wire id r :
  Obj.get "id" (wire (response_envelope id r)) = Some (id_value id) /\
  Obj.has "result" (wire (response_envelope id r)) =
    match r with inl VUndefined => false | inl _ => true | inr _ => false end /\
  Obj.has "error" (wire (response_envelope id r)) =
    match r with inl _ => false | inr _ => true end.
Proof.
  rewrite wire_response_envelope. destruct r as [result|error].
  - by destruct result.
  - done.
Qed.

(** A Response without [result] and without [error] is, for the
    dispatcher that receives it, none of the three kinds of message. *)
Lemma bare_response_unclassified id :
  validate [("jsonrpc", VStr "2.0"); ("id", id_value id)] = Unclassified.
Proof. by destruct id. Qed.

Lemma wire_response_parses id r :
  r <> inl VUndefined ->
  isRequest (wire (response_envelope id r)) = false /\
  isResponse (wire (response_envelope id r)) = true /\
  JsonRpcResponseSchema (wire (response_envelope id r)) =
    inl (mkResponse (Some id)
           match r with inl result => json_roundtrip result | inr _ => VUndefined end
           match r with
           | inl _ => None
           | inr error =>
               Some (mkErrorObject
                       (code (handler_failure error))
                       (message (handler_failure error))
                       (if truthy (data (handler_failure error))
                        then json_roundtrip (data (handler_failure error))
                        else VUndefined))
           end).
Proof.
  intros Hr. rewrite wire_response_envelope.
  destruct r as [result|error].
  - destruct result; try done; by destruct id.
  - rewrite wire_toJsonRpcError.
    destruct (truthy (data (handler_failure error))), id; by repeat split.
Qed.

(** C2: evaluation of the code where it departs from the claim.  The
    server binds [logging/setLevel] to a handler that returns nothing.
    With a logging provider set, a schema-valid [logging/setLevel]
    Request makes the dispatcher hand one envelope to the transport, whose
    [result] holds [undefined]; [JSON.stringify] leaves that property
    out, so the Response on the wire has the id of the Request and
    neither a [result] nor an [error], and a dispatcher that receives it
    does not take it for a Response.  The same holds for any registered
    handler that returns [undefined]. *)
Theorem void_handler_response_has_no_result :
  validate
    [("jsonrpc", VStr "2.0"); ("id", VNum 4);
     ("method", VStr "logging/setLevel");
     ("params", VObj [("level", VStr "debug")])] = Valid /\
  sentMessages
    (protocol
       (server_receive
          [("jsonrpc", VStr "2.0"); ("id", VNum 4);
           ("method", VStr "logging/setLevel");
           ("params", VObj [("level", VStr "debug")])]
          (setLoggingProvider (mkLoggingProvider (fun _ => None))
             (new_McpServer Sample.rt Sample.accepting Sample.opts))).2) =
    [[("jsonrpc", VStr "2.0"); ("id", VNum 4); ("result", VUndefined)]] /\
  wire [("jsonrpc", VStr "2.0"); ("id", VNum 4); ("result", VUndefined)] =
    [("jsonrpc", VStr "2.0"); ("id", VNum 4)] /\
  Obj.has "result" [("jsonrpc", VStr "2.0"); ("id", VNum 4)] = false /\
  Obj.has "error" [("jsonrpc", VStr "2.0"); ("id", VNum 4)] = false /\
  validate [("jsonrpc", VStr "2.0"); ("id", VNum 4)] = Unclassified /\
  map wire
    (sentMessages
       (handleMessage
          [("jsonrpc", VStr "2.0"); ("id", VNum 2); ("method", VStr "custom/method")]
          (onRequest "custom/method" (fun _ _ => inl VUndefined) Sample.fresh)).2) =
    [[("jsonrpc", VStr "2.0"); ("id", VNum 2)]].
Proof. repeat split. Qed.

(** C6: a schema-valid inbound Response whose id has no pending entry
    leaves the whole dispatcher state untouched: nothing is thrown,
    nothing is sent, and the pending table and every promise stay as they
    were. *)
Theorem unmatched_response_ignored (st : McpProtocol) (m : obj)
    (r : JsonRpcResponse) :
  isRequest m = false ->
  isResponse m = true ->
  JsonRpcResponseSchema m = inl r ->
  (resp_id r ≫= fun i => pendingRequests st !! i) = None ->
  handleMessage m st = (inl tt, st).
Proof.
  intros Hq Hc Hs Hp. unfold handleMessage, try_catch.
  rewrite (processMessage_response _ _ _ Hq Hc Hs).
  unfold handleResponse. destruct (resp_id r) as [i|]; [|done].
  simpl in Hp. by rewrite Hp.
Qed.

Lemma unmatched_response_ignored_witness :
  handleMessage [("jsonrpc", VStr "2.0"); ("id", VNum 99); ("result", VNum 5)]
    Sample.fresh = (inl tt, Sample.fresh).
Proof.
  apply (unmatched_response_ignored Sample.fresh _
           (mkResponse (Some (IdNum 99)) (VNum 5) None));
    vm_compute; reflexivity.
Defined.

(** C9: a schema-valid inbound Notification never makes the dispatcher
    send anything, with or without a registered handler and also when the
    handler fails; the only trace of a handler failure is one line on
    [console.error]. *)
Theorem notification_never_answered (st : McpProtocol) (m : obj)
    (n : JsonRpcNotification) :
  isNotification m = true ->
  JsonRpcNotificationSchema m = inl n ->
  (handleMessage m st).1 = inl tt /\
  sentMessages (handleMessage m st).2 = sentMessages st /\
  pendingRequests (handleMessage m st).2 = pendingRequests st /\
  promises (handleMessage m st).2 = promises st /\
  console (handleMessage m st).2 =
    console st ++
      match notificationHandlers st !! notif_method n
              ≫= (fun handler => handler (notif_params n)) with
      | Some error =>
          [("Error handling notification " +:+ notif_method n +:+ ":", error)]
      | None => []
      end.
Proof.
  intros Hc Hs. unfold handleMessage, try_catch.
  rewrite (processMessage_notification _ _ Hc Hs).
  unfold handleNotification.
  destruct (notificationHandlers st !! notif_method n) as [handler|]; simpl.
  - destruct (handler (notif_params n)); simpl; by rewrite ?app_nil_r.
  - by rewrite app_nil_r.
Qed.

Lemma notification_never_answered_witness :
  sentMessages
    (handleMessage [("jsonrpc", VStr "2.0"); ("method", VStr "test/notification")]
       (onNotification "test/notification" (fun _ => Some (EError "boom"))
          Sample.fresh)).2 = [] /\
  console
    (handleMessage [("jsonrpc", VStr "2.0"); ("method", VStr "test/notification")]
       (onNotification "test/notification" (fun _ => Some (EError "boom"))
          Sample.fresh)).2 =
    [("Error handling notification test/notification:", EError "boom")].
Proof.
  destruct (notification_never_answered
              (onNotification "test/notification" (fun _ => Some (EError "boom"))
                 Sample.fresh)
              [("jsonrpc", VStr "2.0"); ("method", VStr "test/notification")]
              (mkNotification "test/notification" VUndefined)
              eq_refl eq_refl) as (_ & Hsent & _ & _ & Hlog).
  split; [exact Hsent | exact Hlog].
Defined.

(** C4 (as amended): an inbound message classified as a Response that
    fails the response schema does not make [handleMessage] throw, and
    the rest of the state is left alone, but it is not dropped silently:
    one error Response with id [null] and code -32700 is sent. *)
Theorem invalid_response_answered_with_parse_error (st : McpProtocol)
    (m : obj) (z : ZodError) :
  reliable st ->
  isRequest m = false ->
  isResponse m = true ->
  JsonRpcResponseSchema m = inr z ->
  handleMessage m st =
    (inl tt,
     with_sentMessages
       (sentMessages st ++
          [[("jsonrpc", VStr "2.0");
            ("id", VNull);
            ("error",
             VObj [("code", VNum (-32700));
                   ("message", VStr "Invalid JSON-RPC message");
                   ("data", zod_value z)])]]) st).
Proof.
  intros Hok Hq Hc Hs.
  rewrite (handleMessage_schema_failure m z st Hok).
  - reflexivity.
  - unfold validate. by rewrite Hq, Hc, Hs.
Qed.

Lemma invalid_response_answered_with_parse_error_witness :
  sentMessages
    (handleMessage [("id", VNum 1); ("result", VNum 5)] Sample.fresh).2 =
    [[("jsonrpc", VStr "2.0");
      ("id", VNull);
      ("error",
       VObj [("code", VNum (-32700));
             ("message", VStr "Invalid JSON-RPC message");
             ("data", zod_value (mkZodError [["jsonrpc"]]))])]].
Proof.
  rewrite (invalid_response_answered_with_parse_error Sample.fresh
             [("id", VNum 1); ("result", VNum 5)] (mkZodError [["jsonrpc"]])).
  - reflexivity.
  - intros m. reflexivity.
  - reflexivity.
  - reflexivity.
  - reflexivity.
Defined.

(** C4 as stated fails: the message below has an id and a result and no
    method, fails the response schema (no [jsonrpc] marker), and a message
    is sent back. *)
Lemma invalid_response_not_dropped :
  isRequest [("id", VNum 1); ("result", VNum 5)] = false /\
  isResponse [("id", VNum 1); ("result", VNum 5)] = true /\
  JsonRpcResponseSchema [("id", VNum 1); ("result", VNum 5)]
    = inr (mkZodError [["jsonrpc"]]) /\
  sentMessages Sample.fresh = [] /\
  length
    (sentMessages
       (handleMessage [("id", VNum 1); ("result", VNum 5)] Sample.fresh).2)
    = 1%nat.
Proof. repeat split. Qed.

(** What a message that fails the checks makes the dispatcher do: the
    error envelope is handed to the transport, and nothing else
    happens. *)
Lemma handleMessage_rejected m st :
  validate m <> Valid ->
  handleMessage m st =
    transport_send
      (error_envelope
         match validate m with
         | SchemaFailure _ => VNull
         | _ => message_id_or_null m
         end
         match validate m with
         | SchemaFailure z => ParseError "Invalid JSON-RPC message" (zod_value z)
         | _ => InvalidRequestError "Invalid message format" VUndefined
         end) st.
Proof.
  intros Hv. unfold handleMessage, try_catch.
  destruct (validate m) as [|z|] eqn:E; [done| |].
  - by rewrite (processMessage_schema_failure _ _ _ E).
  - by rewrite (processMessage_unclassified _ _ E).
Qed.

Lemma sent_one_more {A} (l : list A) x : l <> l ++ [x].
Proof.
  intros H. apply (f_equal length) in H. rewrite length_app in H. simpl in H. lia.
Qed.

(** C5 (as amended): take any decoded message, an object or not, that
    does not pass the checks, and suppose that processing it makes an
    error Response go out.  Then the message is an object (or an array),
    and the Response is addressed to [null] when the message fails the
    schema of its kind, whatever id it carries; when the message matches
    none of the three shapes, the Response carries the message's id if it
    has a non-null one, and [null] otherwise. *)
Theorem rejected_message_response_id (text : value -> string)
    (st : McpProtocol) (message : value) (resp : obj) :
  (forall m, own_properties message = Some m -> validate m <> Valid) ->
  sentMessages (handleMessage_decoded text message st).2
    = sentMessages st ++ [resp] ->
  exists m,
    own_properties message = Some m /\
    Obj.has "error" resp = true /\
    Obj.get "id" resp =
      Some match validate m with
           | SchemaFailure _ => VNull
           | _ => nullish_to_null (message_id_or_null m)
           end.
Proof.
  intros Hv Hsent. unfold handleMessage_decoded in Hsent.
  destruct (own_properties message) as [m|]; simpl in Hsent.
  - exists m. split; [done|]. specialize (Hv m eq_refl).
    rewrite (handleMessage_rejected m st Hv) in Hsent.
    unfold transport_send in Hsent.
    destruct (transport st _); simpl in Hsent.
    { by apply sent_one_more in Hsent. }
    apply app_inv_head in Hsent. injection Hsent as <-.
    by destruct (validate m).
  - by apply sent_one_more in Hsent.
Qed.

Lemma rejected_message_response_id_witness :
  exists m,
    own_properties (VObj [("jsonrpc", VStr "2.0"); ("id", VNum 5)]) = Some m /\
    Obj.has "error"
      [("jsonrpc", VStr "2.0"); ("id", VNum 5);
       ("error", VObj [("code", VNum (-32600));
                       ("message", VStr "Invalid message format")])] = true /\
    Obj.get "id"
      [("jsonrpc", VStr "2.0"); ("id", VNum 5);
       ("error", VObj [("code", VNum (-32600));
                       ("message", VStr "Invalid message format")])]
      = Some match validate m with
             | SchemaFailure _ => VNull
             | _ => nullish_to_null (message_id_or_null m)
             end.
Proof.
  apply (rejected_message_response_id (fun _ => "") Sample.fresh
           (VObj [("jsonrpc", VStr "2.0"); ("id", VNum 5)])).
  - intros m [= <-]. discriminate.
  - reflexivity.
Defined.

(** C5 as stated fails: the message below carries the id 7, fails the
    request schema, and the error Response is addressed to [null]. *)
Lemma schema_failure_loses_id :
  Obj.get "id" [("id", VNum 7); ("method", VStr "ping")] = Some (VNum 7) /\
  validate [("id", VNum 7); ("method", VStr "ping")]
    = SchemaFailure (mkZodError [["jsonrpc"]]) /\
  exists resp,
    sentMessages
      (handleMessage [("id", VNum 7); ("method", VStr "ping")] Sample.fresh).2
      = [resp] /\
    Obj.has "error" resp = true /\
    Obj.get "id" resp = Some VNull /\
    Obj.get "id" resp <> Obj.get "id" [("id", VNum 7); ("method", VStr "ping")].
Proof.
  split; [reflexivity|]. split; [reflexivity|].
  eexists. split; [reflexivity|]. repeat split. discriminate.
Qed.

(** ** The claims about outbound requests and handler results *)

Lemma settle_fresh p s st :
  promises st !! p = Some Pending ->
  promises (settle p s st) !! p = Some s.
Proof.
  intros H. unfold settle. rewrite H. simpl.
  apply list_lookup_insert_eq. by apply lookup_lt_Some in H.
Qed.

(** C3 (as amended): when the transport rejects the write of the Request
    envelope, the promise returned by [sendRequest] is rejected with the
    transport's error and nothing is recorded as sent; the pending entry
    stored for the request's id stays in the pending-request table. *)
Theorem sendRequest_transport_failure (st : McpProtocol) (method : string)
    (params : value) (e : exn) :
  transport st (request_envelope (messageId st + 1) method params) = Some e ->
  promises (sendRequest method params st).2 !! (sendRequest method params st).1
    = Some (Rejected e) /\
  pendingRequests (sendRequest method params st).2 !! IdNum (messageId st + 1)
    = Some (sendRequest method params st).1 /\
  sentMessages (sendRequest method params st).2 = sentMessages st.
Proof.
  intros Hfail. unfold sendRequest, transport_send. simpl. rewrite Hfail. simpl.
  split; [|split].
  - apply settle_fresh. simpl. by apply list_lookup_middle.
  - unfold settle. simpl. rewrite list_lookup_middle by done. simpl.
    apply lookup_insert_eq.
  - unfold settle. simpl. by rewrite list_lookup_middle by done.
Qed.

Lemma sendRequest_transport_failure_witness :
  promises (sendRequest "test/method" VUndefined Sample.fresh_broken).2 !! 0%nat
    = Some (Rejected (EError "write EPIPE")) /\
  pendingRequests (sendRequest "test/method" VUndefined Sample.fresh_broken).2
    !! IdNum 1 = Some 0%nat /\
  sentMessages (sendRequest "test/method" VUndefined Sample.fresh_broken).2 = [].
Proof.
  apply (sendRequest_transport_failure Sample.fresh_broken "test/method"
           VUndefined (EError "write EPIPE")).
  reflexivity.
Defined.

(** C3 as stated fails: after a failed write the table still holds the
    entry of the request's id. *)
Lemma failed_send_leaves_pending_entry :
  transport Sample.fresh_broken (request_envelope 1 "test/method" VUndefined)
    = Some (EError "write EPIPE") /\
  pendingRequests Sample.fresh_broken !! IdNum 1 = None /\
  pendingRequests (sendRequest "test/method" VUndefined Sample.fresh_broken).2
    !! IdNum 1 <> None.
Proof.
  split; [reflexivity|]. split; [reflexivity|].
  vm_compute. discriminate.
Qed.

(** The part of the forwarding policy that does hold: an error whose
    [data] is truthy is serialised with its code, message and data. *)
Lemma toJsonRpcError_truthy e :
  truthy (data e) = true ->
  toJsonRpcError e =
    [("code", VNum (code e)); ("message", VStr (message e)); ("data", data e)].
Proof. intros H. unfold toJsonRpcError. by rewrite H. Qed.

(** Any falsy [data] ([undefined], [null], [false], [0], the empty
    string) is left out of the serialised error. *)
Lemma toJsonRpcError_falsy e :
  truthy (data e) = false ->
  toJsonRpcError e = [("code", VNum (code e)); ("message", VStr (message e))].
Proof. intros H. unfold toJsonRpcError. by rewrite H. Qed.

(** C7: evaluation of the code where it departs from the claim.  A handler
    that throws [new McpError(-32602, 'bad', 0)] is answered with an error
    object that has no [data] property, and a handler that throws
    [new Error()] (whose description is the empty string) is answered with
    an Internal error that has no [data] property either. *)
Theorem falsy_error_data_is_dropped :
  sentMessages
    (handleMessage
       [("jsonrpc", VStr "2.0"); ("id", VNum 2); ("method", VStr "custom/method")]
       (onRequest "custom/method"
          (fun _ _ => inr (EMcp (mkMcpError (-32602) "bad" (VNum 0))))
          Sample.fresh)).2 =
    [[("jsonrpc", VStr "2.0"); ("id", VNum 2);
      ("error", VObj [("code", VNum (-32602)); ("message", VStr "bad")])]] /\
  sentMessages
    (handleMessage
       [("jsonrpc", VStr "2.0"); ("id", VNum 2); ("method", VStr "custom/method")]
       (onRequest "custom/method" (fun _ _ => inr (EError "")) Sample.fresh)).2 =
    [[("jsonrpc", VStr "2.0"); ("id", VNum 2);
      ("error",
       VObj [("code", VNum (-32603)); ("message", VStr "Internal error")])]].
Proof. split; reflexivity. Qed.

Lemma get_spread_instructions k base opts :
  k <> "instructions" ->
  Obj.get k (Obj.spread base (instructions_props opts)) = Obj.get k base.
Proof.
  intros Hk. unfold instructions_props.
  destruct (instructions opts) as [s|]; [|done].
  destruct (truthy (VStr s)); [|done].
  unfold Obj.spread. simpl. by apply get_set_ne.
Qed.

(** C8: for params carrying a [protocolVersion] string, a [capabilities]
    object and a [clientInfo] object with [name] and [version] strings,
    [handleInitialize] returns a result whose [serverInfo] is the
    configured name and version, whose [protocolVersion] is '2024-11-05'
    and whose [capabilities] has, for every key, the value of the
    configured override when there is one and the built-in default
    otherwise. *)
Theorem initialize_result (opts : McpServerOptions) (o caps ci : obj)
    (pv cname cver : string) :
  Obj.prop "protocolVersion" o = VStr pv ->
  Obj.prop "capabilities" o = VObj caps ->
  Obj.prop "clientInfo" o = VObj ci ->
  Obj.prop "name" ci = VStr cname ->
  Obj.prop "version" ci = VStr cver ->
  NoDup (Obj.keys (capability_overrides opts)) ->
  exists result merged,
    handleInitialize opts (VObj o) = inl (VObj result) /\
    Obj.get "serverInfo" result =
      Some (VObj [("name", VStr (name opts)); ("version", VStr (version opts))]) /\
    Obj.get "protocolVersion" result = Some (VStr "2024-11-05") /\
    Obj.get "capabilities" result = Some (VObj merged) /\
    forall k,
      Obj.get k merged =
        match Obj.get k (capability_overrides opts) with
        | Some v => Some v
        | None => Obj.get k default_capabilities
        end.
Proof.
  intros Hpv Hcaps Hci Hname Hver Hnd.
  unfold handleInitialize, zInitializeParams, Zod.object, zClientInfo, Zod.field.
  rewrite Hpv, Hcaps, Hci, Hname, Hver. simpl.
  eexists _, (merged_capabilities opts). split; [reflexivity|].
  rewrite !get_spread_instructions by discriminate.
  repeat split. intros k. by apply get_spread.
Qed.

Lemma initialize_result_witness :
  exists result merged,
    handleInitialize
      (mkOptions "test-server" "1.0.0"
         (Some [("tools", VObj [("listChanged", VBool false)]);
                ("sampling", VObj [])]) None)
      (VObj [("protocolVersion", VStr "X"); ("capabilities", VObj []);
             ("clientInfo", VObj [("name", VStr "c"); ("version", VStr "1")])])
      = inl (VObj result) /\
    Obj.get "serverInfo" result =
      Some (VObj [("name", VStr "test-server"); ("version", VStr "1.0.0")]) /\
    Obj.get "protocolVersion" result = Some (VStr "2024-11-05") /\
    Obj.get "capabilities" result = Some (VObj merged) /\
    Obj.get "tools" merged = Some (VObj [("listChanged", VBool false)]) /\
    Obj.get "sampling" merged = Some (VObj []) /\
    Obj.get "prompts" merged = Some (VObj [("listChanged", VBool true)]).
Proof.
  destruct (initialize_result
              (mkOptions "test-server" "1.0.0"
                 (Some [("tools", VObj [("listChanged", VBool false)]);
                        ("sampling", VObj [])]) None)
              [("protocolVersion", VStr "X"); ("capabilities", VObj []);
               ("clientInfo", VObj [("name", VStr "c"); ("version", VStr "1")])]
              [] [("name", VStr "c"); ("version", VStr "1")] "X" "c" "1"
              eq_refl eq_refl eq_refl eq_refl eq_refl)
    as (result & merged & Hr & Hs & Hp & Hc & Hm).
  - simpl. compute_done.
  - exists result, merged. repeat split; try assumption.
    + exact (Hm "tools").
    + exact (Hm "sampling").
    + exact (Hm "prompts").
Defined.

(** C10 (as amended): without a logging provider [logging/setLevel]
    fails, and without a sampling provider [sampling/createMessage] fails,
    with an InvalidParams error, code -32602, whatever the params. *)
Theorem missing_provider_is_invalid_params (ps : Providers) (params : value) :
  (loggingProvider ps = None ->
   handleSetLogLevel ps params =
     inr (EMcp (mkMcpError (-32602) "Logging not supported" VUndefined))) /\
  (samplingProvider ps = None ->
   handleCreateMessage ps params =
     inr (EMcp (mkMcpError (-32602) "Sampling not supported" VUndefined))).
Proof.
  split; intros H.
  - unfold handleSetLogLevel. by rewrite H.
  - unfold handleCreateMessage. by rewrite H.
Qed.

Lemma missing_provider_is_invalid_params_witness :
  handleSetLogLevel no_providers (VObj [("level", VStr "debug")]) =
    inr (EMcp (mkMcpError (-32602) "Logging not supported" VUndefined)) /\
  handleCreateMessage no_providers (VObj [("messages", VArr [])]) =
    inr (EMcp (mkMcpError (-32602) "Sampling not supported" VUndefined)).
Proof.
  split.
  - exact (proj1 (missing_provider_is_invalid_params no_providers
                    (VObj [("level", VStr "debug")])) eq_refl).
  - exact (proj2 (missing_provider_is_invalid_params no_providers
                    (VObj [("messages", VArr [])])) eq_refl).
Defined.

(** C10 as stated fails: on a server without providers the two requests
    fail with code -32602, which is not the code of
    [CapabilityNotSupportedError]. *)
Lemma missing_provider_not_capability_error :
  loggingProvider no_providers = None /\
  samplingProvider no_providers = None /\
  (exists e,
     handleSetLogLevel no_providers (VObj [("level", VStr "debug")])
       = inr (EMcp e) /\
     code e = -32602 /\ code e <> -32004) /\
  (exists e,
     handleCreateMessage no_providers (VObj [("messages", VArr [])])
       = inr (EMcp e) /\
     code e = -32602 /\ code e <> -32004).
Proof.
  split; [reflexivity|]. split; [reflexivity|].
  split; eexists; (split; [reflexivity|]); split; simpl; lia.
Qed.

(** The same through the dispatcher: a fresh server answers
    [logging/setLevel] with an error Response of code -32602. *)
Lemma fresh_server_setLevel_response :
  sentMessages
    (protocol
       (server_receive
          [("jsonrpc", VStr "2.0"); ("id", VNum 4);
           ("method", VStr "logging/setLevel");
           ("params", VObj [("level", VStr "debug")])]
          (new_McpServer Sample.rt Sample.accepting Sample.opts)).2) =
    [[("jsonrpc", VStr "2.0"); ("id", VNum 4);
      ("error",
       VObj [("code", VNum (-32602)); ("message", VStr "Logging not supported")])]].
Proof. reflexivity. Qed.

(** ** Correlation of responses with outstanding requests *)

Lemma same_requests_refl st : same_requests st st.
Proof. by repeat split. Qed.

Lemma same_requests_trans st1 st2 st3 :
  same_requests st1 st2 -> same_requests st2 st3 -> same_requests st1 st3.
Proof.
  intros (Ha & Hb & Hc) (Ha' & Hb' & Hc'). repeat split; congruence.
Qed.

Lemma frames_transport_send m : frames (transport_send m).
Proof.
  intros st. unfold transport_send.
  destruct (transport st m); by repeat split.
Qed.

Lemma frames_throw {A} e : frames (@throw A e).
Proof. intros st. apply same_requests_refl. Qed.

Lemma frames_try_catch {A} (f : Async A) (h : exn -> Async A) :
  frames f -> (forall e, frames (h e)) -> frames (try_catch f h).
Proof.
  intros Hf Hh st. unfold try_catch.
  specialize (Hf st). destruct (f st) as [[a|e] st']; [done|].
  simpl in Hf. eapply same_requests_trans; [exact Hf|apply Hh].
Qed.

Lemma frames_sendErrorResponse id e : frames (sendErrorResponse id e).
Proof. apply frames_transport_send. Qed.

Lemma frames_handleRequest r : frames (handleRequest r).
Proof.
  intros st. unfold handleRequest.
  destruct (requestHandlers st !! req_method r) as [h|].
  - apply frames_try_catch.
    + destruct (h (req_params r) (req_id r));
        [apply frames_transport_send|apply frames_throw].
    + intros []; apply frames_sendErrorResponse.
  - apply frames_sendErrorResponse.
Qed.

Lemma frames_handleNotification n : frames (handleNotification n).
Proof.
  intros st. unfold handleNotification.
  destruct (notificationHandlers st !! notif_method n) as [h|];
    [destruct (h (notif_params n))|]; by repeat split.
Qed.

Lemma frames_handleMessageError m e : frames (handleMessageError m e).
Proof. destruct e; apply frames_sendErrorResponse. Qed.

(** An inbound message either leaves the correlation state alone or is a
    schema-valid response handed to [handleResponse]. *)
Lemma handleMessage_cases m st :
  same_requests st (handleMessage m st).2 \/
  (isRequest m = false /\ isResponse m = true /\
   exists r, JsonRpcResponseSchema m = inl r /\
             handleMessage m st = (inl tt, handleResponse r st)).
Proof.
  destruct (isRequest m) eqn:Hq.
  { left. unfold handleMessage. apply frames_try_catch.
    - intros s. unfold processMessage. rewrite Hq.
      destruct (JsonRpcRequestSchema m);
        [apply frames_handleRequest|apply frames_throw].
    - intros e. apply frames_handleMessageError. }
  destruct (isResponse m) eqn:Hr.
  { destruct (JsonRpcResponseSchema m) as [r|z] eqn:Hs.
    - right. repeat split. exists r. split; [done|].
      unfold handleMessage, try_catch.
      by rewrite (processMessage_response _ _ _ Hq Hr Hs).
    - left. unfold handleMessage. apply frames_try_catch.
      + intros s. unfold processMessage. rewrite Hq, Hr, Hs. apply frames_throw.
      + intros e. apply frames_handleMessageError. }
  left. unfold handleMessage. apply frames_try_catch.
  - intros s. unfold processMessage. rewrite Hq, Hr.
    destruct (isNotification m); [|apply frames_throw].
    destruct (JsonRpcNotificationSchema m);
      [apply frames_handleNotification|apply frames_throw].
  - intros e. apply frames_handleMessageError.
Qed.

Lemma consistent_same st st' :
  consistent st -> same_requests st st' -> consistent st'.
Proof.
  intros [H1 H2] (Hm & Hp & Hq). unfold consistent.
  rewrite Hm, Hp, Hq. by split.
Qed.

Lemma outstanding_same i p st st' :
  outstanding i p st -> same_requests st st' -> outstanding i p st'.
Proof.
  intros [H1 H2] (Hm & Hp & Hq). unfold outstanding. by rewrite Hp, Hq.
Qed.

Lemma settle_length p s st :
  length (promises (settle p s st)) = length (promises st).
Proof.
  unfold settle. destruct (promises st !! p) as [[]|]; simpl; try done.
  apply length_insert.
Qed.

Lemma settle_pending p s st :
  pendingRequests (settle p s st) = pendingRequests st.
Proof. unfold settle. by destruct (promises st !! p) as [[]|]. Qed.

Lemma settle_messageId p s st : messageId (settle p s st) = messageId st.
Proof. unfold settle. by destruct (promises st !! p) as [[]|]. Qed.

Lemma settle_other p q s st :
  q <> p -> promises (settle p s st) !! q = promises st !! q.
Proof.
  intros Hne. unfold settle.
  destruct (promises st !! p) as [[]|]; simpl; try done.
  by apply list_lookup_insert_ne.
Qed.

(** The state [handleResponse] leaves when the id has a pending entry. *)
Lemma handleResponse_matched r i p st :
  resp_id r = Some i ->
  pendingRequests st !! i = Some p ->
  handleResponse r st =
    settle p
      match resp_error r with
      | Some e =>
          Rejected (EMcp (mkMcpError (err_code e) (err_message e) (err_data e)))
      | None => Fulfilled (resp_result r)
      end
      (with_pendingRequests (delete i (pendingRequests st)) st).
Proof.
  intros Hi Hp. unfold handleResponse. rewrite Hi, Hp.
  by destruct (resp_error r).
Qed.

Lemma handleResponse_unmatched r st :
  (resp_id r ≫= fun i => pendingRequests st !! i) = None ->
  handleResponse r st = st.
Proof.
  intros H. unfold handleResponse. destruct (resp_id r) as [i|]; [|done].
  simpl in H. by rewrite H.
Qed.

Lemma handleResponse_consistent r st :
  consistent st -> consistent (handleResponse r st).
Proof.
  intros [H1 H2].
  destruct (resp_id r ≫= fun i => pendingRequests st !! i) as [p|] eqn:E.
  - destruct (resp_id r) as [i|] eqn:Hi; [|done]. simpl in E.
    rewrite (handleResponse_matched r i p st Hi E).
    split.
    + intros k q. rewrite settle_pending, settle_length, settle_messageId. simpl.
      intros Hk. apply lookup_delete_Some in Hk as [_ Hk]. by apply H1.
    + intros k1 k2 q. rewrite settle_pending. simpl.
      intros Hk1 Hk2.
      apply lookup_delete_Some in Hk1 as [_ Hk1].
      apply lookup_delete_Some in Hk2 as [_ Hk2]. by eapply H2.
  - by rewrite handleResponse_unmatched.
Qed.

Lemma handleResponse_outstanding i p r st :
  consistent st ->
  resp_id r <> Some i ->
  outstanding i p st -> outstanding i p (handleResponse r st).
Proof.
  intros [H1 H2] Hne [Hp Hq].
  destruct (resp_id r ≫= fun j => pendingRequests st !! j) as [q|] eqn:E.
  - destruct (resp_id r) as [j|] eqn:Hj; [|done]. simpl in E.
    rewrite (handleResponse_matched r j q st Hj E).
    assert (j <> i) by congruence.
    assert (p <> q).
    { intros ->. by pose proof (H2 _ _ _ Hp E). }
    split.
    + rewrite settle_pending. simpl. by rewrite lookup_delete_ne.
    + by rewrite settle_other.
  - by rewrite handleResponse_unmatched.
Qed.

(** The state [sendRequest] leaves, apart from the transport's record. *)
Lemma sendRequest_state method params st :
  (sendRequest method params st).1 = length (promises st) /\
  messageId (sendRequest method params st).2 = messageId st + 1 /\
  pendingRequests (sendRequest method params st).2 =
    <[IdNum (messageId st + 1) := length (promises st)]> (pendingRequests st) /\
  promises (sendRequest method params st).2 =
    promises st ++
      [match transport st (request_envelope (messageId st + 1) method params) with
       | None => Pending
       | Some e => Rejected e
       end].
Proof.
  unfold sendRequest, transport_send. simpl.
  destruct (transport st _) as [e|]; simpl; [|done].
  rewrite settle_pending, settle_messageId. simpl. repeat split.
  unfold settle. simpl. rewrite list_lookup_middle by done. simpl.
  rewrite insert_app_r_alt by done. by rewrite Nat.sub_diag.
Qed.

Lemma sendRequest_consistent method params st :
  consistent st -> consistent (sendRequest method params st).2.
Proof.
  intros [H1 H2].
  destruct (sendRequest_state method params st) as (_ & Hm & Hp & Hq).
  split.
  - intros k p. rewrite Hm, Hp, Hq, length_app. simpl.
    intros Hk. apply lookup_insert_Some in Hk as [[<- <-]|[_ Hk]].
    + split; [lia|]. eexists. split; [done|lia].
    + destruct (H1 _ _ Hk) as [Hlt (n & -> & Hn)].
      split; [lia|]. eexists. split; [done|lia].
  - intros k1 k2 p. rewrite Hp. intros Hk1 Hk2.
    apply lookup_insert_Some in Hk1 as [[<- <-]|[Hne1 Hk1]];
      apply lookup_insert_Some in Hk2 as [[<- Hk2]|[Hne2 Hk2]]; try done.
    + destruct (H1 _ _ Hk2). lia.
    + destruct (H1 _ _ Hk1). lia.
    + by eapply H2.
Qed.

Lemma sendRequest_outstanding i p method params st :
  consistent st ->
  outstanding i p st -> outstanding i p (sendRequest method params st).2.
Proof.
  intros [H1 _] [Hp Hq].
  destruct (sendRequest_state method params st) as (_ & _ & Hp' & Hq').
  destruct (H1 _ _ Hp) as [Hlt (n & -> & Hn)].
  split.
  - rewrite Hp'. rewrite lookup_insert_ne; [done|].
    intros [= Heq]. lia.
  - rewrite Hq'. by rewrite lookup_app_l.
Qed.

Lemma sendRequest_accepted method params st :
  transport st (request_envelope (messageId st + 1) method params) = None ->
  outstanding (IdNum (messageId st + 1)) (sendRequest method params st).1
    (sendRequest method params st).2.
Proof.
  intros Hok.
  destruct (sendRequest_state method params st) as (Hr & _ & Hp & Hq).
  rewrite Hok in Hq. split.
  - rewrite Hp, Hr. apply lookup_insert_eq.
  - rewrite Hq, Hr. by apply list_lookup_middle.
Qed.

Lemma consistent_new t opts : consistent (new_McpProtocol t opts).
Proof. split; intros *; simpl; by rewrite lookup_empty. Qed.

Lemma step_same_or st ev :
  match ev with
  | EvReceive _ | EvSendRequest _ _ => True
  | _ => same_requests st (step ev st)
  end.
Proof.
  destruct ev; simpl; try done.
  apply frames_transport_send.
Qed.

Lemma step_consistent ev st : consistent st -> consistent (step ev st).
Proof.
  intros Hc. pose proof (step_same_or st ev) as Hs.
  destruct ev as [m|method params| | |]; try (by eapply consistent_same).
  - simpl. destruct (handleMessage_cases m st) as [H|(_ & _ & r & _ & ->)].
    + by eapply consistent_same.
    + by apply handleResponse_consistent.
  - by apply sendRequest_consistent.
Qed.

Lemma run_consistent evs st : consistent st -> consistent (run evs st).
Proof.
  revert st. induction evs as [|ev evs IH]; intros st Hc; [done|].
  simpl. apply IH. by apply step_consistent.
Qed.

Lemma step_outstanding i p ev st :
  consistent st ->
  responds_to i ev = false ->
  outstanding i p st -> outstanding i p (step ev st).
Proof.
  intros Hc Hev Ho. pose proof (step_same_or st ev) as Hs.
  destruct ev as [m|method params| | |]; try (by eapply outstanding_same).
  - simpl. destruct (handleMessage_cases m st) as [H|(Hq & Hr & r & Hsch & ->)].
    + by eapply outstanding_same.
    + apply handleResponse_outstanding; [done| |done].
      simpl in Hev. rewrite Hq, Hr, Hsch in Hev. simpl in Hev.
      by apply bool_decide_eq_false in Hev.
  - by apply sendRequest_outstanding.
Qed.

Lemma run_outstanding i p evs st :
  consistent st ->
  Forall (fun ev => responds_to i ev = false) evs ->
  outstanding i p st -> outstanding i p (run evs st).
Proof.
  revert st. induction evs as [|ev evs IH]; intros st Hc Hall Ho; [done|].
  inversion Hall as [|? ? Hev Hall']; subst. simpl.
  apply IH; [by apply step_consistent|done|by apply step_outstanding].
Qed.

(** C1: take any dispatcher state reached from construction, a request
    the transport accepted, given the id [i] by [sendRequest], and any
    later events among which no response with id [i] arrives (other
    requests may be sent and answered in any order).  The promise is
    still pending then, and a schema-valid inbound Response with id [i]
    settles it: it is fulfilled with the message's [result] when the
    message has no [error], and rejected with an [McpError] made of the
    error object's code, message and data otherwise.  No other promise
    changes, and the entry of [i] leaves the pending table. *)
Theorem response_settles_its_request (t : Transport) (opts : McpServerOptions)
    (history later : list event) (method : string) (params : value)
    (m : obj) (r : JsonRpcResponse) :
  let st := run history (new_McpProtocol t opts) in
  let i := messageId st + 1 in
  let p := (sendRequest method params st).1 in
  let before := run later (sendRequest method params st).2 in
  let after := (handleMessage m before).2 in
  transport st (request_envelope i method params) = None ->
  Forall (fun ev => responds_to (IdNum i) ev = false) later ->
  isRequest m = false ->
  isResponse m = true ->
  JsonRpcResponseSchema m = inl r ->
  Obj.prop "id" m = VNum i ->
  promises before !! p = Some Pending /\
  (Obj.prop "error" m = VUndefined ->
   promises after !! p = Some (Fulfilled (Obj.prop "result" m))) /\
  (forall eo, Obj.prop "error" m = VObj eo ->
   exists c msg,
     Obj.prop "code" eo = VNum c /\ Obj.prop "message" eo = VStr msg /\
     promises after !! p =
       Some (Rejected (EMcp (mkMcpError c msg (Obj.prop "data" eo))))) /\
  (forall q, q <> p -> promises after !! q = promises before !! q) /\
  pendingRequests after = delete (IdNum i) (pendingRequests before).
Proof.
  intros st i p before after Hok Hlater Hq Hc Hs Hid.
  assert (Hst : consistent st) by apply run_consistent, consistent_new.
  assert (Hbefore : consistent before /\ outstanding (IdNum i) p before).
  { split.
    - by apply run_consistent, sendRequest_consistent.
    - apply run_outstanding; [by apply sendRequest_consistent|done|].
      by apply sendRequest_accepted. }
  destruct Hbefore as [_ [Hp Hpend]].
  destruct (response_schema_fields _ _ Hs) as (_ & Hid' & Hres & Herr).
  assert (Hri : resp_id r = Some (IdNum i)).
  { rewrite Hid in Hid'. destruct (resp_id r) as [[]|]; simpl in Hid'; congruence. }
  assert (Hafter : after =
    settle p
      match resp_error r with
      | Some e =>
          Rejected (EMcp (mkMcpError (err_code e) (err_message e) (err_data e)))
      | None => Fulfilled (resp_result r)
      end
      (with_pendingRequests (delete (IdNum i) (pendingRequests before)) before)).
  { unfold after, handleMessage, try_catch.
    rewrite (processMessage_response _ _ _ Hq Hc Hs). simpl.
    by apply handleResponse_matched. }
  split; [done|]. rewrite Hafter. split; [|split; [|split]].
  - intros Hnone. rewrite settle_fresh by done.
    destruct (resp_error r) as [e|].
    + destruct Herr as (eo & Heo & _). congruence.
    + by rewrite Hres.
  - intros eo Heo. rewrite settle_fresh by done.
    destruct (resp_error r) as [e|]; [|congruence].
    destruct Herr as (eo' & Heo' & Hcode & Hmsg & Hdata).
    assert (eo' = eo) by congruence. subst eo'.
    exists (err_code e), (err_message e). by rewrite Hdata.
  - intros q Hne. by rewrite settle_other.
  - by rewrite settle_pending.
Qed.

Lemma response_settles_its_request_witness :
  promises
    (handleMessage
       [("jsonrpc", VStr "2.0"); ("id", VNum 1); ("result", VStr "one")]
       (run [EvSendRequest "second" VUndefined;
             EvReceive [("jsonrpc", VStr "2.0"); ("id", VNum 2);
                        ("result", VStr "two")]]
          (sendRequest "first" VUndefined Sample.fresh).2)).2 !! 0%nat
    = Some (Fulfilled (VStr "one")).
Proof.
  destruct (response_settles_its_request Sample.accepting Sample.opts []
              [EvSendRequest "second" VUndefined;
               EvReceive [("jsonrpc", VStr "2.0"); ("id", VNum 2);
                          ("result", VStr "two")]]
              "first" VUndefined
              [("jsonrpc", VStr "2.0"); ("id", VNum 1); ("result", VStr "one")]
              (mkResponse (Some (IdNum 1)) (VStr "one") None))
    as (_ & Hresult & _).
  - reflexivity.
  - repeat constructor.
  - reflexivity.
  - reflexivity.
  - reflexivity.
  - reflexivity.
  - exact (Hresult eq_refl).
Defined.

(** * Further properties of the dispatcher *)

(** ** Requests without a handler, and the built-in [initialize] *)

(** X1: a schema-valid Request whose method has no registered handler is
    answered, on an accepting transport, with exactly one error Response
    that carries the Request's id, code -32601 and the message
    'Method not found: ' followed by the method, and no data. *)
Theorem method_not_found_answered (st : McpProtocol) (m : obj)
    (r : JsonRpcRequest) :
  reliable st ->
  isRequest m = true ->
  JsonRpcRequestSchema m = inl r ->
  requestHandlers st !! req_method r = None ->
  handleMessage m st =
    (inl tt,
     with_sentMessages
       (sentMessages st ++
          [[("jsonrpc", VStr "2.0");
            ("id", id_value (req_id r));
            ("error",
             VObj [("code", VNum (-32601));
                   ("message", VStr ("Method not found: " +:+ req_method r))])]])
       st).
Proof.
  intros Hok Hc Hs Hh. unfold handleMessage, try_catch.
  rewrite (processMessage_request _ _ Hc Hs).
  assert (Hreq : handleRequest r st =
            sendErrorResponse (id_value (req_id r))
              (mkMcpError (-32601)
                 ("Method not found: " +:+ req_method r) VUndefined) st).
  { unfold handleRequest. cbv delta [MessageHandler outcome] in *. by rewrite Hh. }
  rewrite Hreq, (sendErrorResponse_reliable _ _ _ Hok).
  unfold error_envelope. by rewrite nullish_id_value.
Qed.

Lemma method_not_found_answered_witness :
  sentMessages
    (handleMessage
       [("jsonrpc", VStr "2.0"); ("id", VNum 3);
        ("method", VStr "nonexistent/method")] Sample.fresh).2 =
    [[("jsonrpc", VStr "2.0"); ("id", VNum 3);
      ("error",
       VObj [("code", VNum (-32601));
             ("message", VStr "Method not found: nonexistent/method")])]].
Proof.
  rewrite (method_not_found_answered Sample.fresh _
             (mkRequest (IdNum 3) "nonexistent/method" VUndefined)).
  - reflexivity.
  - intros m. reflexivity.
  - reflexivity.
  - reflexivity.
  - reflexivity.
Defined.

Lemma object_inl {A} (p : obj -> Zod.res A) path v a :
  Zod.object p path v = inl a -> exists o, v = VObj o /\ p o = inl a.
Proof.
  destruct v as [| | | | | |o]; simpl; try discriminate.
  destruct (p o) as [a'|] eqn:E; [|discriminate]. intros [= ->]. eauto.
Qed.

Lemma zInitializeParams_inl params ip :
  zInitializeParams params = inl ip ->
  exists o ci,
    params = VObj o /\
    Obj.prop "protocolVersion" o = VStr (ip_protocolVersion ip) /\
    Obj.prop "capabilities" o = VObj (ip_capabilities ip) /\
    Obj.prop "clientInfo" o = VObj ci /\
    Obj.prop "name" ci = VStr (ip_clientInfo ip).1 /\
    Obj.prop "version" ci = VStr (ip_clientInfo ip).2.
Proof.
  unfold zInitializeParams. intros H. apply finish_inl in H.
  apply object_inl in H as (o & -> & H).
  apply ap_inl in H as (g2 & info & H & Hci & ->).
  apply ap_inl in H as (g1 & caps & H & Hcaps & ->).
  apply ap_inl in H as (g0 & pv & H & Hpv & ->).
  injection H as <-. simpl.
  apply string_inl in Hpv.
  apply object_inl in Hcaps as (caps' & Hcaps & [= ->]).
  apply object_inl in Hci as (ci & Hci & Hinfo).
  unfold zClientInfo in Hinfo.
  apply ap_inl in Hinfo as (f1 & cv & Hinfo & Hcv & ->).
  apply ap_inl in Hinfo as (f0 & cn & Hinfo & Hcn & ->).
  injection Hinfo as <-. simpl.
  apply string_inl in Hcv. apply string_inl in Hcn.
  exists o, ci. auto 10.
Qed.

(** X2: [handleInitialize] has two outcomes only.  It returns a result
    exactly for params that are an object with a [protocolVersion] string,
    a [capabilities] object and a [clientInfo] object with [name] and
    [version] strings; for every other value it throws an InvalidRequest
    error, code -32600, message 'Invalid initialize params', with the
    validation error as data. *)
Theorem handleInitialize_accepts_only_valid_params (opts : McpServerOptions)
    (params : value) :
  (exists result o caps ci pv cname cver,
     handleInitialize opts params = inl result /\
     params = VObj o /\
     Obj.prop "protocolVersion" o = VStr pv /\
     Obj.prop "capabilities" o = VObj caps /\
     Obj.prop "clientInfo" o = VObj ci /\
     Obj.prop "name" ci = VStr cname /\
     Obj.prop "version" ci = VStr cver) \/
  (exists z,
     handleInitialize opts params =
       inr (EMcp (mkMcpError (-32600) "Invalid initialize params" (zod_value z)))).
Proof.
  unfold handleInitialize.
  destruct (zInitializeParams params) as [ip|z] eqn:E.
  - left. apply zInitializeParams_inl in E as (o & ci & -> & H1 & H2 & H3 & H4 & H5).
    eexists _, o, _, ci, _, _, _. repeat split; eauto.
  - right. by exists z.
Qed.

(** X3: on a dispatcher whose [initialize] handler is the built-in one,
    an [initialize] Request whose params have no [clientInfo] is answered
    with exactly one error Response carrying the Request's id and code
    -32600. *)
Theorem initialize_without_clientInfo_rejected (st : McpProtocol) (m : obj)
    (r : JsonRpcRequest) (opts : McpServerOptions) (o : obj) :
  reliable st ->
  requestHandlers st !! "initialize"
    = Some (fun params _ => handleInitialize opts params) ->
  isRequest m = true ->
  JsonRpcRequestSchema m = inl r ->
  req_method r = "initialize" ->
  req_params r = VObj o ->
  Obj.has "clientInfo" o = false ->
  exists z,
    handleMessage m st =
      (inl tt,
       with_sentMessages
         (sentMessages st ++
            [[("jsonrpc", VStr "2.0");
              ("id", id_value (req_id r));
              ("error",
               VObj [("code", VNum (-32600));
                     ("message", VStr "Invalid initialize params");
                     ("data", zod_value z)])]]) st).
Proof.
  intros Hok Hh Hc Hs Hm Hp Hci.
  unfold handleMessage, try_catch.
  rewrite (processMessage_request _ _ Hc Hs).
  rewrite <- Hm in Hh. rewrite (handleRequest_reliable _ _ _ Hok Hh).
  rewrite Hp. unfold handleInitialize.
  destruct (zInitializeParams (VObj o)) as [ip|z] eqn:E.
  - apply zInitializeParams_inl in E as (o' & ci & [= <-] & _ & _ & Hci' & _).
    apply has_false_get in Hci. unfold Obj.prop in Hci'.
    rewrite Hci in Hci'. discriminate.
  - exists z. unfold error_envelope. by rewrite nullish_id_value.
Qed.

Lemma initialize_without_clientInfo_rejected_witness :
  exists z,
    handleMessage
      [("jsonrpc", VStr "2.0"); ("id", VNum 1); ("method", VStr "initialize");
       ("params", VObj [("protocolVersion", VStr "2024-11-05");
                        ("capabilities", VObj [])])] Sample.fresh =
      (inl tt,
       with_sentMessages
         (sentMessages Sample.fresh ++
            [[("jsonrpc", VStr "2.0");
              ("id", VNum 1);
              ("error",
               VObj [("code", VNum (-32600));
                     ("message", VStr "Invalid initialize params");
                     ("data", zod_value z)])]]) Sample.fresh).
Proof.
  apply (initialize_without_clientInfo_rejected Sample.fresh _
           (mkRequest (IdNum 1) "initialize"
              (VObj [("protocolVersion", VStr "2024-11-05");
                     ("capabilities", VObj [])]))
           Sample.opts
           [("protocolVersion", VStr "2024-11-05"); ("capabilities", VObj [])]).
  - intros m. reflexivity.
  - reflexivity.
  - reflexivity.
  - reflexivity.
  - reflexivity.
  - reflexivity.
  - reflexivity.
Defined.

(** ** The id counter and the lifetime of promises *)

Lemma handleResponse_messageId r st :
  messageId (handleResponse r st) = messageId st.
Proof.
  unfold handleResponse. destruct (resp_id r) as [i|]; [|done].
  destruct (pendingRequests st !! i); [|done].
  destruct (resp_error r); by rewrite settle_messageId.
Qed.

Lemma step_messageId ev st :
  messageId (step ev st) =
    messageId st + match ev with EvSendRequest _ _ => 1 | _ => 0 end.
Proof.
  pose proof (step_same_or st ev) as Hs.
  destruct ev as [m|method params| | |];
    try (destruct Hs as (-> & _); lia).
  - simpl. destruct (handleMessage_cases m st) as [(-> & _)|(_ & _ & r & _ & ->)].
    + lia.
    + simpl. rewrite handleResponse_messageId. lia.
  - simpl. by destruct (sendRequest_state method params st) as (_ & -> & _).
Qed.

Lemma run_messageId evs st :
  messageId (run evs st) = messageId st + Z.of_nat (count_requests evs).
Proof.
  revert st. induction evs as [|ev evs IH]; intros st; simpl; [lia|].
  rewrite IH, step_messageId. destruct ev; simpl; lia.
Qed.

(** X4: the ids of outbound requests are 1, 2, 3, ... in the order of the
    [sendRequest] calls: whatever else happened to a dispatcher since its
    construction (messages received, notifications sent, handlers
    registered, sends that failed), its next request gets the number of
    earlier [sendRequest] calls plus one, and that is the key of the
    pending entry it stores. *)
Theorem request_ids_count_calls (t : Transport) (opts : McpServerOptions)
    (evs : list event) (method : string) (params : value) :
  messageId (run evs (new_McpProtocol t opts)) = Z.of_nat (count_requests evs) /\
  pendingRequests
    (sendRequest method params (run evs (new_McpProtocol t opts))).2
    !! IdNum (Z.of_nat (count_requests evs) + 1)
    = Some (sendRequest method params (run evs (new_McpProtocol t opts))).1.
Proof.
  assert (Hm : messageId (run evs (new_McpProtocol t opts))
               = Z.of_nat (count_requests evs)).
  { rewrite run_messageId. simpl. lia. }
  split; [done|].
  destruct (sendRequest_state method params (run evs (new_McpProtocol t opts)))
    as (-> & _ & -> & _).
  rewrite Hm. apply lookup_insert_eq.
Qed.

(** X5: [sendRequest] never reuses the id of a request that is still
    pending: in every state reached from construction the id it is about
    to allocate has no entry in the pending table, so the table grows by
    exactly one entry. *)
Theorem sendRequest_allocates_fresh_id (t : Transport) (opts : McpServerOptions)
    (evs : list event) (method : string) (params : value) :
  let st := run evs (new_McpProtocol t opts) in
  pendingRequests st !! IdNum (messageId st + 1) = None /\
  size (pendingRequests (sendRequest method params st).2)
    = S (size (pendingRequests st)).
Proof.
  intros st.
  assert (Hc : consistent st) by apply run_consistent, consistent_new.
  assert (Hfresh : pendingRequests st !! IdNum (messageId st + 1) = None).
  { destruct (pendingRequests st !! IdNum (messageId st + 1)) as [p|] eqn:E;
      [|done].
    destruct Hc as [H1 _]. destruct (H1 _ _ E) as (_ & n & [= <-] & Hn). lia. }
  split; [done|].
  destruct (sendRequest_state method params st) as (_ & _ & -> & _).
  by apply map_size_insert_None.
Qed.

Lemma settle_settled p q s s' st :
  promises st !! p = Some s -> s <> Pending ->
  promises (settle q s' st) !! p = Some s.
Proof.
  intros Hp Hs. destruct (decide (q = p)) as [->|Hne].
  - unfold settle. rewrite Hp. by destruct s.
  - by rewrite settle_other.
Qed.

Lemma step_settled p s ev st :
  promises st !! p = Some s -> s <> Pending ->
  promises (step ev st) !! p = Some s.
Proof.
  intros Hp Hs. pose proof (step_same_or st ev) as Hsame.
  destruct ev as [m|method params| | |];
    try (destruct Hsame as (_ & _ & ->); done).
  - simpl. destruct (handleMessage_cases m st)
      as [(_ & _ & ->)|(_ & _ & r & _ & ->)]; [done|].
    simpl. unfold handleResponse.
    destruct (resp_id r) as [i|]; [|done].
    destruct (pendingRequests st !! i); [|done].
    destruct (resp_error r); by apply settle_settled.
  - simpl. destruct (sendRequest_state method params st) as (_ & _ & _ & ->).
    by apply lookup_app_l_Some.
Qed.

(** X6: a promise handed out by [sendRequest] is settled at most once:
    once it is fulfilled or rejected, no later event (a second response
    with the same id, other requests, anything received) changes it. *)
Theorem settled_promise_is_final (st : McpProtocol) (evs : list event)
    (p : nat) (s : PromiseState) :
  promises st !! p = Some s ->
  s <> Pending ->
  promises (run evs st) !! p = Some s.
Proof.
  revert st. induction evs as [|ev evs IH]; intros st Hp Hs; [done|].
  simpl. apply IH; [|done]. by apply step_settled.
Qed.

Lemma settled_promise_is_final_witness :
  promises
    (run [EvReceive [("jsonrpc", VStr "2.0"); ("id", VNum 1);
                     ("result", VStr "again")];
          EvReceive [("jsonrpc", VStr "2.0"); ("id", VNum 1);
                     ("error", VObj [("code", VNum (-32603));
                                     ("message", VStr "late")])]]
       (handleMessage
          [("jsonrpc", VStr "2.0"); ("id", VNum 1); ("result", VStr "one")]
          (sendRequest "first" VUndefined Sample.fresh).2).2) !! 0%nat
    = Some (Fulfilled (VStr "one")).
Proof.
  apply settled_promise_is_final.
  - reflexivity.
  - discriminate.
Defined.

Lemma handleResponse_sentMessages r st :
  sentMessages (handleResponse r st) = sentMessages st.
Proof.
  unfold handleResponse. destruct (resp_id r) as [i|]; [|done].
  destruct (pendingRequests st !! i); [|done].
  destruct (resp_error r); unfold settle; simpl; by repeat case_match.
Qed.

(** X7: processing a schema-valid Response is idempotent: delivering the
    same Response a second time leaves the state exactly as the first
    delivery left it, because the first delivery removed the pending
    entry. *)
Theorem duplicate_response_ignored (st : McpProtocol) (m : obj)
    (r : JsonRpcResponse) :
  isRequest m = false ->
  isResponse m = true ->
  JsonRpcResponseSchema m = inl r ->
  handleMessage m (handleMessage m st).2 = (inl tt, (handleMessage m st).2).
Proof.
  intros Hq Hc Hs. unfold handleMessage, try_catch.
  rewrite !(processMessage_response _ _ _ Hq Hc Hs). simpl.
  f_equal. apply handleResponse_unmatched.
  destruct (resp_id r) as [i|] eqn:Hi; [|done]. simpl.
  destruct (pendingRequests st !! i) as [p|] eqn:Hp.
  - rewrite (handleResponse_matched r i p st Hi Hp), settle_pending. simpl.
    apply lookup_delete_eq.
  - rewrite handleResponse_unmatched; [done|]. by rewrite Hi.
Qed.

Lemma duplicate_response_ignored_witness :
  handleMessage
    [("jsonrpc", VStr "2.0"); ("id", VNum 1); ("result", VStr "one")]
    (handleMessage
       [("jsonrpc", VStr "2.0"); ("id", VNum 1); ("result", VStr "one")]
       (sendRequest "first" VUndefined Sample.fresh).2).2 =
    (inl tt,
     (handleMessage
        [("jsonrpc", VStr "2.0"); ("id", VNum 1); ("result", VStr "one")]
        (sendRequest "first" VUndefined Sample.fresh).2).2).
Proof.
  apply (duplicate_response_ignored _ _
           (mkResponse (Some (IdNum 1)) (VStr "one") None));
    reflexivity.
Defined.

(** ** What an inbound message makes the dispatcher send *)

Lemma handleRequest_reliable_any r st :
  reliable st ->
  exists resp,
    handleRequest r st =
      (inl tt, with_sentMessages (sentMessages st ++ [resp]) st).
Proof.
  intros Hok.
  destruct (requestHandlers st !! req_method r) as [h|] eqn:Hh.
  - rewrite (handleRequest_reliable _ _ _ Hok Hh). eauto.
  - unfold handleRequest. cbv delta [MessageHandler outcome] in *.
    rewrite Hh, (sendErrorResponse_reliable _ _ _ Hok). eauto.
Qed.

(** With a transport that accepts every write, [handleMessage] does not
    throw on an object, and it sends exactly one message when the object
    is a valid request or fails the checks, and none when it is a valid
    response or a valid notification. *)
Lemma handleMessage_sends (st : McpProtocol) (m : obj) :
  reliable st ->
  (handleMessage m st).1 = inl tt /\
  exists out,
    sentMessages (handleMessage m st).2 = sentMessages st ++ out /\
    length out = if needs_answer m then 1%nat else 0%nat.
Proof.
  intros Hok. unfold needs_answer. destruct (validate m) as [|z|] eqn:Hv.
  - unfold validate in Hv. unfold handleMessage, try_catch, processMessage.
    destruct (isRequest m) eqn:Hq.
    { destruct (JsonRpcRequestSchema m) as [r|]; [|done].
      destruct (handleRequest_reliable_any r st Hok) as [resp ->]. simpl.
      split; [done|]. by exists [resp]. }
    destruct (isResponse m) eqn:Hr.
    { destruct (JsonRpcResponseSchema m) as [r|]; [|done]. simpl.
      split; [done|]. exists []. by rewrite handleResponse_sentMessages, app_nil_r. }
    destruct (isNotification m) eqn:Hn; [|done].
    destruct (JsonRpcNotificationSchema m) as [n|]; [|done].
    unfold handleNotification.
    destruct (notificationHandlers st !! notif_method n) as [h|];
      [destruct (h (notif_params n))|]; simpl;
      (split; [done|]); exists []; by rewrite app_nil_r.
  - rewrite (handleMessage_schema_failure m z st Hok Hv). simpl.
    split; [done|]. by eexists [_].
  - rewrite (handleMessage_unclassified m st Hok Hv). simpl.
    split; [done|]. by eexists [_].
Qed.

(** X8: what [handleMessage] does with a decoded message, by the kind of
    value.  On an object or an array, with a transport that accepts every
    write, it does not throw, and it sends exactly one message when the
    message is a valid request or fails the checks, and none when it is a
    valid response or a valid notification.  On any other value ([null],
    a string, a number, a boolean) it throws the [TypeError] of
    ['id' in message] and sends nothing. *)
Theorem decoded_message_outcome (text : value -> string) (st : McpProtocol)
    (message : value) :
  match own_properties message with
  | Some m =>
      reliable st ->
      (handleMessage_decoded text message st).1 = inl tt /\
      exists out,
        sentMessages (handleMessage_decoded text message st).2
          = sentMessages st ++ out /\
        length out = if needs_answer m then 1%nat else 0%nat
  | None =>
      handleMessage_decoded text message st
        = (inr (in_TypeError text "id" message), st)
  end.
Proof.
  unfold handleMessage_decoded.
  destruct (own_properties message) as [m|]; [|done].
  by apply handleMessage_sends.
Qed.

Lemma decoded_message_outcome_witness :
  handleMessage_decoded (fun _ => "null") VNull Sample.fresh_broken
    = (inr (EError "Cannot use 'in' operator to search for 'id' in null"),
       Sample.fresh_broken) /\
  (handleMessage_decoded (fun _ => "") (VArr [VNum 1]) Sample.fresh).1 = inl tt /\
  exists out,
    sentMessages (handleMessage_decoded (fun _ => "") (VArr [VNum 1]) Sample.fresh).2
      = sentMessages Sample.fresh ++ out /\
    length out = 1%nat.
Proof.
  split.
  - apply (decoded_message_outcome (fun _ => "null") Sample.fresh_broken VNull).
  - apply (decoded_message_outcome (fun _ => "") Sample.fresh (VArr [VNum 1])).
    intros m. reflexivity.
Defined.

Lemma transport_send_unreachable m st :
  unreachable st ->
  exists e, transport st m = Some e /\ transport_send m st = (inr e, st).
Proof.
  intros Hdown. unfold transport_send. specialize (Hdown m).
  destruct (transport st m) as [e|]; [eauto|done].
Qed.

Lemma handleMessageError_unreachable m error st :
  unreachable st ->
  exists e env, transport st env = Some e /\
                handleMessageError m error st = (inr e, st).
Proof.
  intros Hdown. unfold handleMessageError, sendErrorResponse.
  destruct error;
    match goal with
    | |- context [transport_send ?env st] =>
        destruct (transport_send_unreachable env st Hdown) as (terr & He & ->);
        by exists terr, env
    end.
Qed.

(** X9: with a transport that rejects every write, [handleMessage] does
    throw for every message that needs an answer: the promise it returns
    is rejected with an error of the transport, nothing is sent and the
    state is unchanged. *)
Theorem handleMessage_throws_when_unreachable (st : McpProtocol) (m : obj) :
  unreachable st ->
  needs_answer m = true ->
  exists e env,
    transport st env = Some e /\ handleMessage m st = (inr e, st).
Proof.
  intros Hdown Hneed. unfold needs_answer in Hneed.
  unfold handleMessage, try_catch.
  destruct (validate m) as [|z|] eqn:Hv.
  - unfold validate in Hv. unfold processMessage. rewrite Hneed in *.
    destruct (JsonRpcRequestSchema m) as [r|]; [|done].
    assert (Hreq : exists e, handleRequest r st = (inr e, st)).
    { unfold handleRequest, try_catch, sendResponse, sendErrorResponse, throw.
      destruct (requestHandlers st !! req_method r) as [h|].
      - destruct (h (req_params r) (req_id r)) as [v|error].
        + match goal with
          | |- context [transport_send ?env st] =>
              destruct (transport_send_unreachable env st Hdown) as (terr & _ & ->)
          end.
          destruct terr;
            match goal with
            | |- context [transport_send ?env st] =>
                destruct (transport_send_unreachable env st Hdown) as (terr' & _ & ->)
            end; eauto.
        + destruct error;
            match goal with
            | |- context [transport_send ?env st] =>
                destruct (transport_send_unreachable env st Hdown) as (terr' & _ & ->)
            end; eauto.
      - match goal with
        | |- context [transport_send ?env st] =>
            destruct (transport_send_unreachable env st Hdown) as (terr' & _ & ->)
        end. eauto. }
    destruct Hreq as [e ->]. by apply handleMessageError_unreachable.
  - rewrite (processMessage_schema_failure _ _ _ Hv).
    by apply handleMessageError_unreachable.
  - rewrite (processMessage_unclassified _ _ Hv).
    by apply handleMessageError_unreachable.
Qed.

Lemma handleMessage_throws_when_unreachable_witness :
  exists e env,
    transport Sample.fresh_broken env = Some e /\
    handleMessage
      [("jsonrpc", VStr "2.0"); ("id", VNum 3); ("method", VStr "nonexistent")]
      Sample.fresh_broken = (inr e, Sample.fresh_broken).
Proof.
  apply (handleMessage_throws_when_unreachable Sample.fresh_broken).
  - intros m. discriminate.
  - reflexivity.
Defined.

(** ** Envelopes written by one dispatcher and read by another *)

Lemma request_envelope_parses i method params :
  isRequest (request_envelope i method params) = true /\
  JsonRpcRequestSchema (request_envelope i method params)
    = inl (mkRequest (IdNum i) method params).
Proof. unfold request_envelope; destruct params; by split. Qed.





Lemma response_envelope_parses id r :
  isRequest (response_envelope id r) = false /\
  isResponse (response_envelope id r) = true /\
  JsonRpcResponseSchema (response_envelope id r) =
    inl (mkResponse (Some id)
           match r with inl result => result | inr _ => VUndefined end
           match r with
           | inl _ => None
           | inr error =>
               Some (mkErrorObject
                       (code (handler_failure error))
                       (message (handler_failure error))
                       (Obj.prop "data" (toJsonRpcError (handler_failure error))))
           end).
Proof.
  destruct r as [result|error]; simpl.
  - by destruct id.
  - unfold error_envelope, toJsonRpcError.
    destruct (truthy (data (handler_failure error))), id; by repeat split.
Qed.

Lemma outstanding_response_settles i p m r st :
  outstanding i p st ->
  isRequest m = false ->
  isResponse m = true ->
  JsonRpcResponseSchema m = inl r ->
  resp_id r = Some i ->
  promises (handleMessage m st).2 !! p =
    Some match resp_error r with
         | Some e =>
             Rejected (EMcp (mkMcpError (err_code e) (err_message e) (err_data e)))
         | None => Fulfilled (resp_result r)
         end.
Proof.
  intros [Hp Hpend] Hq Hc Hs Hi. unfold handleMessage, try_catch.
  rewrite (processMessage_response _ _ _ Hq Hc Hs). simpl.
  rewrite (handleResponse_matched r i p st Hi Hp).
  by apply settle_fresh.
Qed.

(** X12: a full round trip between two dispatchers over the wire: each
    message is what the peer decodes from what the sender wrote.  The
    requester, in any state reached from construction, sends a request
    that its transport accepts; the responder has a handler for the
    method and an accepting transport.  The responder calls the handler
    and answers with exactly one Response.  When that Response reaches
    the requester (after any events that bring no other response with
    that id), the requester's promise is fulfilled with the value the
    handler returned, as far as JSON carries it, or rejected with an
    [McpError] that has the code and message of the handler's failure (an
    untyped failure arrives as -32603 'Internal error') and its data as
    far as [toJsonRpcError] and JSON carry it.  When the handler returned
    [undefined], the Response arrives without a [result]: the promise
    stays pending, and the requester, if its transport accepts the write,
    sends back an Invalid Request error addressed to the id. *)
Theorem request_response_round_trip (t : Transport) (opts : McpServerOptions)
    (history later : list event) (method : string) (params : value)
    (responder : McpProtocol) (h : MessageHandler) :
  let requester := run history (new_McpProtocol t opts) in
  let i := messageId requester + 1 in
  let p := (sendRequest method params requester).1 in
  let waiting := run later (sendRequest method params requester).2 in
  let returned := h (json_roundtrip params) (IdNum i) in
  transport requester (request_envelope i method params) = None ->
  Forall (fun ev => responds_to (IdNum i) ev = false) later ->
  reliable responder ->
  requestHandlers responder !! method = Some h ->
  handleMessage (wire (request_envelope i method params)) responder =
    (inl tt,
     with_sentMessages
       (sentMessages responder ++ [response_envelope (IdNum i) returned])
       responder) /\
  promises
    (handleMessage (wire (response_envelope (IdNum i) returned)) waiting).2 !! p
    = Some match returned with
           | inl VUndefined => Pending
           | inl result => Fulfilled (json_roundtrip result)
           | inr error =>
               Rejected
                 (EMcp (mkMcpError
                          (code (handler_failure error))
                          (message (handler_failure error))
                          (if truthy (data (handler_failure error))
                           then json_roundtrip (data (handler_failure error))
                           else VUndefined)))
           end /\
  (returned = inl VUndefined ->
   reliable waiting ->
   handleMessage (wire (response_envelope (IdNum i) returned)) waiting =
     (inl tt,
      with_sentMessages
        (sentMessages waiting ++
           [error_envelope (VNum i)
              (InvalidRequestError "Invalid message format" VUndefined)])
        waiting)).
Proof.
  intros requester i p waiting returned Hsent Hlater Hok Hh.
  rewrite wire_request_envelope.
  destruct (request_envelope_parses i method (json_roundtrip params)) as [Hq Hs].
  split; [|split].
  - unfold handleMessage, try_catch.
    rewrite (processMessage_request _ _ Hq Hs).
    rewrite (handleRequest_reliable _ h _ Hok) by done. simpl.
    unfold returned, response_envelope, handler_failure.
    by destruct (h (json_roundtrip params) (IdNum i)) as [v|[]].
  - assert (Hc : consistent requester) by apply run_consistent, consistent_new.
    assert (Hout : outstanding (IdNum i) p waiting).
    { apply run_outstanding; [by apply sendRequest_consistent|done|].
      by apply sendRequest_accepted. }
    assert (Hvalue : forall r : value + exn, r <> inl VUndefined ->
      promises (handleMessage (wire (response_envelope (IdNum i) r)) waiting).2 !! p
      = Some match r with
             | inl result => Fulfilled (json_roundtrip result)
             | inr error =>
                 Rejected
                   (EMcp (mkMcpError
                            (code (handler_failure error))
                            (message (handler_failure error))
                            (if truthy (data (handler_failure error))
                             then json_roundtrip (data (handler_failure error))
                             else VUndefined)))
             end).
    { intros r Hr.
      destruct (wire_response_parses (IdNum i) r Hr) as (Hq' & Hc' & Hs').
      rewrite (outstanding_response_settles _ _ _ _ _ Hout Hq' Hc' Hs' eq_refl).
      simpl. by destruct r. }
    destruct returned as [result|error]; [|by apply Hvalue].
    destruct result; try by apply Hvalue.
    rewrite wire_response_envelope. simpl.
    destruct (handleMessage_cases [("jsonrpc", VStr "2.0"); ("id", VNum i)] waiting)
      as [Hsame|(_ & Hr & _)]; [|done].
    by destruct (outstanding_same _ _ _ _ Hout Hsame).
  - intros -> Hwaiting. rewrite wire_response_envelope. simpl.
    by rewrite (handleMessage_unclassified _ _ Hwaiting).
Qed.

Lemma request_response_round_trip_witness :
  promises
    (handleMessage
       (wire (response_envelope (IdNum 1)
                (inl (VObj [("kept", VNum 1); ("lost", VUndefined)]))))
       (sendRequest "custom/method" VUndefined Sample.fresh).2).2 !! 0%nat
    = Some (Fulfilled (VObj [("kept", VNum 1)])) /\
  promises
    (handleMessage
       (wire (response_envelope (IdNum 1) (inl VUndefined)))
       (sendRequest "logging/setLevel" (VObj [("level", VStr "debug")])
          Sample.fresh).2).2 !! 0%nat
    = Some Pending.
Proof.
  split.
  - destruct (request_response_round_trip Sample.accepting Sample.opts [] []
                "custom/method" VUndefined
                (onRequest "custom/method"
                   (fun _ _ => inl (VObj [("kept", VNum 1); ("lost", VUndefined)]))
                   Sample.fresh)
                (fun _ _ => inl (VObj [("kept", VNum 1); ("lost", VUndefined)])))
      as (_ & H & _).
    + reflexivity.
    + constructor.
    + intros m. reflexivity.
    + reflexivity.
    + exact H.
  - destruct (request_response_round_trip Sample.accepting Sample.opts [] []
                "logging/setLevel" (VObj [("level", VStr "debug")])
                (onRequest "logging/setLevel" (fun _ _ => inl VUndefined)
                   Sample.fresh)
                (fun _ _ => inl VUndefined))
      as (_ & H & _).
    + reflexivity.
    + constructor.
    + intros m. reflexivity.
    + reflexivity.
    + exact H.
Defined.


(** * Properties of the method router *)

Lemma same_wiring_refl st : same_wiring st st.
Proof. by repeat split. Qed.

Lemma same_wiring_trans st1 st2 st3 :
  same_wiring st1 st2 -> same_wiring st2 st3 -> same_wiring st1 st3.
Proof.
  intros (Ha & Hb & Hc & Hd) (Ha' & Hb' & Hc' & Hd'). repeat split; congruence.
Qed.

Lemma wiring_transport_send m : keeps_wiring (transport_send m).
Proof.
  intros st. unfold transport_send. destruct (transport st m); by repeat split.
Qed.

Lemma wiring_try_catch {A} (f : Async A) (h : exn -> Async A) :
  keeps_wiring f -> (forall e, keeps_wiring (h e)) -> keeps_wiring (try_catch f h).
Proof.
  intros Hf Hh st. unfold try_catch.
  specialize (Hf st). destruct (f st) as [[a|e] st']; [done|].
  simpl in Hf. eapply same_wiring_trans; [exact Hf|apply Hh].
Qed.

Lemma wiring_handleRequest r : keeps_wiring (handleRequest r).
Proof.
  intros st. unfold handleRequest.
  destruct (requestHandlers st !! req_method r) as [h|].
  - apply wiring_try_catch.
    + destruct (h (req_params r) (req_id r));
        [apply wiring_transport_send|intros s; apply same_wiring_refl].
    + intros []; apply wiring_transport_send.
  - apply wiring_transport_send.
Qed.

Lemma wiring_handleResponse r st : same_wiring st (handleResponse r st).
Proof.
  unfold handleResponse. destruct (resp_id r) as [i|]; [|apply same_wiring_refl].
  destruct (pendingRequests st !! i); [|apply same_wiring_refl].
  destruct (resp_error r); unfold settle; simpl;
    repeat case_match; by repeat split.
Qed.

Lemma wiring_handleMessage m : keeps_wiring (handleMessage m).
Proof.
  unfold handleMessage. apply wiring_try_catch.
  - intros st. unfold processMessage.
    destruct (isRequest m).
    { destruct (JsonRpcRequestSchema m);
        [apply wiring_handleRequest|apply same_wiring_refl]. }
    destruct (isResponse m).
    { destruct (JsonRpcResponseSchema m);
        [apply wiring_handleResponse|apply same_wiring_refl]. }
    destruct (isNotification m); [|apply same_wiring_refl].
    destruct (JsonRpcNotificationSchema m) as [n|]; [|apply same_wiring_refl].
    unfold handleNotification.
    destruct (notificationHandlers st !! notif_method n) as [h|];
      [destruct (h (notif_params n))|]; by repeat split.
  - intros e st. destruct e; apply wiring_transport_send.
Qed.

Lemma routed_new rt t opts : routed (new_McpServer rt t opts).
Proof. by eexists. Qed.

Lemma routed_set_providers ps srv : routed (set_providers ps srv).
Proof. by eexists. Qed.

Lemma routed_on_protocol {A} (f : Async A) srv :
  keeps_wiring f -> routed srv -> routed (on_protocol f srv).2.
Proof.
  intros Hf [base Hb]. unfold on_protocol.
  specialize (Hf (protocol srv)). destruct (f (protocol srv)) as [r st].
  destruct Hf as (Hh & _). exists base. simpl in *. congruence.
Qed.

Lemma server_step_routed ev srv : routed srv -> routed (server_step ev srv).
Proof.
  intros Hr.
  destruct ev; simpl;
    try apply routed_set_providers;
    try (apply (routed_on_protocol _ srv); [apply wiring_transport_send|done]).
  apply (routed_on_protocol (handleMessage m) srv); [apply wiring_handleMessage|done].
Qed.

Lemma server_run_routed evs srv : routed srv -> routed (server_run evs srv).
Proof.
  revert srv. induction evs as [|ev evs IH]; intros srv Hr; [done|].
  simpl. apply IH. by apply server_step_routed.
Qed.

Lemma server_step_runtime ev srv : runtime (server_step ev srv) = runtime srv.
Proof.
  destruct ev; simpl; try done;
    unfold server_receive, notifyResourceChanged, notifyResourceListChanged,
      notifyToolListChanged, notifyPromptListChanged, notifyRootListChanged,
      sendLog, on_protocol;
    by case_match.
Qed.

Lemma server_run_runtime evs srv : runtime (server_run evs srv) = runtime srv.
Proof.
  revert srv. induction evs as [|ev evs IH]; intros srv; [done|].
  simpl. by rewrite IH, server_step_runtime.
Qed.

(** The eleven bindings installed by [setupHandlers]. *)
Lemma setupHandlers_table rt ps base :
  let table := requestHandlers (setupHandlers rt ps base) in
  table !! "resources/list" = Some (fun _ _ => handleListResources ps) /\
  table !! "resources/read" = Some (fun params _ => handleReadResource ps params) /\
  table !! "resources/subscribe"
    = Some (fun params _ => handleSubscribeResource ps params) /\
  table !! "resources/unsubscribe"
    = Some (fun params _ => handleUnsubscribeResource ps params) /\
  table !! "tools/list" = Some (fun _ _ => handleListTools ps) /\
  table !! "tools/call" = Some (fun params _ => handleCallTool rt ps params) /\
  table !! "prompts/list" = Some (fun _ _ => handleListPrompts ps) /\
  table !! "prompts/get" = Some (fun params _ => handleGetPrompt ps params) /\
  table !! "roots/list" = Some (fun _ _ => handleListRoots ps) /\
  table !! "logging/setLevel" = Some (fun params _ => handleSetLogLevel ps params) /\
  table !! "sampling/createMessage"
    = Some (fun params _ => handleCreateMessage ps params).
Proof.
  unfold setupHandlers, onRequest. simpl.
  repeat split;
    repeat (rewrite lookup_insert_ne by discriminate);
    apply lookup_insert_eq.
Qed.

(** A request that reaches a server is answered with the envelope of the
    outcome of the handler bound to its method. *)
Lemma server_receive_request srv m r h :
  reliable (protocol srv) ->
  isRequest m = true ->
  JsonRpcRequestSchema m = inl r ->
  requestHandlers (protocol srv) !! req_method r = Some h ->
  server_receive m srv =
    (inl tt,
     mkServer
       (with_sentMessages
          (sentMessages (protocol srv) ++
             [response_envelope (req_id r) (h (req_params r) (req_id r))])
          (protocol srv))
       (providers srv) (runtime srv)).
Proof.
  intros Hok Hc Hs Hh. unfold server_receive, handleMessage, try_catch.
  rewrite (processMessage_request _ _ Hc Hs).
  rewrite (handleRequest_reliable _ _ _ Hok Hh).
  unfold response_envelope, handler_failure.
  by destruct (h (req_params r) (req_id r)) as [v|[]].
Qed.

Lemma reachable_server_dispatch rt t opts evs srv m r h :
  srv = server_run evs (new_McpServer rt t opts) ->
  reliable (protocol srv) ->
  isRequest m = true ->
  JsonRpcRequestSchema m = inl r ->
  (forall base,
     requestHandlers (setupHandlers rt (providers srv) base) !! req_method r
       = Some h) ->
  server_receive m srv =
    (inl tt,
     mkServer
       (with_sentMessages
          (sentMessages (protocol srv) ++
             [response_envelope (req_id r) (h (req_params r) (req_id r))])
          (protocol srv))
       (providers srv) (runtime srv)).
Proof.
  intros Hsrv Hok Hc Hs Hh.
  apply server_receive_request; try done.
  destruct (server_run_routed evs _ (routed_new rt t opts)) as [base Hb].
  rewrite <- Hsrv in Hb. rewrite Hb.
  replace (runtime srv) with rt
    by (rewrite Hsrv; symmetry; apply server_run_runtime).
  apply Hh.
Qed.

(** X14: on a server in any state reached from construction, a list
    request ([resources/list], [tools/list], [prompts/list],
    [roots/list]) for which no provider is set is answered with a result
    holding the empty list under the matching key. *)
Theorem list_without_provider_is_empty (rt : Runtime) (t : Transport)
    (opts : McpServerOptions) (evs : list server_event) (m : obj)
    (r : JsonRpcRequest) (key : string) :
  let srv := server_run evs (new_McpServer rt t opts) in
  reliable (protocol srv) ->
  isRequest m = true ->
  JsonRpcRequestSchema m = inl r ->
  (req_method r = "resources/list" /\ key = "resources" /\
   resourceProvider (providers srv) = None) \/
  (req_method r = "tools/list" /\ key = "tools" /\
   toolProvider (providers srv) = None) \/
  (req_method r = "prompts/list" /\ key = "prompts" /\
   promptProvider (providers srv) = None) \/
  (req_method r = "roots/list" /\ key = "roots" /\
   rootProvider (providers srv) = None) ->
  server_receive m srv =
    (inl tt,
     mkServer
       (with_sentMessages
          (sentMessages (protocol srv) ++
             [[("jsonrpc", VStr "2.0"); ("id", id_value (req_id r));
               ("result", VObj [(key, VArr [])])]])
          (protocol srv))
       (providers srv) (runtime srv)).
Proof.
  intros srv Hok Hc Hs Hcase.
  destruct Hcase as [(Hm & -> & Hp)|[(Hm & -> & Hp)|[(Hm & -> & Hp)|(Hm & -> & Hp)]]].
  - rewrite (reachable_server_dispatch rt t opts evs srv m r
               (fun _ _ => handleListResources (providers srv)) eq_refl); try done.
    + unfold handleListResources. by rewrite Hp.
    + intros base. rewrite Hm. apply setupHandlers_table.
  - rewrite (reachable_server_dispatch rt t opts evs srv m r
               (fun _ _ => handleListTools (providers srv)) eq_refl); try done.
    + unfold handleListTools. by rewrite Hp.
    + intros base. rewrite Hm. apply setupHandlers_table.
  - rewrite (reachable_server_dispatch rt t opts evs srv m r
               (fun _ _ => handleListPrompts (providers srv)) eq_refl); try done.
    + unfold handleListPrompts. by rewrite Hp.
    + intros base. rewrite Hm. apply setupHandlers_table.
  - rewrite (reachable_server_dispatch rt t opts evs srv m r
               (fun _ _ => handleListRoots (providers srv)) eq_refl); try done.
    + unfold handleListRoots. by rewrite Hp.
    + intros base. rewrite Hm. apply setupHandlers_table.
Qed.

Lemma list_without_provider_is_empty_witness :
  sentMessages
    (protocol
       (server_receive
          [("jsonrpc", VStr "2.0"); ("id", VNum 1); ("method", VStr "tools/list")]
          (server_run
             [SrvSetLoggingProvider (mkLoggingProvider (fun _ => None))]
             (new_McpServer Sample.rt Sample.accepting Sample.opts))).2) =
    [[("jsonrpc", VStr "2.0"); ("id", VNum 1);
      ("result", VObj [("tools", VArr [])])]].
Proof.
  rewrite (list_without_provider_is_empty Sample.rt Sample.accepting Sample.opts
             [SrvSetLoggingProvider (mkLoggingProvider (fun _ => None))]
             [("jsonrpc", VStr "2.0"); ("id", VNum 1); ("method", VStr "tools/list")]
             (mkRequest (IdNum 1) "tools/list" VUndefined) "tools").
  - reflexivity.
  - intros m. reflexivity.
  - reflexivity.
  - reflexivity.
  - right. left. repeat split.
Defined.

(** X15: on a server in any state reached from construction, an action
    request whose provider is missing fails whatever its params are:
    [resources/read] with code -32001, [tools/call] with code -32002,
    [prompts/get] with code -32003, and [resources/subscribe] and
    [resources/unsubscribe] with code -32602, the last two also when a
    resource provider is set but lacks the optional method.  The error
    has the message given below and no data. *)
Theorem action_without_provider_fails (rt : Runtime) (t : Transport)
    (opts : McpServerOptions) (evs : list server_event) (m : obj)
    (r : JsonRpcRequest) (c : Z) (msg : string) :
  let srv := server_run evs (new_McpServer rt t opts) in
  reliable (protocol srv) ->
  isRequest m = true ->
  JsonRpcRequestSchema m = inl r ->
  (req_method r = "resources/read" /\ resourceProvider (providers srv) = None /\
   c = -32001 /\ msg = "Resource not found: No resource provider configured") \/
  (req_method r = "tools/call" /\ toolProvider (providers srv) = None /\
   c = -32002 /\
   msg = "Tool execution error in unknown: No tool provider configured") \/
  (req_method r = "prompts/get" /\ promptProvider (providers srv) = None /\
   c = -32003 /\ msg = "Prompt not found: No prompt provider configured") \/
  (req_method r = "resources/subscribe" /\
   (resourceProvider (providers srv) ≫= subscribeToResource) = None /\
   c = -32602 /\ msg = "Resource subscription not supported") \/
  (req_method r = "resources/unsubscribe" /\
   (resourceProvider (providers srv) ≫= unsubscribeFromResource) = None /\
   c = -32602 /\ msg = "Resource unsubscription not supported") ->
  server_receive m srv =
    (inl tt,
     mkServer
       (with_sentMessages
          (sentMessages (protocol srv) ++
             [[("jsonrpc", VStr "2.0"); ("id", id_value (req_id r));
               ("error", VObj [("code", VNum c); ("message", VStr msg)])]])
          (protocol srv))
       (providers srv) (runtime srv)).
Proof.
  intros srv Hok Hc Hs Hcase.
  destruct Hcase as [(Hm & Hp & -> & ->)|[(Hm & Hp & -> & ->)|[(Hm & Hp & -> & ->)
                    |[(Hm & Hp & -> & ->)|(Hm & Hp & -> & ->)]]]].
  - rewrite (reachable_server_dispatch rt t opts evs srv m r
               (fun params _ => handleReadResource (providers srv) params) eq_refl);
      try done.
    + unfold handleReadResource. rewrite Hp. simpl. unfold error_envelope.
      by rewrite nullish_id_value.
    + intros base. rewrite Hm. apply setupHandlers_table.
  - rewrite (reachable_server_dispatch rt t opts evs srv m r
               (fun params _ => handleCallTool rt (providers srv) params) eq_refl);
      try done.
    + unfold handleCallTool. rewrite Hp. simpl. unfold error_envelope.
      by rewrite nullish_id_value.
    + intros base. rewrite Hm. apply setupHandlers_table.
  - rewrite (reachable_server_dispatch rt t opts evs srv m r
               (fun params _ => handleGetPrompt (providers srv) params) eq_refl);
      try done.
    + unfold handleGetPrompt. rewrite Hp. simpl. unfold error_envelope.
      by rewrite nullish_id_value.
    + intros base. rewrite Hm. apply setupHandlers_table.
  - rewrite (reachable_server_dispatch rt t opts evs srv m r
               (fun params _ => handleSubscribeResource (providers srv) params) eq_refl);
      try done.
    + unfold handleSubscribeResource. rewrite Hp. simpl. unfold error_envelope.
      by rewrite nullish_id_value.
    + intros base. rewrite Hm. apply setupHandlers_table.
  - rewrite (reachable_server_dispatch rt t opts evs srv m r
               (fun params _ => handleUnsubscribeResource (providers srv) params) eq_refl);
      try done.
    + unfold handleUnsubscribeResource. rewrite Hp. simpl. unfold error_envelope.
      by rewrite nullish_id_value.
    + intros base. rewrite Hm. apply setupHandlers_table.
Qed.

Lemma action_without_provider_fails_witness :
  sentMessages
    (protocol
       (server_receive
          [("jsonrpc", VStr "2.0"); ("id", VNum 1); ("method", VStr "tools/call");
           ("params", VObj [("name", VStr "echo")])]
          (server_run [] (new_McpServer Sample.rt Sample.accepting Sample.opts))).2) =
    [[("jsonrpc", VStr "2.0"); ("id", VNum 1);
      ("error",
       VObj [("code", VNum (-32002));
             ("message",
              VStr "Tool execution error in unknown: No tool provider configured")])]].
Proof.
  rewrite (action_without_provider_fails Sample.rt Sample.accepting Sample.opts
             []
             [("jsonrpc", VStr "2.0"); ("id", VNum 1); ("method", VStr "tools/call");
              ("params", VObj [("name", VStr "echo")])]
             (mkRequest (IdNum 1) "tools/call" (VObj [("name", VStr "echo")]))
             (-32002)
             "Tool execution error in unknown: No tool provider configured").
  - reflexivity.
  - intros m. reflexivity.
  - reflexivity.
  - reflexivity.
  - right. left. repeat split.
Defined.

(** X16: [tools/call] never forwards the error of the tool provider.
    Whatever [callTool] fails with, a typed protocol error included, the
    peer receives code -32002 with the message 'Tool execution error in
    NAME: DESCRIPTION' and no data; the provider's own code and data are
    lost. *)
Theorem tools_call_failure_is_rewrapped (rt : Runtime) (t : Transport)
    (opts : McpServerOptions) (evs : list server_event) (m : obj)
    (r : JsonRpcRequest) (p : ToolProvider) (o : obj) (error : exn) :
  let srv := server_run evs (new_McpServer rt t opts) in
  reliable (protocol srv) ->
  isRequest m = true ->
  JsonRpcRequestSchema m = inl r ->
  req_method r = "tools/call" ->
  toolProvider (providers srv) = Some p ->
  req_params r = VObj o ->
  Obj.has "name" o = true ->
  callTool p (Obj.prop "name" o)
    match Obj.prop "arguments" o with VUndefined => VObj [] | a => a end
    = inr error ->
  server_receive m srv =
    (inl tt,
     mkServer
       (with_sentMessages
          (sentMessages (protocol srv) ++
             [[("jsonrpc", VStr "2.0"); ("id", id_value (req_id r));
               ("error",
                VObj [("code", VNum (-32002));
                      ("message",
                       VStr ("Tool execution error in "
                               +:+ template_text rt (Obj.prop "name" o)
                               +:+ ": " +:+ describe error))])]])
          (protocol srv))
       (providers srv) (runtime srv)).
Proof.
  intros srv Hok Hc Hs Hm Hp Hparams Hname Hcall.
  rewrite (reachable_server_dispatch rt t opts evs srv m r
             (fun params _ => handleCallTool rt (providers srv) params) eq_refl);
    try done.
  - unfold handleCallTool, params_with. rewrite Hp, Hparams, Hname, Hcall.
    simpl. unfold error_envelope. by rewrite nullish_id_value.
  - intros base. rewrite Hm. apply setupHandlers_table.
Qed.

Lemma tools_call_failure_is_rewrapped_witness :
  sentMessages
    (protocol
       (server_receive
          [("jsonrpc", VStr "2.0"); ("id", VNum 1); ("method", VStr "tools/call");
           ("params", VObj [("name", VStr "echo")])]
          (server_run
             [SrvSetToolProvider
                (mkToolProvider (inl (VArr []))
                   (fun _ _ =>
                      inr (EMcp (mkMcpError (-32602) "Invalid tool arguments: x"
                                   (VStr "detail")))))]
             (new_McpServer (mkRuntime (fun v => v) (fun _ => "echo"))
                Sample.accepting Sample.opts))).2) =
    [[("jsonrpc", VStr "2.0"); ("id", VNum 1);
      ("error",
       VObj [("code", VNum (-32002));
             ("message",
              VStr "Tool execution error in echo: Invalid tool arguments: x")])]].
Proof.
  rewrite (tools_call_failure_is_rewrapped
             (mkRuntime (fun v => v) (fun _ => "echo"))
             Sample.accepting Sample.opts
             [SrvSetToolProvider
                (mkToolProvider (inl (VArr []))
                   (fun _ _ =>
                      inr (EMcp (mkMcpError (-32602) "Invalid tool arguments: x"
                                   (VStr "detail")))))]
             [("jsonrpc", VStr "2.0"); ("id", VNum 1); ("method", VStr "tools/call");
              ("params", VObj [("name", VStr "echo")])]
             (mkRequest (IdNum 1) "tools/call" (VObj [("name", VStr "echo")]))
             (mkToolProvider (inl (VArr []))
                (fun _ _ =>
                   inr (EMcp (mkMcpError (-32602) "Invalid tool arguments: x"
                                (VStr "detail")))))
             [("name", VStr "echo")]
             (EMcp (mkMcpError (-32602) "Invalid tool arguments: x" (VStr "detail")))).
  - reflexivity.
  - intros m. reflexivity.
  - reflexivity.
  - reflexivity.
  - reflexivity.
  - reflexivity.
  - reflexivity.
  - reflexivity.
  - reflexivity.
Defined.

(** X17: a successful [tools/call] is answered with one text item: a
    string result is passed on as it is, any other result is replaced by
    its [JSON.stringify(result, null, 2)]; the tool receives an empty
    object when the params carry no [arguments]. *)
Theorem tools_call_result_is_text (rt : Runtime) (t : Transport)
    (opts : McpServerOptions) (evs : list server_event) (m : obj)
    (r : JsonRpcRequest) (p : ToolProvider) (o : obj) (result : value) :
  let srv := server_run evs (new_McpServer rt t opts) in
  reliable (protocol srv) ->
  isRequest m = true ->
  JsonRpcRequestSchema m = inl r ->
  req_method r = "tools/call" ->
  toolProvider (providers srv) = Some p ->
  req_params r = VObj o ->
  Obj.has "name" o = true ->
  callTool p (Obj.prop "name" o)
    match Obj.prop "arguments" o with VUndefined => VObj [] | a => a end
    = inl result ->
  server_receive m srv =
    (inl tt,
     mkServer
       (with_sentMessages
          (sentMessages (protocol srv) ++
             [[("jsonrpc", VStr "2.0"); ("id", id_value (req_id r));
               ("result",
                VObj [("content",
                       VArr [VObj [("type", VStr "text");
                                   ("text",
                                    match result with
                                    | VStr _ => result
                                    | _ => JSON_stringify rt result
                                    end)]])])]])
          (protocol srv))
       (providers srv) (runtime srv)).
Proof.
  intros srv Hok Hc Hs Hm Hp Hparams Hname Hcall.
  rewrite (reachable_server_dispatch rt t opts evs srv m r
             (fun params _ => handleCallTool rt (providers srv) params) eq_refl);
    try done.
  - unfold handleCallTool, params_with. by rewrite Hp, Hparams, Hname, Hcall.
  - intros base. rewrite Hm. apply setupHandlers_table.
Qed.

Lemma tools_call_result_is_text_witness :
  sentMessages
    (protocol
       (server_receive
          [("jsonrpc", VStr "2.0"); ("id", VNum 1); ("method", VStr "tools/call");
           ("params", VObj [("name", VStr "echo");
                            ("arguments", VObj [("message", VStr "hi")])])]
          (server_run
             [SrvSetToolProvider
                (mkToolProvider (inl (VArr []))
                   (fun _ args =>
                      match args with
                      | VObj a => inl (Obj.prop "message" a)
                      | _ => inr (EError "no arguments")
                      end))]
             (new_McpServer Sample.rt Sample.accepting Sample.opts))).2) =
    [[("jsonrpc", VStr "2.0"); ("id", VNum 1);
      ("result",
       VObj [("content",
              VArr [VObj [("type", VStr "text"); ("text", VStr "hi")]])])]].
Proof.
  rewrite (tools_call_result_is_text Sample.rt Sample.accepting Sample.opts
             [SrvSetToolProvider
                (mkToolProvider (inl (VArr []))
                   (fun _ args =>
                      match args with
                      | VObj a => inl (Obj.prop "message" a)
                      | _ => inr (EError "no arguments")
                      end))]
             [("jsonrpc", VStr "2.0"); ("id", VNum 1); ("method", VStr "tools/call");
              ("params", VObj [("name", VStr "echo");
                               ("arguments", VObj [("message", VStr "hi")])])]
             (mkRequest (IdNum 1) "tools/call"
                (VObj [("name", VStr "echo");
                       ("arguments", VObj [("message", VStr "hi")])]))
             (mkToolProvider (inl (VArr []))
                (fun _ args =>
                   match args with
                   | VObj a => inl (Obj.prop "message" a)
                   | _ => inr (EError "no arguments")
                   end))
             [("name", VStr "echo"); ("arguments", VObj [("message", VStr "hi")])]
             (VStr "hi")).
  - reflexivity.
  - intros m. reflexivity.
  - reflexivity.
  - reflexivity.
  - reflexivity.
  - reflexivity.
  - reflexivity.
  - reflexivity.
  - reflexivity.
Defined.

Lemma server_step_toolProvider ev srv :
  sets_tool_provider ev = false ->
  toolProvider (providers (server_step ev srv)) = toolProvider (providers srv).
Proof.
  destruct ev; simpl; try done; intros _;
    unfold server_receive, notifyResourceChanged, notifyResourceListChanged,
      notifyToolListChanged, notifyPromptListChanged, notifyRootListChanged,
      sendLog, on_protocol;
    by case_match.
Qed.

Lemma server_run_toolProvider evs srv :
  Forall (fun ev => sets_tool_provider ev = false) evs ->
  toolProvider (providers (server_run evs srv)) = toolProvider (providers srv).
Proof.
  revert srv. induction evs as [|ev evs IH]; intros srv Hall; [done|].
  inversion Hall as [|? ? Hev Hall']; subst. simpl.
  by rewrite IH, server_step_toolProvider.
Qed.

Lemma server_run_app evs evs' srv :
  server_run (evs ++ evs') srv = server_run evs' (server_run evs srv).
Proof. unfold server_run. by rewrite fold_left_app. Qed.

(** X18: a provider set with [setToolProvider] is the one that answers
    from then on, whatever providers were set before and whatever
    happens afterwards short of another [setToolProvider] (messages
    arriving, notifications being sent, other providers being set): it
    stays the tool provider of the server, and [tools/list] is answered
    with its list under [tools], or with the error of its [listTools]. *)
Theorem latest_tool_provider_answers (rt : Runtime) (t : Transport)
    (opts : McpServerOptions) (evs later : list server_event) (p : ToolProvider)
    (m : obj) (r : JsonRpcRequest) :
  let srv :=
    server_run (evs ++ SrvSetToolProvider p :: later) (new_McpServer rt t opts) in
  Forall (fun ev => sets_tool_provider ev = false) later ->
  reliable (protocol srv) ->
  isRequest m = true ->
  JsonRpcRequestSchema m = inl r ->
  req_method r = "tools/list" ->
  toolProvider (providers srv) = Some p /\
  server_receive m srv =
    (inl tt,
     mkServer
       (with_sentMessages
          (sentMessages (protocol srv) ++
             [response_envelope (req_id r)
                match listTools p with
                | inl tools => inl (VObj [("tools", tools)])
                | inr error => inr error
                end])
          (protocol srv))
       (providers srv) (runtime srv)).
Proof.
  intros srv Hlater Hok Hc Hs Hm.
  assert (Hp : toolProvider (providers srv) = Some p).
  { unfold srv. rewrite server_run_app. simpl.
    by rewrite (server_run_toolProvider later _ Hlater). }
  split; [done|].
  rewrite (reachable_server_dispatch rt t opts _ srv m r
             (fun _ _ => handleListTools (providers srv)) eq_refl);
    try done.
  - unfold handleListTools. by rewrite Hp.
  - intros base. rewrite Hm. apply setupHandlers_table.
Qed.

Lemma latest_tool_provider_answers_witness :
  sentMessages
    (protocol
       (server_receive
          [("jsonrpc", VStr "2.0"); ("id", VNum 1); ("method", VStr "tools/list")]
          (server_run
             ([SrvSetToolProvider
                 (mkToolProvider (inl (VArr [VStr "old"])) (fun _ _ => inl VNull))]
                ++ SrvSetToolProvider
                     (mkToolProvider (inl (VArr [VStr "new"]))
                        (fun _ _ => inl VNull))
                :: [SrvSetLoggingProvider (mkLoggingProvider (fun _ => None));
                    SrvReceive
                      [("jsonrpc", VStr "2.0"); ("id", VNum 7);
                       ("method", VStr "resources/list")];
                    SrvNotifyToolListChanged])
             (new_McpServer Sample.rt Sample.accepting Sample.opts))).2) =
    [[("jsonrpc", VStr "2.0"); ("id", VNum 7);
      ("result", VObj [("resources", VArr [])])];
     [("jsonrpc", VStr "2.0");
      ("method", VStr "notifications/tools/list_changed")];
     [("jsonrpc", VStr "2.0"); ("id", VNum 1);
      ("result", VObj [("tools", VArr [VStr "new"])])]].
Proof.
  destruct (latest_tool_provider_answers Sample.rt Sample.accepting Sample.opts
             [SrvSetToolProvider
                (mkToolProvider (inl (VArr [VStr "old"])) (fun _ _ => inl VNull))]
             [SrvSetLoggingProvider (mkLoggingProvider (fun _ => None));
              SrvReceive
                [("jsonrpc", VStr "2.0"); ("id", VNum 7);
                 ("method", VStr "resources/list")];
              SrvNotifyToolListChanged]
             (mkToolProvider (inl (VArr [VStr "new"])) (fun _ _ => inl VNull))
             [("jsonrpc", VStr "2.0"); ("id", VNum 1); ("method", VStr "tools/list")]
             (mkRequest (IdNum 1) "tools/list" VUndefined)) as [_ H].
  - repeat constructor.
  - intros m. reflexivity.
  - reflexivity.
  - reflexivity.
  - reflexivity.
  - rewrite H. reflexivity.
Defined.

(** X19: when the provider of an action request is set, params that are
    not an object holding the required property ([uri], [name], [level]
    or [messages]; so also [null], an array or no params at all) are
    rejected with code -32602 and the message 'Missing required
    parameter: ' followed by the property, without consulting the
    provider. *)
Theorem missing_parameter_is_invalid_params (rt : Runtime) (t : Transport)
    (opts : McpServerOptions) (evs : list server_event) (m : obj)
    (r : JsonRpcRequest) (k : string) :
  let srv := server_run evs (new_McpServer rt t opts) in
  reliable (protocol srv) ->
  isRequest m = true ->
  JsonRpcRequestSchema m = inl r ->
  (req_method r = "resources/read" /\ k = "uri" /\
   is_Some (resourceProvider (providers srv))) \/
  (req_method r = "resources/subscribe" /\ k = "uri" /\
   is_Some (resourceProvider (providers srv) ≫= subscribeToResource)) \/
  (req_method r = "resources/unsubscribe" /\ k = "uri" /\
   is_Some (resourceProvider (providers srv) ≫= unsubscribeFromResource)) \/
  (req_method r = "tools/call" /\ k = "name" /\
   is_Some (toolProvider (providers srv))) \/
  (req_method r = "prompts/get" /\ k = "name" /\
   is_Some (promptProvider (providers srv))) \/
  (req_method r = "logging/setLevel" /\ k = "level" /\
   is_Some (loggingProvider (providers srv))) \/
  (req_method r = "sampling/createMessage" /\ k = "messages" /\
   is_Some (samplingProvider (providers srv))) ->
  params_with k (req_params r) = None ->
  server_receive m srv =
    (inl tt,
     mkServer
       (with_sentMessages
          (sentMessages (protocol srv) ++
             [[("jsonrpc", VStr "2.0"); ("id", id_value (req_id r));
               ("error",
                VObj [("code", VNum (-32602));
                      ("message", VStr ("Missing required parameter: " +:+ k))])]])
          (protocol srv))
       (providers srv) (runtime srv)).
Proof.
  intros srv Hok Hc Hs Hcase Hmissing.
  destruct Hcase as [(Hm & -> & [p Hp])|[(Hm & -> & [p Hp])|[(Hm & -> & [p Hp])
    |[(Hm & -> & [p Hp])|[(Hm & -> & [p Hp])|[(Hm & -> & [p Hp])|(Hm & -> & [p Hp])]]]]]].
  - rewrite (reachable_server_dispatch rt t opts evs srv m r
               (fun params _ => handleReadResource (providers srv) params) eq_refl);
      try done.
    + unfold handleReadResource. rewrite Hp, Hmissing. simpl.
      unfold error_envelope. by rewrite nullish_id_value.
    + intros base. rewrite Hm. apply setupHandlers_table.
  - rewrite (reachable_server_dispatch rt t opts evs srv m r
               (fun params _ => handleSubscribeResource (providers srv) params)
               eq_refl); try done.
    + unfold handleSubscribeResource. rewrite Hp, Hmissing. simpl.
      unfold error_envelope. by rewrite nullish_id_value.
    + intros base. rewrite Hm. apply setupHandlers_table.
  - rewrite (reachable_server_dispatch rt t opts evs srv m r
               (fun params _ => handleUnsubscribeResource (providers srv) params)
               eq_refl); try done.
    + unfold handleUnsubscribeResource. rewrite Hp, Hmissing. simpl.
      unfold error_envelope. by rewrite nullish_id_value.
    + intros base. rewrite Hm. apply setupHandlers_table.
  - rewrite (reachable_server_dispatch rt t opts evs srv m r
               (fun params _ => handleCallTool rt (providers srv) params) eq_refl);
      try done.
    + unfold handleCallTool. rewrite Hp, Hmissing. simpl.
      unfold error_envelope. by rewrite nullish_id_value.
    + intros base. rewrite Hm. apply setupHandlers_table.
  - rewrite (reachable_server_dispatch rt t opts evs srv m r
               (fun params _ => handleGetPrompt (providers srv) params) eq_refl);
      try done.
    + unfold handleGetPrompt. rewrite Hp, Hmissing. simpl.
      unfold error_envelope. by rewrite nullish_id_value.
    + intros base. rewrite Hm. apply setupHandlers_table.
  - rewrite (reachable_server_dispatch rt t opts evs srv m r
               (fun params _ => handleSetLogLevel (providers srv) params) eq_refl);
      try done.
    + unfold handleSetLogLevel. rewrite Hp, Hmissing. simpl.
      unfold error_envelope. by rewrite nullish_id_value.
    + intros base. rewrite Hm. apply setupHandlers_table.
  - rewrite (reachable_server_dispatch rt t opts evs srv m r
               (fun params _ => handleCreateMessage (providers srv) params) eq_refl);
      try done.
    + unfold handleCreateMessage. rewrite Hp, Hmissing. simpl.
      unfold error_envelope. by rewrite nullish_id_value.
    + intros base. rewrite Hm. apply setupHandlers_table.
Qed.

Lemma missing_parameter_is_invalid_params_witness :
  sentMessages
    (protocol
       (server_receive
          [("jsonrpc", VStr "2.0"); ("id", VNum 1);
           ("method", VStr "logging/setLevel"); ("params", VArr [VStr "debug"])]
          (server_run
             [SrvSetLoggingProvider (mkLoggingProvider (fun _ => None))]
             (new_McpServer Sample.rt Sample.accepting Sample.opts))).2) =
    [[("jsonrpc", VStr "2.0"); ("id", VNum 1);
      ("error",
       VObj [("code", VNum (-32602));
             ("message", VStr "Missing required parameter: level")])]].
Proof.
  rewrite (missing_parameter_is_invalid_params Sample.rt Sample.accepting
             Sample.opts
             [SrvSetLoggingProvider (mkLoggingProvider (fun _ => None))]
             [("jsonrpc", VStr "2.0"); ("id", VNum 1);
              ("method", VStr "logging/setLevel"); ("params", VArr [VStr "debug"])]
             (mkRequest (IdNum 1) "logging/setLevel" (VArr [VStr "debug"]))
             "level").
  - reflexivity.
  - intros m. reflexivity.
  - reflexivity.
  - reflexivity.
  - do 5 right. left. repeat split. by eexists.
  - reflexivity.
Defined.

(** X20: [resources/read] passes the value under [uri], whatever its
    type, to the provider and forwards the provider's outcome: the
    contents are returned as the single element of [contents], a typed
    protocol error reaches the peer with its own code and message, and any
    other failure becomes an Internal error. *)
Theorem resources_read_forwards_provider_outcome (rt : Runtime) (t : Transport)
    (opts : McpServerOptions) (evs : list server_event) (m : obj)
    (r : JsonRpcRequest) (p : ResourceProvider) (o : obj) :
  let srv := server_run evs (new_McpServer rt t opts) in
  reliable (protocol srv) ->
  isRequest m = true ->
  JsonRpcRequestSchema m = inl r ->
  req_method r = "resources/read" ->
  resourceProvider (providers srv) = Some p ->
  req_params r = VObj o ->
  Obj.has "uri" o = true ->
  server_receive m srv =
    (inl tt,
     mkServer
       (with_sentMessages
          (sentMessages (protocol srv) ++
             [match readResource p (Obj.prop "uri" o) with
              | inl contents =>
                  [("jsonrpc", VStr "2.0"); ("id", id_value (req_id r));
                   ("result", VObj [("contents", VArr [contents])])]
              | inr (EMcp e) => error_envelope (id_value (req_id r)) e
              | inr error =>
                  error_envelope (id_value (req_id r)) (internal_error error)
              end])
          (protocol srv))
       (providers srv) (runtime srv)).
Proof.
  intros srv Hok Hc Hs Hm Hp Hparams Huri.
  rewrite (reachable_server_dispatch rt t opts evs srv m r
             (fun params _ => handleReadResource (providers srv) params) eq_refl);
    try done.
  - unfold handleReadResource, params_with. rewrite Hp, Hparams, Huri.
    by destruct (readResource p (Obj.prop "uri" o)) as [c|[]].
  - intros base. rewrite Hm. apply setupHandlers_table.
Qed.

Lemma resources_read_forwards_provider_outcome_witness :
  sentMessages
    (protocol
       (server_receive
          [("jsonrpc", VStr "2.0"); ("id", VNum 1);
           ("method", VStr "resources/read"); ("params", VObj [("uri", VNum 42)])]
          (server_run
             [SrvSetResourceProvider
                (mkResourceProvider (inl (VArr []))
                   (fun uri =>
                      inr (EMcp (mkMcpError (-32001) "Resource not found: 42"
                                   VUndefined)))
                   None None)]
             (new_McpServer Sample.rt Sample.accepting Sample.opts))).2) =
    [[("jsonrpc", VStr "2.0"); ("id", VNum 1);
      ("error",
       VObj [("code", VNum (-32001));
             ("message", VStr "Resource not found: 42")])]].
Proof.
  rewrite (resources_read_forwards_provider_outcome Sample.rt Sample.accepting
             Sample.opts
             [SrvSetResourceProvider
                (mkResourceProvider (inl (VArr []))
                   (fun uri =>
                      inr (EMcp (mkMcpError (-32001) "Resource not found: 42"
                                   VUndefined)))
                   None None)]
             [("jsonrpc", VStr "2.0"); ("id", VNum 1);
              ("method", VStr "resources/read"); ("params", VObj [("uri", VNum 42)])]
             (mkRequest (IdNum 1) "resources/read" (VObj [("uri", VNum 42)]))
             (mkResourceProvider (inl (VArr []))
                (fun uri =>
                   inr (EMcp (mkMcpError (-32001) "Resource not found: 42"
                                VUndefined)))
                None None)
             [("uri", VNum 42)]).
  - reflexivity.
  - intros m. reflexivity.
  - reflexivity.
  - reflexivity.
  - reflexivity.
  - reflexivity.
  - reflexivity.
  - reflexivity.
Defined.

(** * Properties of the resource slice *)

(** ** Maps and sets *)

Section jsmap.
Context {V : Type}.
Implicit Types (m : list (string * V)) (k : string) (v : V).

Lemma jsmap_get_set_eq k v m : JsMap.get k (JsMap.set k v m) = Some v.
Proof.
  induction m as [|[k' v'] m IH]; simpl.
  - by rewrite String.eqb_refl.
  - destruct (String.eqb k k') eqn:E; simpl.
    + by rewrite String.eqb_refl.
    + by rewrite E.
Qed.


Lemma jsmap_get_delete_eq k m : JsMap.get k (JsMap.delete k m) = None.
Proof.
  induction m as [|[k' v'] m IH]; simpl; [done|].
  destruct (String.eqb k k') eqn:E; simpl; [done|]. by rewrite E.
Qed.

Lemma jsmap_get_delete_ne k k' m :
  k <> k' -> JsMap.get k' (JsMap.delete k m) = JsMap.get k' m.
Proof.
  intros Hne. induction m as [|[k0 v0] m IH]; simpl; [done|].
  destruct (String.eqb k k0) eqn:E; simpl.
  - apply String.eqb_eq in E. subst k0.
    destruct (String.eqb k' k) eqn:E'; [|done].
    apply String.eqb_eq in E'. congruence.
  - by rewrite IH.
Qed.

Lemma jsmap_get_None k m : JsMap.get k m = None <-> ~ In k (JsMap.keys m).
Proof.
  induction m as [|[k' v'] m IH]; simpl; [tauto|].
  destruct (String.eqb k k') eqn:E.
  - apply String.eqb_eq in E. subst. split; [done|]. intros H. destruct H. by left.
  - apply String.eqb_neq in E. rewrite IH. split.
    + intros H [Heq|Hin]; [congruence|done].
    + intros H Hin. apply H. by right.
Qed.

Lemma jsmap_keys_set k v m :
  JsMap.keys (JsMap.set k v m) =
    if JsMap.has k m then JsMap.keys m else JsMap.keys m ++ [k].
Proof.
  unfold JsMap.has. induction m as [|[k' v'] m IH]; simpl; [done|].
  destruct (String.eqb k k') eqn:E; simpl.
  - apply String.eqb_eq in E. by subst.
  - rewrite IH. by destruct (JsMap.get k m).
Qed.

Lemma jsmap_size_set k v m :
  JsMap.size (JsMap.set k v m) =
    if JsMap.has k m then JsMap.size m else S (JsMap.size m).
Proof.
  unfold JsMap.size. rewrite <- !(length_map fst).
  change (map fst ?x) with (JsMap.keys x). rewrite jsmap_keys_set.
  destruct (JsMap.has k m); [done|]. rewrite length_app. simpl. lia.
Qed.

Lemma jsmap_nodup_set k v m :
  List.NoDup (JsMap.keys m) -> List.NoDup (JsMap.keys (JsMap.set k v m)).
Proof.
  intros Hnd. rewrite jsmap_keys_set. unfold JsMap.has.
  destruct (JsMap.get k m) eqn:E; [done|].
  apply jsmap_get_None in E.
  apply NoDup_ListNoDup, NoDup_app. apply NoDup_ListNoDup in Hnd.
  split; [done|]. split.
  - intros x Hx Hx'. apply list_elem_of_singleton in Hx'. subst.
    by apply list_elem_of_In in Hx.
  - apply NoDup_singleton.
Qed.

Lemma jsmap_keys_filter (f : string * V -> bool) m x :
  In x (JsMap.keys (List.filter f m)) -> In x (JsMap.keys m).
Proof.
  induction m as [|[k' v'] m IH]; simpl; [done|].
  destruct (f (k', v')); simpl; intuition.
Qed.

Lemma jsmap_nodup_filter (f : string * V -> bool) m :
  List.NoDup (JsMap.keys m) -> List.NoDup (JsMap.keys (List.filter f m)).
Proof.
  induction m as [|[k' v'] m IH]; simpl; [done|].
  intros Hnd. inversion Hnd as [|? ? Hnotin Hnd']; subst.
  destruct (f (k', v')); simpl; [|by apply IH].
  constructor; [|by apply IH].
  intros Hin. apply Hnotin. by eapply jsmap_keys_filter.
Qed.

End jsmap.

Section jsmap_forall.
Context {V : Type} (P : string * V -> Prop).

Lemma jsmap_forall_set k v (m : list (string * V)) :
  List.Forall P m -> P (k, v) -> List.Forall P (JsMap.set k v m).
Proof.
  intros Hm Hkv. induction m as [|[k' v'] m IH]; simpl.
  - by constructor.
  - inversion Hm; subst. destruct (String.eqb k k'); constructor; auto.
Qed.

Lemma jsmap_forall_filter (f : string * V -> bool) (m : list (string * V)) :
  List.Forall P m -> List.Forall P (List.filter f m).
Proof.
  induction m as [|kv m IH]; simpl; [done|].
  intros Hm. inversion Hm; subst. destruct (f kv); [constructor|]; auto.
Qed.

Lemma jsmap_forall_get k v (m : list (string * V)) :
  List.Forall P m -> JsMap.get k m = Some v -> P (k, v).
Proof.
  induction m as [|[k' v'] m IH]; simpl; [done|].
  intros Hm. inversion Hm; subst.
  destruct (String.eqb k k') eqn:E; [|auto].
  apply String.eqb_eq in E. by intros [= <-]; subst.
Qed.

End jsmap_forall.

Lemma jsmap_set_set {V : Type} k (v v' : V) (m : list (string * V)) :
  JsMap.set k v (JsMap.set k v' m) = JsMap.set k v m.
Proof.
  induction m as [|[k0 v0] m IH]; simpl.
  - by rewrite String.eqb_refl.
  - destruct (String.eqb k k0) eqn:E; simpl.
    + by rewrite String.eqb_refl.
    + by rewrite E, IH.
Qed.

Lemma jsset_has_In x s : JsSet.has x s = true <-> In x s.
Proof.
  unfold JsSet.has. rewrite existsb_exists. split.
  - intros (y & Hy & Heq). apply Nat.eqb_eq in Heq. by subst.
  - intros H. exists x. split; [done|]. apply Nat.eqb_refl.
Qed.

Lemma jsset_add_nodup x s : List.NoDup s -> List.NoDup (JsSet.add x s).
Proof.
  intros Hnd. unfold JsSet.add. destruct (JsSet.has x s) eqn:E; [done|].
  apply NoDup_ListNoDup, NoDup_app. apply NoDup_ListNoDup in Hnd.
  split; [done|]. split; [|apply NoDup_singleton].
  intros y Hy Hy'. apply list_elem_of_singleton in Hy'. subst.
  apply list_elem_of_In, jsset_has_In in Hy. congruence.
Qed.

Lemma jsset_add_length x s :
  length (JsSet.add x s) = if JsSet.has x s then length s else S (length s).
Proof.
  unfold JsSet.add. destruct (JsSet.has x s); [done|].
  rewrite length_app. simpl. lia.
Qed.

Lemma jsset_delete_nodup x s : List.NoDup s -> List.NoDup (JsSet.delete x s).
Proof. apply List.NoDup_filter. Qed.

Lemma jsset_delete_length x s :
  List.NoDup s ->
  length (JsSet.delete x s) =
    if JsSet.has x s then (length s - 1)%nat else length s.
Proof.
  unfold JsSet.delete, JsSet.has.
  induction s as [|y s IH]; simpl; [done|].
  intros Hnd. inversion Hnd as [|? ? Hnotin Hnd']; subst.
  destruct (Nat.eqb x y) eqn:E; simpl.
  - apply Nat.eqb_eq in E. subst y.
    assert (Hno : existsb (Nat.eqb x) s = false).
    { destruct (existsb (Nat.eqb x) s) eqn:Hex; [|done].
      apply jsset_has_In in Hex. done. }
    rewrite IH by done. rewrite Hno. lia.
  - rewrite IH by done. destruct (existsb (Nat.eqb x) s) eqn:Hex; [|done].
    apply jsset_has_In in Hex. destruct s; [done|]. simpl. lia.
Qed.

(** ** The resource registry *)

Lemma registry_wf_apply o reg :
  registry_wf reg -> registry_wf (DefaultResourceRegistry.apply o reg).
Proof.
  intros (Hr & Hu & Hs & Hc). destruct o as [resource|uri| |uri cb|uri cb]; simpl.
  - repeat split; simpl; try done.
    + by apply jsmap_nodup_set.
    + by apply jsmap_forall_set.
  - repeat split; simpl.
    + by apply jsmap_nodup_filter.
    + by apply jsmap_forall_filter.
    + by apply jsmap_nodup_filter.
    + by apply jsmap_forall_filter.
  - repeat split; simpl; constructor.
  - unfold DefaultResourceRegistry.subscribe, JsMap.has.
    destruct (JsMap.get uri (DefaultResourceRegistry.subscriptions reg))
      as [cbs|] eqn:E.
    + rewrite E. repeat split; simpl; try done.
      * by apply jsmap_nodup_set.
      * apply jsmap_forall_set; [done|]. simpl.
        pose proof (jsmap_forall_get _ _ _ _ Hc E) as [Hnd _]. simpl in Hnd.
        split; [by apply jsset_add_nodup|].
        unfold JsSet.add. destruct (JsSet.has cb cbs); [|by destruct cbs].
        intros ->. by pose proof (jsmap_forall_get _ _ _ _ Hc E) as [_ ?].
    + rewrite jsmap_get_set_eq, jsmap_set_set. repeat split; simpl; try done.
      * by apply jsmap_nodup_set.
      * apply jsmap_forall_set; [done|]. simpl.
        split; [repeat constructor; tauto|done].
  - unfold DefaultResourceRegistry.unsubscribe.
    destruct (JsMap.get uri (DefaultResourceRegistry.subscriptions reg))
      as [cbs|] eqn:E; [|done].
    pose proof (jsmap_forall_get _ _ _ _ Hc E) as [Hnd _]. simpl in Hnd.
    destruct (Nat.eqb (length (JsSet.delete cb cbs)) 0) eqn:El.
    + repeat split; simpl; try done.
      * by apply jsmap_nodup_filter.
      * by apply jsmap_forall_filter.
    + repeat split; simpl; try done.
      * by apply jsmap_nodup_set.
      * apply jsmap_forall_set; [done|]. simpl.
        split; [by apply jsset_delete_nodup|].
        intros Hnil. rewrite Hnil in El. done.
Qed.

Lemma registry_wf_run ops reg :
  registry_wf reg -> registry_wf (DefaultResourceRegistry.run ops reg).
Proof.
  revert reg. induction ops as [|o ops IH]; intros reg Hwf; [done|].
  simpl. apply IH. by apply registry_wf_apply.
Qed.

Lemma registry_wf_empty : registry_wf DefaultResourceRegistry.empty.
Proof. repeat split; constructor. Qed.

Lemma jsmap_get_Some_In {V : Type} k (v : V) (m : list (string * V)) :
  JsMap.get k m = Some v -> In k (JsMap.keys m).
Proof.
  induction m as [|[k' v'] m IH]; simpl; [done|].
  destruct (String.eqb k k') eqn:E.
  - apply String.eqb_eq in E. subst. by left.
  - intros H. right. by apply IH.
Qed.

Lemma listed_uris_are_keys (l : list (string * ResourceDefinition)) :
  List.Forall (fun kv => rd_uri (snd kv) = fst kv) l ->
  map res_uri
    (map (fun resource =>
            mkMcpResource (rd_uri resource) (rd_name resource)
              (rd_description resource) (rd_mimeType resource))
       (JsMap.values l)) = JsMap.keys l.
Proof.
  unfold JsMap.values, JsMap.keys.
  induction 1 as [|kv l Hkv Hl IH]; simpl; [done|].
  by rewrite Hkv, IH.
Qed.

Lemma jsmap_keys_delete {V : Type} k (m : list (string * V)) :
  JsMap.keys (JsMap.delete k m)
    = List.filter (fun k' => negb (String.eqb k k')) (JsMap.keys m).
Proof.
  unfold JsMap.keys, JsMap.delete.
  induction m as [|[k' v'] m IH]; simpl; [done|].
  destruct (String.eqb k k'); simpl; [exact IH|by rewrite IH].
Qed.

(** X21: whatever calls a registry has received since it was created,
    [list()] shows every registered uri exactly once, in the order of
    [uris()]; [size()] is the number of those uris and [has(uri)] holds
    exactly for them.  The order is that of the underlying [Map]:
    registering a uri that is not registered puts it last, registering a
    registered uri again leaves the order as it is, and [unregister]
    takes the uri out and keeps the others in order (so a uri that is
    unregistered and registered again moves to the end). *)
Theorem registry_lists_each_uri_once (ops : list DefaultResourceRegistry.op) :
  let reg := DefaultResourceRegistry.run ops DefaultResourceRegistry.empty in
  List.NoDup (DefaultResourceRegistry.uris reg) /\
  map res_uri (DefaultResourceRegistry.list_ reg)
    = DefaultResourceRegistry.uris reg /\
  DefaultResourceRegistry.size reg
    = length (DefaultResourceRegistry.uris reg) /\
  (forall uri,
     DefaultResourceRegistry.has uri reg = true
     <-> In uri (DefaultResourceRegistry.uris reg)) /\
  (forall resource,
     DefaultResourceRegistry.uris (DefaultResourceRegistry.register resource reg)
       = if DefaultResourceRegistry.has (rd_uri resource) reg
         then DefaultResourceRegistry.uris reg
         else DefaultResourceRegistry.uris reg ++ [rd_uri resource]) /\
  (forall uri,
     DefaultResourceRegistry.uris (DefaultResourceRegistry.unregister uri reg)
       = List.filter (fun u => negb (String.eqb uri u))
           (DefaultResourceRegistry.uris reg)).
Proof.
  intros reg.
  destruct (registry_wf_run ops _ registry_wf_empty) as (Hr & Hu & _).
  fold reg in Hr, Hu. split; [done|]. split; [|split; [|split; [|split]]].
  - by apply listed_uris_are_keys.
  - unfold DefaultResourceRegistry.size, DefaultResourceRegistry.uris,
      JsMap.size, JsMap.keys. by rewrite length_map.
  - intros uri.
    unfold DefaultResourceRegistry.has, DefaultResourceRegistry.uris, JsMap.has.
    destruct (JsMap.get uri (DefaultResourceRegistry.resources reg)) eqn:E.
    + split; [|done]. intros _. by eapply jsmap_get_Some_In.
    + apply jsmap_get_None in E. split; [discriminate|]. intros Hin. by destruct E.
  - intros resource. apply jsmap_keys_set.
  - intros uri. apply jsmap_keys_delete.
Qed.

Lemma registry_order_after_reregistration :
  DefaultResourceRegistry.uris
    (DefaultResourceRegistry.run
       [DefaultResourceRegistry.Register
          (McpResourceProvider.createStaticResource "memory://a" "A" "a" None None);
        DefaultResourceRegistry.Register
          (McpResourceProvider.createStaticResource "memory://b" "B" "b" None None);
        DefaultResourceRegistry.Unregister "memory://a";
        DefaultResourceRegistry.Register
          (McpResourceProvider.createStaticResource "memory://a" "A" "a" None None)]
       DefaultResourceRegistry.empty) = ["memory://b"; "memory://a"].
Proof. reflexivity. Qed.

(** X22: [unregister(uri)] removes the resource and all the
    subscriptions stored for the uri, and nothing else: afterwards
    [has(uri)] is false and [getSubscriptionCount(uri)] is 0, while every
    other uri keeps its resource and its subscription count. *)
Theorem unregister_removes_resource_and_subscriptions
    (reg : DefaultResourceRegistry.state) (uri : string) :
  DefaultResourceRegistry.has uri (DefaultResourceRegistry.unregister uri reg)
    = false /\
  DefaultResourceRegistry.getSubscriptionCount uri
    (DefaultResourceRegistry.unregister uri reg) = 0%nat /\
  forall other, other <> uri ->
    DefaultResourceRegistry.get other (DefaultResourceRegistry.unregister uri reg)
      = DefaultResourceRegistry.get other reg /\
    DefaultResourceRegistry.getSubscriptionCount other
      (DefaultResourceRegistry.unregister uri reg)
      = DefaultResourceRegistry.getSubscriptionCount other reg.
Proof.
  unfold DefaultResourceRegistry.has, DefaultResourceRegistry.get,
    DefaultResourceRegistry.getSubscriptionCount,
    DefaultResourceRegistry.unregister, JsMap.has. simpl.
  rewrite !jsmap_get_delete_eq. repeat split; try done.
  - by apply jsmap_get_delete_ne.
  - by rewrite jsmap_get_delete_ne.
Qed.

(** X23: the subscribers of a uri form a set.  On a registry in any
    state reached since its creation, [subscribe] raises the subscription
    count of the uri by one unless the callback is already subscribed,
    in which case nothing changes, and [unsubscribe] lowers it by one
    exactly when the callback was subscribed; the uri need not be
    registered. *)
Theorem subscription_count_is_a_set_size (ops : list DefaultResourceRegistry.op)
    (uri : string) (callback : nat) :
  let reg := DefaultResourceRegistry.run ops DefaultResourceRegistry.empty in
  let count := DefaultResourceRegistry.getSubscriptionCount uri reg in
  DefaultResourceRegistry.getSubscriptionCount uri
    (DefaultResourceRegistry.subscribe uri callback reg)
    = (if subscribed uri callback reg then count else S count) /\
  DefaultResourceRegistry.getSubscriptionCount uri
    (DefaultResourceRegistry.unsubscribe uri callback reg)
    = (if subscribed uri callback reg then (count - 1)%nat else count).
Proof.
  intros reg count.
  destruct (registry_wf_run ops _ registry_wf_empty) as (_ & _ & _ & Hc).
  fold reg in Hc. unfold count, subscribed,
    DefaultResourceRegistry.getSubscriptionCount,
    DefaultResourceRegistry.subscribe, DefaultResourceRegistry.unsubscribe,
    JsMap.has.
  destruct (JsMap.get uri (DefaultResourceRegistry.subscriptions reg))
    as [cbs|] eqn:E.
  - pose proof (jsmap_forall_get _ _ _ _ Hc E) as [Hnd _]. simpl in Hnd.
    rewrite E. simpl. rewrite jsmap_get_set_eq, jsset_add_length. split; [done|].
    destruct (Nat.eqb (length (JsSet.delete callback cbs)) 0) eqn:El; simpl.
    + rewrite jsmap_get_delete_eq. apply Nat.eqb_eq in El.
      rewrite jsset_delete_length in El by done.
      destruct (JsSet.has callback cbs) eqn:Hh; [lia|].
      pose proof (jsmap_forall_get _ _ _ _ Hc E) as [_ Hne]. simpl in Hne.
      by destruct cbs.
    + rewrite jsmap_get_set_eq. by apply jsset_delete_length.
  - rewrite jsmap_get_set_eq. simpl. rewrite jsmap_set_set, jsmap_get_set_eq.
    by rewrite E.
Qed.

(** ** The resource cache *)

Section cache_entries.
Context {C : Type}.
Implicit Types (c : @MemoryResourceCache.state C) (cts : C).

Lemma ttl_used_positive ttl c d : ttl_used ttl c = Some d -> 0 < d.
Proof.
  unfold ttl_used. intros H.
  destruct ttl as [d'|]; [destruct (0 <? d')%Z eqn:E|];
    try (injection H as <-; by apply Z.ltb_lt in E);
    destruct (0 <? MemoryResourceCache.defaultTtl c)%Z eqn:E';
    try discriminate; injection H as <-; by apply Z.ltb_lt in E'.
Qed.

Lemma cache_set_entry now uri cts ttl c :
  MemoryResourceCache.cache (MemoryResourceCache.set now uri cts ttl c) =
    JsMap.set uri
      (MemoryResourceCache.mkEntry cts
         match ttl_used ttl c with Some d => Some (now + d) | None => None end)
      (MemoryResourceCache.cache c).
Proof.
  unfold MemoryResourceCache.set, ttl_used. simpl. f_equal. f_equal.
  destruct ttl as [d|]; [destruct (0 <? d)%Z|];
    by destruct (0 <? MemoryResourceCache.defaultTtl c)%Z.
Qed.

Lemma cache_get_absent now uri c :
  JsMap.get uri (MemoryResourceCache.cache c) = None ->
  MemoryResourceCache.get now uri c = (None, c).
Proof. intros H. unfold MemoryResourceCache.get. by rewrite H. Qed.

Lemma cache_get_miss now uri c :
  (MemoryResourceCache.get now uri c).1 = None ->
  JsMap.get uri (MemoryResourceCache.cache (MemoryResourceCache.get now uri c).2)
    = None /\
  MemoryResourceCache.defaultTtl (MemoryResourceCache.get now uri c).2
    = MemoryResourceCache.defaultTtl c /\
  forall other, other <> uri ->
    JsMap.get other (MemoryResourceCache.cache (MemoryResourceCache.get now uri c).2)
      = JsMap.get other (MemoryResourceCache.cache c).
Proof.
  unfold MemoryResourceCache.get.
  destruct (JsMap.get uri (MemoryResourceCache.cache c)) as [entry|] eqn:E.
  - destruct (MemoryResourceCache.expired now entry); simpl; [|done].
    intros _. split; [apply jsmap_get_delete_eq|]. split; [done|].
    intros other Hne. by apply jsmap_get_delete_ne.
  - by intros _.
Qed.

End cache_entries.

(** X24: contents stored with [set] are returned by [get] as long as
    their time to live has not run out: up to and including the instant
    [now + ttl], and for ever when neither the given ttl nor the default
    is positive.  An explicit ttl of 0 or less does not switch caching
    off: the default ttl applies.  Such a [get] changes nothing. *)
Theorem cache_hit_within_ttl (now now' : Z) (uri : string)
    (cts : McpResourceContents) (ttl : option Z)
    (c : MemoryResourceCache.state) :
  match ttl_used ttl c with
  | Some d => now' <= now + d
  | None => True
  end ->
  MemoryResourceCache.get now' uri (MemoryResourceCache.set now uri cts ttl c)
    = (Some cts, MemoryResourceCache.set now uri cts ttl c).
Proof.
  intros Hlive. unfold MemoryResourceCache.get.
  rewrite cache_set_entry, jsmap_get_set_eq.
  unfold MemoryResourceCache.expired. simpl.
  destruct (ttl_used ttl c) as [d|]; [|done].
  assert (Hlt : (now + d <? now')%Z = false) by (apply Z.ltb_ge; lia).
  by rewrite Hlt, andb_false_r.
Qed.

Lemma cache_hit_within_ttl_witness :
  MemoryResourceCache.get 1100 "test://example.txt"
    (MemoryResourceCache.set 1000 "test://example.txt"
       (mkContents "test://example.txt" (Some "text/plain") (Some "Hello World")
          None)
       (Some 0) (MemoryResourceCache.new (Some 100)))
    = (Some (mkContents "test://example.txt" (Some "text/plain")
               (Some "Hello World") None),
       MemoryResourceCache.set 1000 "test://example.txt"
         (mkContents "test://example.txt" (Some "text/plain")
            (Some "Hello World") None)
         (Some 0) (MemoryResourceCache.new (Some 100))).
Proof.
  apply (cache_hit_within_ttl 1000 1100). simpl. lia.
Defined.

(** X25: once the time to live has run out (the clock is strictly past
    [now + ttl]), [get] returns [undefined] and removes the entry, so that
    [has] is false at any later reading of the clock. *)
Theorem cache_entry_expires (now now' now'' : Z) (uri : string)
    (cts : McpResourceContents) (ttl : option Z)
    (c : MemoryResourceCache.state) (d : Z) :
  ttl_used ttl c = Some d ->
  0 <= now ->
  now + d < now' ->
  let looked :=
    MemoryResourceCache.get now' uri (MemoryResourceCache.set now uri cts ttl c) in
  looked.1 = None /\
  JsMap.get uri (MemoryResourceCache.cache looked.2) = None /\
  (MemoryResourceCache.has now'' uri looked.2).1 = false.
Proof.
  intros Hd Hnow Hlate looked.
  pose proof (ttl_used_positive _ _ _ Hd) as Hpos.
  assert (Hlooked : looked =
    (None,
     MemoryResourceCache.mkState
       (JsMap.delete uri
          (MemoryResourceCache.cache (MemoryResourceCache.set now uri cts ttl c)))
       (MemoryResourceCache.defaultTtl c))).
  { unfold looked, MemoryResourceCache.get.
    rewrite cache_set_entry, jsmap_get_set_eq.
    unfold MemoryResourceCache.expired. simpl. rewrite Hd.
    assert (Hz : (now + d =? 0)%Z = false) by (apply Z.eqb_neq; lia).
    assert (Hlt : (now + d <? now')%Z = true) by (apply Z.ltb_lt; lia).
    by rewrite Hz, Hlt. }
  rewrite Hlooked. simpl. split; [done|].
  unfold MemoryResourceCache.has. simpl.
  by rewrite jsmap_get_delete_eq.
Qed.

Lemma cache_entry_expires_witness :
  (MemoryResourceCache.get 1151 "test://example.txt"
     (MemoryResourceCache.set 1000 "test://example.txt"
        (mkContents "test://example.txt" None (Some "Hello World") None)
        None (MemoryResourceCache.new (Some 100)))).1 = None.
Proof.
  destruct (cache_entry_expires 1000 1151 1151 "test://example.txt"
              (mkContents "test://example.txt" None (Some "Hello World") None)
              None (MemoryResourceCache.new (Some 100)) 100) as (H & _).
  - reflexivity.
  - lia.
  - lia.
  - exact H.
Defined.

Lemma jsmap_get_filter {V : Type} (f : string * V -> bool) k
    (m : list (string * V)) :
  List.NoDup (JsMap.keys m) ->
  JsMap.get k (List.filter f m) =
    match JsMap.get k m with
    | Some v => if f (k, v) then Some v else None
    | None => None
    end.
Proof.
  induction m as [|[k' v'] m IH]; simpl; [done|].
  intros Hnd. inversion Hnd as [|? ? Hnotin Hnd']; subst.
  destruct (String.eqb k k') eqn:E.
  - apply String.eqb_eq in E. subst k'.
    destruct (f (k, v')) eqn:Hf; simpl.
    + by rewrite String.eqb_refl.
    + apply jsmap_get_None. intros Hin. apply Hnotin.
      by eapply jsmap_keys_filter.
  - destruct (f (k', v')); simpl; [rewrite E|]; by apply IH.
Qed.

Lemma cache_keys_unique_apply o c :
  List.NoDup (JsMap.keys (MemoryResourceCache.cache c)) ->
  List.NoDup (JsMap.keys (MemoryResourceCache.cache (cache_apply o c))).
Proof.
  intros Hnd. destruct o; simpl.
  - unfold MemoryResourceCache.get.
    destruct (JsMap.get uri (MemoryResourceCache.cache c)) as [entry|]; [|done].
    destruct (MemoryResourceCache.expired now entry); [|done].
    by apply jsmap_nodup_filter.
  - by apply jsmap_nodup_set.
  - by apply jsmap_nodup_filter.
  - constructor.
  - unfold MemoryResourceCache.has.
    destruct (JsMap.get uri (MemoryResourceCache.cache c)) as [entry|]; [|done].
    destruct (MemoryResourceCache.expired now entry); [|done].
    by apply jsmap_nodup_filter.
  - by apply jsmap_nodup_filter.
  - done.
Qed.

Lemma cache_keys_unique_run ops c :
  List.NoDup (JsMap.keys (MemoryResourceCache.cache c)) ->
  List.NoDup (JsMap.keys (MemoryResourceCache.cache (cache_run ops c))).
Proof.
  revert c. induction ops as [|o ops IH]; intros c Hnd; [done|].
  simpl. apply IH. by apply cache_keys_unique_apply.
Qed.

(** X26: [cleanup] removes the expired entries and only those.  On a
    cache in any state reached since its creation, after [cleanup] no
    remaining entry is expired, the cache is not larger than before, and
    [get] at the same reading of the clock returns for every uri what it
    would have returned without the cleanup. *)
Theorem cleanup_removes_exactly_the_expired (ttl : option Z)
    (ops : list cache_op) (now : Z) (uri : string) :
  let c := cache_run ops (MemoryResourceCache.new ttl) in
  List.Forall (fun kv => MemoryResourceCache.expired now (snd kv) = false)
    (MemoryResourceCache.cache (MemoryResourceCache.cleanup now c)) /\
  (MemoryResourceCache.size (MemoryResourceCache.cleanup now c)
     <= MemoryResourceCache.size c)%nat /\
  (MemoryResourceCache.get now uri (MemoryResourceCache.cleanup now c)).1
    = (MemoryResourceCache.get now uri c).1.
Proof.
  intros c.
  assert (Hnd : List.NoDup (JsMap.keys (MemoryResourceCache.cache c))).
  { apply cache_keys_unique_run. constructor. }
  split; [|split].
  - unfold MemoryResourceCache.cleanup. simpl.
    apply List.Forall_forall. intros kv Hin.
    apply List.filter_In in Hin as [_ Hf]. by apply negb_true_iff in Hf.
  - unfold MemoryResourceCache.size, MemoryResourceCache.cleanup, JsMap.size.
    simpl. apply List.filter_length_le.
  - unfold MemoryResourceCache.get, MemoryResourceCache.cleanup. simpl.
    rewrite (jsmap_get_filter _ _ _ Hnd).
    destruct (JsMap.get uri (MemoryResourceCache.cache c)) as [entry|]; [|done].
    simpl. destruct (MemoryResourceCache.expired now entry) eqn:E; simpl; [done|].
    by rewrite E.
Qed.

(** ** The resource provider *)

Lemma provider_eta (p : McpResourceProvider.state) :
  McpResourceProvider.mkState (McpResourceProvider.registry p)
    (McpResourceProvider.cache p) (McpResourceProvider.subscriptions p)
    (McpResourceProvider.objects p) = p.
Proof. by destruct p. Qed.










(** Two resources whose handlers return one and the same object: the
    read of the second writes its uri into the object that the cache
    holds for the first, so the next read of the first, served from the
    cache, returns an object that carries the uri of the second. *)
Lemma shared_contents_are_rewritten :
  let shared := fun (_ : Z) (s : Objects) => (inl 0%nat : nat + exn, s) in
  let p :=
    McpResourceProvider.mkState
      (DefaultResourceRegistry.run
         [DefaultResourceRegistry.Register
            (mkResourceDefinition "memory://a" "A" None None shared None);
          DefaultResourceRegistry.Register
            (mkResourceDefinition "memory://b" "B" None None shared None)]
         DefaultResourceRegistry.empty)
      (Some (MemoryResourceCache.new None)) []
      [mkContents "memory://a" None (Some "text") None] in
  let after :=
    provider_run [ProviderRead 0 0 "memory://a"; ProviderRead 0 0 "memory://b"] p in
  (McpResourceProvider.readResource 0 0 "memory://a" p).1 = inl 0%nat /\
  (McpResourceProvider.readResource 0 0 "memory://a" after).1 = inl 0%nat /\
  McpResourceProvider.objects
    (McpResourceProvider.readResource 0 0 "memory://a" after).2 !! 0%nat
    = Some (mkContents "memory://b" None (Some "text") None).
Proof. repeat split. Qed.

(** X28: the two ways a read that is not served from the cache fails,
    the cache having no entry for the uri or an expired one.  An
    unregistered uri gives ResourceNotFound, code -32001; a failure of the
    resource's handler, a typed protocol error included, gives
    InvalidParams, code -32602, with the message 'Error reading resource
    URI: DESCRIPTION' (stated for failures other than a [ZodError]).  In
    both cases the registry and the subscriptions are left as they were,
    the contents objects are as the handler left them, and the cache is
    as it was but for the expired entry of the uri, which the lookup has
    removed: afterwards the cache holds nothing for the uri and what it
    held for every other uri. *)
Theorem read_failures (p : McpResourceProvider.state) (now later : Z)
    (uri : string) :
  let after := fun s : Objects =>
    McpResourceProvider.mkState (McpResourceProvider.registry p)
      (option_map (fun c => (MemoryResourceCache.get now uri c).2)
         (McpResourceProvider.cache p))
      (McpResourceProvider.subscriptions p) s in
  (forall c, McpResourceProvider.cache p = Some c ->
     (MemoryResourceCache.get now uri c).1 = None) ->
  (DefaultResourceRegistry.get uri (McpResourceProvider.registry p) = None ->
   McpResourceProvider.readResource now later uri p =
     (inr (EMcp (mkMcpError (-32001) ("Resource not found: " +:+ uri) VUndefined)),
      after (McpResourceProvider.objects p))) /\
  (forall resource error s,
     DefaultResourceRegistry.get uri (McpResourceProvider.registry p)
       = Some resource ->
     rd_handler resource now (McpResourceProvider.objects p) = (inr error, s) ->
     (forall z, error <> EZod z) ->
     McpResourceProvider.readResource now later uri p =
       (inr (EMcp (mkMcpError (-32602)
                     ("Error reading resource " +:+ uri +:+ ": "
                        +:+ describe error) VUndefined)),
        after s)) /\
  (forall c, McpResourceProvider.cache p = Some c ->
     exists c',
       option_map (fun c => (MemoryResourceCache.get now uri c).2)
         (McpResourceProvider.cache p) = Some c' /\
       JsMap.get uri (MemoryResourceCache.cache c') = None /\
       forall other, other <> uri ->
         JsMap.get other (MemoryResourceCache.cache c')
           = JsMap.get other (MemoryResourceCache.cache c)) /\
  (McpResourceProvider.cache p = None ->
   after (McpResourceProvider.objects p) = p).
Proof.
  intros after Hmiss.
  assert (Hlookup :
    match McpResourceProvider.cache p with
    | Some c =>
        match MemoryResourceCache.get now uri c with
        | (cached, c') => (cached, Some c')
        end
    | None => (None, None)
    end
    = (None, option_map (fun c => (MemoryResourceCache.get now uri c).2)
               (McpResourceProvider.cache p))).
  { destruct (McpResourceProvider.cache p) as [c|] eqn:Hc; [|done].
    specialize (Hmiss c eq_refl).
    destruct (MemoryResourceCache.get now uri c) as [cached c'] eqn:E.
    simpl in *. subst cached. by rewrite E. }
  split; [|split; [|split]].
  - intros Hreg. unfold McpResourceProvider.readResource.
    by rewrite Hlookup, Hreg.
  - intros resource error s Hreg Hh _. unfold McpResourceProvider.readResource.
    by rewrite Hlookup, Hreg, Hh.
  - intros c Hc. rewrite Hc. simpl. eexists. split; [done|].
    destruct (cache_get_miss now uri c (Hmiss c Hc)) as (H1 & _ & H2). by split.
  - intros Hc. unfold after. rewrite Hc. simpl. rewrite <- Hc. apply provider_eta.
Qed.

Lemma read_failures_witness :
  McpResourceProvider.readResource 100 100 "memory://gone.txt"
    (McpResourceProvider.mkState DefaultResourceRegistry.empty
       (Some (MemoryResourceCache.set 0 "memory://gone.txt" 0%nat (Some 10)
                (MemoryResourceCache.new None)))
       [] [mkContents "memory://gone.txt" None (Some "old") None]) =
    (inr (EMcp (mkMcpError (-32001)
                  "Resource not found: memory://gone.txt" VUndefined)),
     McpResourceProvider.mkState DefaultResourceRegistry.empty
       (Some (MemoryResourceCache.new None)) []
       [mkContents "memory://gone.txt" None (Some "old") None]).
Proof.
  apply (read_failures
           (McpResourceProvider.mkState DefaultResourceRegistry.empty
              (Some (MemoryResourceCache.set 0 "memory://gone.txt" 0%nat (Some 10)
                       (MemoryResourceCache.new None)))
              [] [mkContents "memory://gone.txt" None (Some "old") None])
           100 100 "memory://gone.txt").
  - intros c [= <-]. reflexivity.
  - reflexivity.
Defined.

(** X29: after [unregisterResource(uri)] a read of the uri fails with
    ResourceNotFound whatever the provider held before, cached contents
    included: the resource, its subscription and its cache entry are all
    removed. *)
Theorem unregistered_resource_is_not_found (p : McpResourceProvider.state)
    (now later : Z) (uri : string) :
  McpResourceProvider.readResource now later uri
    (McpResourceProvider.unregisterResource uri p) =
    (inr (EMcp (mkMcpError (-32001) ("Resource not found: " +:+ uri) VUndefined)),
     McpResourceProvider.unregisterResource uri p).
Proof.
  unfold McpResourceProvider.readResource, McpResourceProvider.unregisterResource,
    DefaultResourceRegistry.get, DefaultResourceRegistry.unregister. simpl.
  rewrite jsmap_get_delete_eq.
  destruct (McpResourceProvider.cache p) as [c|]; simpl; [|done].
  rewrite cache_get_absent; [done|]. simpl. apply jsmap_get_delete_eq.
Qed.

(** X30: [notifyResourceChanged(uri)] drops the cached contents of the
    uri only when the uri is subscribed.  Without a subscription it does
    nothing at all, so the cached contents keep being served; after a
    successful [subscribeToResource(uri)] it leaves no cache entry for the
    uri. *)
Theorem notify_invalidates_only_subscribed (call : nat -> option exn)
    (uri : string) (p : McpResourceProvider.state) :
  (JsMap.has uri (McpResourceProvider.subscriptions p) = false ->
   McpResourceProvider.notifyResourceChanged call uri p = ([], p)) /\
  (DefaultResourceRegistry.has uri (McpResourceProvider.registry p) = true ->
   (McpResourceProvider.subscribeToResource uri p).1 = None /\
   match McpResourceProvider.cache
           (McpResourceProvider.notifyResourceChanged call uri
              (McpResourceProvider.subscribeToResource uri p).2).2 with
   | Some c => JsMap.get uri (MemoryResourceCache.cache c) = None
   | None => McpResourceProvider.cache p = None
   end).
Proof.
  split.
  - unfold JsMap.has, McpResourceProvider.notifyResourceChanged.
    by destruct (JsMap.get uri (McpResourceProvider.subscriptions p)).
  - intros Hreg. unfold McpResourceProvider.subscribeToResource.
    rewrite Hreg. simpl. split; [done|].
    unfold McpResourceProvider.notifyResourceChanged, JsMap.has. simpl.
    destruct (JsMap.get uri (McpResourceProvider.subscriptions p)) as [cbs|] eqn:E.
    + rewrite E. simpl. destruct (McpResourceProvider.cache p); simpl; [|done].
      apply jsmap_get_delete_eq.
    + rewrite jsmap_get_set_eq. simpl.
      destruct (McpResourceProvider.cache p); simpl; [|done].
      apply jsmap_get_delete_eq.
Qed.

Lemma unregister_removes_resource_and_subscriptions_witness :
  DefaultResourceRegistry.has "memory://a"
    (DefaultResourceRegistry.unregister "memory://b"
       (DefaultResourceRegistry.run
          [DefaultResourceRegistry.Register
             (McpResourceProvider.createStaticResource "memory://a" "A" "a"
                None None);
           DefaultResourceRegistry.Register
             (McpResourceProvider.createStaticResource "memory://b" "B" "b"
                None None);
           DefaultResourceRegistry.Subscribe "memory://a" 7;
           DefaultResourceRegistry.Subscribe "memory://b" 7]
          DefaultResourceRegistry.empty)) = true /\
  DefaultResourceRegistry.getSubscriptionCount "memory://a"
    (DefaultResourceRegistry.unregister "memory://b"
       (DefaultResourceRegistry.run
          [DefaultResourceRegistry.Register
             (McpResourceProvider.createStaticResource "memory://a" "A" "a"
                None None);
           DefaultResourceRegistry.Register
             (McpResourceProvider.createStaticResource "memory://b" "B" "b"
                None None);
           DefaultResourceRegistry.Subscribe "memory://a" 7;
           DefaultResourceRegistry.Subscribe "memory://b" 7]
          DefaultResourceRegistry.empty)) = 1%nat.
Proof.
  destruct (unregister_removes_resource_and_subscriptions
              (DefaultResourceRegistry.run
                 [DefaultResourceRegistry.Register
                    (McpResourceProvider.createStaticResource "memory://a" "A" "a"
                       None None);
                  DefaultResourceRegistry.Register
                    (McpResourceProvider.createStaticResource "memory://b" "B" "b"
                       None None);
                  DefaultResourceRegistry.Subscribe "memory://a" 7;
                  DefaultResourceRegistry.Subscribe "memory://b" 7]
                 DefaultResourceRegistry.empty)
              "memory://b") as (_ & _ & Hother).
  destruct (Hother "memory://a") as [Hget Hcount]; [discriminate|].
  split.
  - unfold DefaultResourceRegistry.has, DefaultResourceRegistry.get, JsMap.has in *.
    by rewrite Hget.
  - by rewrite Hcount.
Defined.

Lemma notify_invalidates_only_subscribed_witness :
  McpResourceProvider.notifyResourceChanged (fun _ => None) "memory://cached.txt"
    (McpResourceProvider.readResource 1000 1000 "memory://cached.txt"
       (McpResourceProvider.registerResource (fun _ => true)
          (McpResourceProvider.createStaticResource "memory://cached.txt"
             "Cached Resource" "old text" None None)
          (mkResourceOptions (Some true) None)
          (McpResourceProvider.new None)).2).2 =
    ([],
     (McpResourceProvider.readResource 1000 1000 "memory://cached.txt"
        (McpResourceProvider.registerResource (fun _ => true)
           (McpResourceProvider.createStaticResource "memory://cached.txt"
              "Cached Resource" "old text" None None)
           (mkResourceOptions (Some true) None)
           (McpResourceProvider.new None)).2).2).
Proof.
  apply (notify_invalidates_only_subscribed (fun _ => None) "memory://cached.txt").
  reflexivity.
Defined.
